(** * Multi-device frame synchronisation: [rs_py/rs_view_sync_raw_data.py]

    A shallow embedding of the directory scan ([get_calib], [get_filepaths],
    [get_filepaths_with_timestamps]) and of the alignment loop of the
    [__main__] block, followed by the properties of the design document
    that can be stated over them, by further properties of the same code,
    and by the capture loop of [realsense/net_viewer.py].

    Conventions of the embedding:
    - a Python [str] is a [string] (a sequence of bytes; file names are
      taken to be ASCII, which is what [int] and [sorted] are modelled on);
    - a Python [int] is a [Z];
    - a Python [dict] is an association list in insertion order, because
      the program relies on [list(d.keys())] being in insertion order;
    - a raised exception is the [Raise] branch of [result];
    - [os.listdir] is an oracle from paths to listings, in the order the
      operating system happens to report the entries. *)

From Stdlib Require Import List ZArith String Ascii Bool Lia Arith.
From Stdlib Require Import Sorting.Sorted Sorting.Permutation.
From Stdlib Require Import Structures.OrderedTypeEx.
From Stdlib Require DecimalString DecimalNat.
Import ListNotations.

Local Open Scope string_scope.
Local Open Scope list_scope.

(** ** Exceptions and the error monad *)

Inductive exn : Type :=
| OSError (path : string)
| IndexError
| KeyError
| ValueError
| StopIteration
| RuntimeError (msg : string).

Inductive result (A : Type) : Type :=
| Ok (a : A)
| Raise (e : exn).

Arguments Ok {A} a.
Arguments Raise {A} e.

Definition bind {A B : Type} (m : result A) (k : A -> result B) : result B :=
  match m with
  | Ok a => k a
  | Raise e => Raise e
  end.

Notation "x <- m ;; k" := (bind m (fun x => k))
  (at level 61, m at next level, right associativity).
Notation "' p <- m ;; k" := (bind m (fun x => let p := x in k))
  (at level 61, p pattern, m at next level, right associativity).

(** A [for] loop whose body may raise, threading the loop state. *)
Fixpoint foldM {A S : Type} (f : S -> A -> result S) (l : list A) (s : S)
  : result S :=
  match l with
  | [] => Ok s
  | x :: l' => s' <- f s x ;; foldM f l' s'
  end.

Definition is_ok {A : Type} (r : result A) : bool :=
  match r with Ok _ => true | Raise _ => false end.

(** ** Strings *)

(** [sorted] on a list of [str]: ascending in the lexicographic order of
    the characters. *)
Fixpoint insert_sorted (x : string) (l : list string) : list string :=
  match l with
  | [] => [x]
  | y :: l' => if String.leb x y then x :: l else y :: insert_sorted x l'
  end.

Fixpoint sorted (l : list string) : list string :=
  match l with
  | [] => []
  | x :: l' => insert_sorted x (sorted l')
  end.

(** [s.split(sep)] for a one-character separator. *)
Fixpoint str_split (sep : ascii) (s : string) : list string :=
  match s with
  | EmptyString => [EmptyString]
  | String c s' =>
      if Ascii.eqb c sep then EmptyString :: str_split sep s'
      else match str_split sep s' with
           | [] => [String c EmptyString]
           | w :: ws => String c w :: ws
           end
  end.

(** [l[0]] and [l[-1]]. *)
Definition py_first {A : Type} (l : list A) : result A :=
  match l with
  | [] => Raise IndexError
  | x :: _ => Ok x
  end.

Fixpoint py_last {A : Type} (l : list A) : result A :=
  match l with
  | [] => Raise IndexError
  | [x] => Ok x
  | _ :: l' => py_last l'
  end.

(** [l[i]] for a non-negative index. *)
Definition py_index {A : Type} (l : list A) (i : nat) : result A :=
  match nth_error l i with
  | Some x => Ok x
  | None => Raise IndexError
  end.

(** [posixpath.join]. *)
Definition startswith_sep (s : string) : bool :=
  match s with
  | String c _ => Ascii.eqb c "/"
  | EmptyString => false
  end.

Fixpoint endswith_sep (s : string) : bool :=
  match s with
  | EmptyString => false
  | String c EmptyString => Ascii.eqb c "/"
  | String _ s' => endswith_sep s'
  end.

Definition join_step (path b : string) : string :=
  if startswith_sep b then b
  else if (String.eqb path "" || endswith_sep path)%bool then path ++ b
  else path ++ "/" ++ b.

Definition path_join (a : string) (p : list string) : string :=
  fold_left join_step p a.

Arguments path_join : simpl never.

(** [int(s)] in base 10 for a [str] of ASCII characters: surrounding white
    space is dropped, one sign is allowed, and single underscores may
    separate digits.  The white space [int] skips in such a string is that
    of C's [isspace]: tab, line feed, vertical tab, form feed, carriage
    return and space; the separators 0x1C to 0x1F, which [str.strip] drops,
    are not skipped.  Names with characters beyond ASCII, where [int] also
    reads the digits and spaces of other scripts, are outside the
    embedding. *)
Definition is_space (c : ascii) : bool :=
  let n := nat_of_ascii c in
  ((9 <=? n) && (n <=? 13) || (n =? 32))%nat%bool.

Definition digit_val (c : ascii) : option Z :=
  let n := nat_of_ascii c in
  if ((48 <=? n) && (n <=? 57))%nat%bool then Some (Z.of_nat n - 48)%Z
  else None.

Fixpoint lstrip (s : string) : string :=
  match s with
  | EmptyString => EmptyString
  | String c s' => if is_space c then lstrip s' else s
  end.

Fixpoint rstrip (s : string) : string :=
  match s with
  | EmptyString => EmptyString
  | String c s' =>
      match rstrip s' with
      | EmptyString => if is_space c then EmptyString else String c EmptyString
      | r => String c r
      end
  end.

Fixpoint digits (s : string) (acc : Z) (after_digit : bool) : option Z :=
  match s with
  | EmptyString => if after_digit then Some acc else None
  | String c s' =>
      match digit_val c with
      | Some d => digits s' (10 * acc + d)%Z true
      | None =>
          if (Ascii.eqb c "_" && after_digit)%bool then digits s' acc false
          else None
      end
  end.

Definition py_int (s : string) : result Z :=
  let body := rstrip (lstrip s) in
  let parsed :=
    match body with
    | String "+" r => digits r 0%Z false
    | String "-" r => option_map Z.opp (digits r 0%Z false)
    | _ => digits body 0%Z false
    end in
  match parsed with
  | Some z => Ok z
  | None => Raise ValueError
  end.

(** ** Dictionaries in insertion order *)

Section Dict.
Context {K V : Type} (eqb : K -> K -> bool).

Definition dict : Type := list (K * V).

Fixpoint dict_get (k : K) (d : dict) : option V :=
  match d with
  | [] => None
  | (k', v) :: d' => if eqb k k' then Some v else dict_get k d'
  end.

(** [d[k] = v]: an existing key keeps its position, a new key goes last. *)
Fixpoint dict_set (k : K) (v : V) (d : dict) : dict :=
  match d with
  | [] => [(k, v)]
  | (k', v') :: d' =>
      if eqb k k' then (k', v) :: d' else (k', v') :: dict_set k v d'
  end.

Definition keys (d : dict) : list K := map fst d.
Definition values (d : dict) : list V := map snd d.

(** [d[k]] as an expression. *)
Definition dict_lookup (k : K) (d : dict) : result V :=
  match dict_get k d with
  | Some v => Ok v
  | None => Raise KeyError
  end.
End Dict.

Arguments dict : clear implicits.

(** ** The directory scan *)

Definition PATH : string := "/tmp/testing".

Section Scan.
(** [os.listdir]: [None] when the path cannot be listed. *)
Variable os_listdir : string -> option (list string).

Definition listdir (path : string) : result (list string) :=
  match os_listdir path with
  | Some names => Ok names
  | None => Raise (OSError path)
  end.

Definition get_calib (base_path : string) : result (dict string string) :=
  devices <- listdir base_path ;;
  foldM (fun path device =>
    let device_path := path_join base_path [device] in
    tss <- listdir device_path ;;
    foldM (fun path ts =>
      let calib_path := path_join base_path [device; ts; "calib"] in
      filenames <- listdir calib_path ;;
      Ok (fold_left (fun path filename =>
                       dict_set String.eqb device
                                (path_join calib_path [filename]) path)
                    (sorted filenames) path))
      (sorted tss) path)
    (sorted devices) [].

Definition get_filepaths (base_path sensor : string)
  : result (dict string (list string)) :=
  devices <- listdir base_path ;;
  foldM (fun out device =>
    let out := dict_set String.eqb device [] out in
    let device_path := path_join base_path [device] in
    tss <- listdir device_path ;;
    foldM (fun out ts =>
      let sensor_path := path_join base_path [device; ts; sensor] in
      filenames <- listdir sensor_path ;;
      foldM (fun out filename =>
               files <- dict_lookup String.eqb device out ;;
               Ok (dict_set String.eqb device
                     (files ++ [path_join sensor_path [filename]]) out))
            (sorted filenames) out)
      (sorted tss) out)
    (sorted devices) [].
End Scan.

(** ** Building the index *)

(** [zip] applied to the unpacked list of columns: rows are produced
    until some column runs out; without columns there is no row. *)
Fixpoint heads {A : Type} (cols : list (list A)) : option (list A) :=
  match cols with
  | [] => Some []
  | [] :: _ => None
  | (x :: _) :: cols' => option_map (cons x) (heads cols')
  end.

Definition tails {A : Type} (cols : list (list A)) : list (list A) :=
  map (@tl A) cols.

Fixpoint zip_rows {A : Type} (n : nat) (cols : list (list A))
  : list (list A) :=
  match n with
  | O => []
  | S n' =>
      match heads cols with
      | Some row => row :: zip_rows n' (tails cols)
      | None => []
      end
  end.

Definition zip_star {A : Type} (cols : list (list A)) : list (list A) :=
  match cols with
  | [] => []
  | c :: _ => zip_rows (List.length c) cols
  end.

(** [int(file.split('/')[-1].split('.')[0])]. *)
Definition timestamp_of (file : string) : result Z :=
  name <- py_last (str_split "/" file) ;;
  stem <- py_first (str_split "." name) ;;
  py_int stem.

(** Device name to (timestamp to [[calib_file, data_file]]). *)
Definition ts_dict : Type := dict string (dict Z (list string)).

Definition set_entry (dev : string) (ts : Z) (entry : list string)
  (d : ts_dict) : result ts_dict :=
  inner <- dict_lookup String.eqb dev d ;;
  Ok (dict_set String.eqb dev (dict_set Z.eqb ts entry inner) d).

(** Body of [for i in range(num_dev)] for one row of the [zip]. *)
Definition index_row (num_dev : nat) (data_tuple : list string)
  (acc : ts_dict * ts_dict) (i : nat) : result (ts_dict * ts_dict) :=
  let '(color_dict, depth_dict) := acc in
  dev <- py_index data_tuple (0 * num_dev + i) ;;
  calib_file <- py_index data_tuple (1 * num_dev + i) ;;
  color_file <- py_index data_tuple (2 * num_dev + i) ;;
  depth_file <- py_index data_tuple (3 * num_dev + i) ;;
  color_ts <- timestamp_of color_file ;;
  depth_ts <- timestamp_of depth_file ;;
  color_dict <- set_entry dev color_ts [calib_file; color_file] color_dict ;;
  depth_dict <- set_entry dev depth_ts [calib_file; depth_file] depth_dict ;;
  Ok (color_dict, depth_dict).

(** Lines 41-72, from the three scanned dictionaries. *)
Definition build_index
  (dev_color_files dev_depth_files : dict string (list string))
  (dev_calib_file : dict string string)
  : result (ts_dict * ts_dict * nat * nat) :=
  num_data <- option_rect (fun _ => result nat) (fun l => Ok (List.length l))
                (Raise IndexError) (hd_error (values dev_color_files)) ;;
  let num_dev := List.length (keys dev_calib_file) in
  let devices := map (fun i => repeat i num_data) (keys dev_calib_file) in
  let calib_files := map (fun i => repeat i num_data) (values dev_calib_file) in
  let color_dict : ts_dict := map (fun dev => (dev, [])) (keys dev_calib_file) in
  let depth_dict : ts_dict := map (fun dev => (dev, [])) (keys dev_calib_file) in
  '(color_dict, depth_dict) <-
    foldM (fun acc data_tuple =>
             foldM (index_row num_dev data_tuple) (seq 0 num_dev) acc)
          (zip_star (devices ++ calib_files
                       ++ values dev_color_files ++ values dev_depth_files))
          (color_dict, depth_dict) ;;
  Ok (color_dict, depth_dict, num_data, num_dev).

Definition get_filepaths_with_timestamps
  (os_listdir : string -> option (list string))
  : result (ts_dict * ts_dict * nat * nat) :=
  dev_color_files <- get_filepaths os_listdir PATH "color" ;;
  dev_depth_files <- get_filepaths os_listdir PATH "depth" ;;
  dev_calib_file <- get_calib os_listdir PATH ;;
  build_index dev_color_files dev_depth_files dev_calib_file.

(** ** The alignment loop *)

Fixpoint mapM {A B : Type} (f : A -> result B) (l : list A)
  : result (list B) :=
  match l with
  | [] => Ok []
  | x :: l' => y <- f x ;; ys <- mapM f l' ;; Ok (y :: ys)
  end.

(** [max(l)] on a list of integers. *)
Definition py_max (l : list Z) : result Z :=
  match l with
  | [] => Raise ValueError
  | x :: l' => Ok (fold_left Z.max l' x)
  end.

Fixpoint enumerate_from {A : Type} (i : nat) (l : list A) : list (nat * A) :=
  match l with
  | [] => []
  | x :: l' => (i, x) :: enumerate_from (S i) l'
  end.

Definition enumerate {A : Type} (l : list A) : list (nat * A) :=
  enumerate_from 0 l.

(** [next(x for x in l if p(x))]. *)
Definition py_next {A : Type} (p : A -> bool) (l : list A) : result A :=
  match find p l with
  | Some x => Ok x
  | None => Raise StopIteration
  end.

(** What the loop reads and never reassigns (lines 77-88). *)
Record session : Type := {
  color_dict : ts_dict;
  depth_dict : ts_dict;
  dev_color_ts : dict string (list Z);
  dev_depth_ts : dict string (list Z);
  dev_list : list string;
  counter_color : list nat;
  counter_depth : list nat
}.

(** [next(x for x in enumerate(seq[counter:]) if x[1] >= ts_max)]. *)
Definition scan (tss : list Z) (counter : nat) (ts_max : Z)
  : result (nat * Z) :=
  py_next (fun x => (ts_max <=? snd x)%Z) (enumerate (skipn counter tss)).

(** Lines 93-107. *)
Definition select (s : session) (ts_max : Z) : result (list Z * list Z) :=
  foldM (fun '(tmp_color_ts_list, tmp_depth_ts_list) '(idx, dev) =>
           color_tss <- dict_lookup String.eqb dev (dev_color_ts s) ;;
           c <- py_index (counter_color s) idx ;;
           '(ts_idx, ts) <- scan color_tss c ts_max ;;
           let tmp_color_ts_list := tmp_color_ts_list ++ [ts] in
           depth_tss <- dict_lookup String.eqb dev (dev_depth_ts s) ;;
           c <- py_index (counter_depth s) idx ;;
           '(ts_idx, ts) <- scan depth_tss c ts_max ;;
           let tmp_depth_ts_list := tmp_depth_ts_list ++ [ts] in
           Ok (tmp_color_ts_list, tmp_depth_ts_list))
        (enumerate (dev_list s)) ([], []).

(** One frame bundle: the watermark the step ran with, the chosen
    timestamps per device, and the watermark the step leaves behind. *)
Record bundle : Type := {
  used_watermark : Z;
  chosen_color : list Z;
  chosen_depth : list Z;
  new_watermark : Z
}.

(** Lines 93-108: one alignment step. *)
Definition align (s : session) (ts_max : Z) : result bundle :=
  '(tmp_color_ts_list, tmp_depth_ts_list) <- select s ts_max ;;
  ts_max' <- py_max (tmp_color_ts_list ++ tmp_depth_ts_list) ;;
  Ok {| used_watermark := ts_max;
        chosen_color := tmp_color_ts_list;
        chosen_depth := tmp_depth_ts_list;
        new_watermark := ts_max' |}.

(** Lines 111-114: the files handed to the decoder for each device.  The
    look-ups of all devices are gathered here and the decoding and display
    of lines 116-155 are left to [display] below. *)
Definition frame_files (s : session) (b : bundle)
  : result (list (string * string * string)) :=
  mapM (fun '(i, dev) =>
          cd <- dict_lookup String.eqb dev (color_dict s) ;;
          cts <- py_index (chosen_color b) i ;;
          centry <- dict_lookup Z.eqb cts cd ;;
          calib_file <- py_index centry 0 ;;
          color_file <- py_index centry 1 ;;
          dd <- dict_lookup String.eqb dev (depth_dict s) ;;
          dts <- py_index (chosen_depth b) i ;;
          dentry <- dict_lookup Z.eqb dts dd ;;
          depth_file <- py_index dentry 1 ;;
          Ok (calib_file, color_file, depth_file))
       (enumerate (dev_list s)).

(** Lines 77-88. *)
Definition start (idx : ts_dict * ts_dict * nat * nat) : result (session * Z) :=
  let '(color_dict, depth_dict, num_data, num_dev) := idx in
  let dev_color_ts := map (fun '(k, v) => (k, keys v)) color_dict in
  let dev_depth_ts := map (fun '(k, v) => (k, keys v)) depth_dict in
  let dev_list := keys color_dict in
  firsts_color <- mapM (fun i => py_first (keys i)) (values color_dict) ;;
  ts_color_max <- py_max firsts_color ;;
  firsts_depth <- mapM (fun i => py_first (keys i)) (values depth_dict) ;;
  ts_depth_max <- py_max firsts_depth ;;
  ts_max <- py_max [ts_color_max; ts_depth_max] ;;
  Ok ({| color_dict := color_dict;
         depth_dict := depth_dict;
         dev_color_ts := dev_color_ts;
         dev_depth_ts := dev_depth_ts;
         dev_list := dev_list;
         counter_color := repeat 0%nat num_dev;
         counter_depth := repeat 0%nat num_dev |}, ts_max).

Section Loop.
(** Decoding and display of one bundle (lines 116-155): file and window
    I/O, which may raise; the argument is the iteration number. *)
Variable display : nat -> list (string * string * string) -> result unit.

Variable s : session.

(** One pass through the body of [while True]. *)
Definition iteration (n : nat) (ts_max : Z) : result bundle :=
  b <- align s ts_max ;;
  files <- frame_files s b ;;
  _ <- display n files ;;
  Ok b.

(** The first [fuel] iterations: the bundles of the iterations that ran
    to their end, and the exception that ended the loop, if any. *)
Fixpoint loop (fuel n : nat) (ts_max : Z) : list bundle * option exn :=
  match fuel with
  | O => ([], None)
  | S fuel' =>
      match iteration n ts_max with
      | Raise e => ([], Some e)
      | Ok b =>
          let '(bs, r) := loop fuel' (S n) (new_watermark b) in
          (b :: bs, r)
      end
  end.
End Loop.

(** ** The program: [try] / [except Exception] / [finally] *)

Inductive signal : Type :=
| Exception (e : exn)
| SystemExit (code : Z).

(** A statement transforms the standard output and may end in a signal. *)
Definition stmt : Type := list string -> list string * option signal.

Definition raise (e : exn) : stmt := fun out => (out, Some (Exception e)).
Definition print (line : string) : stmt := fun out => (out ++ [line], None).
Definition exit (code : Z) : stmt := fun out => (out, Some (SystemExit code)).

Definition then_ (a b : stmt) : stmt :=
  fun out =>
    match a out with
    | (out', None) => b out'
    | r => r
    end.

(** [try: body / except Exception as e: handler(e) / finally: final].  A
    signal leaving [final] replaces whatever was in flight. *)
Definition try_except_finally (body : stmt) (handler : exn -> stmt)
  (final : stmt) : stmt :=
  fun out =>
    let '(out1, r1) := body out in
    let '(out2, r2) :=
      match r1 with
      | Some (Exception e) => handler e out1
      | _ => (out1, r1)
      end in
    let '(out3, r3) := final out2 in
    match r3 with
    | Some sg => (out3, Some sg)
    | None => (out3, r2)
    end.

(** Exit status of the interpreter for the signal the script ends with. *)
Definition exit_status (r : option signal) : Z :=
  match r with
  | None => 0
  | Some (SystemExit code) => code
  | Some (Exception _) => 1
  end.

Section Main.
Variable os_listdir : string -> option (list string).
Variable display : nat -> list (string * string * string) -> result unit.
(** [str(e)], as [print(e)] shows it. *)
Variable str : exn -> string.

(** Lines 90-163 once the loop has left with exception [e]. *)
Definition guarded (e : exn) : stmt :=
  try_except_finally (raise e)
    (fun e => then_ (print (str e)) (exit 1))
    (exit 0).

(** The script, observed for [fuel] iterations of the loop: [None] while
    the loop is still running, otherwise the standard output and the
    exit status. *)
Definition main (fuel : nat) : option (list string * Z) :=
  match idx <- get_filepaths_with_timestamps os_listdir ;; start idx with
  | Raise e => Some ([], exit_status (Some (Exception e)))
  | Ok (s, ts_max) =>
      match snd (loop display s fuel 0 ts_max) with
      | None => None
      | Some e =>
          let '(out, r) := guarded e [] in
          Some (out, exit_status r)
      end
  end.
End Main.

(** ** Vocabulary of the statements *)

(** [t] is the least timestamp of [tss] that is at or after [w]. *)
Definition least_at_or_after (tss : list Z) (w t : Z) : Prop :=
  In t tss /\ (w <= t)%Z /\ forall t', In t' tss -> (w <= t')%Z -> (t <= t')%Z.

(** [tss] is in ascending order. *)
Fixpoint ascending (tss : list Z) : bool :=
  match tss with
  | [] => true
  | x :: tss' =>
      match tss' with
      | [] => true
      | y :: _ => (x <=? y)%Z && ascending tss'
      end
  end.

(** What the body of the [for] loop of lines 95-107 picks for one device. *)
Definition pick (s : session) (ts_max : Z) (x : nat * string)
  : result (Z * Z) :=
  let '(idx, dev) := x in
  color_tss <- dict_lookup String.eqb dev (dev_color_ts s) ;;
  c <- py_index (counter_color s) idx ;;
  p <- scan color_tss c ts_max ;;
  depth_tss <- dict_lookup String.eqb dev (dev_depth_ts s) ;;
  c' <- py_index (counter_depth s) idx ;;
  q <- scan depth_tss c' ts_max ;;
  Ok (snd p, snd q).

(** The session the script opens on a directory tree: lines 77-88 after
    the scan. *)
Definition opened (os_listdir : string -> option (list string))
  : result (session * Z) :=
  idx <- get_filepaths_with_timestamps os_listdir ;; start idx.


(** All the timestamps of a bundle. *)
Definition chosen (b : bundle) : list Z := chosen_color b ++ chosen_depth b.

(** The order [sorted] sorts by. *)
Definition str_le (a b : string) : Prop := String.leb a b = true.

(** The files of one session directory of a device, and of all the session
    directories of a device, in the order the scan visits them. *)
Definition session_files (os_listdir : string -> option (list string))
  (base_path sensor device ts : string) : result (list string) :=
  let sensor_path := path_join base_path [device; ts; sensor] in
  filenames <- listdir os_listdir sensor_path ;;
  Ok (map (fun filename => path_join sensor_path [filename])
          (sorted filenames)).

Definition device_files (os_listdir : string -> option (list string))
  (base_path sensor device : string) : result (list string) :=
  tss <- listdir os_listdir (path_join base_path [device]) ;;
  parts <- mapM (session_files os_listdir base_path sensor device)
                (sorted tss) ;;
  Ok (List.concat parts).

(** The last element of a list, if any. *)
Fixpoint last_error {A : Type} (l : list A) : option A :=
  match l with
  | [] => None
  | x :: l' =>
      match last_error l' with
      | Some y => Some y
      | None => Some x
      end
  end.

(** The calibration file the scan selects for a device, and the first and
    the last of the calibration files it finds for that device. *)
Definition selected_calib (os_listdir : string -> option (list string))
  (device : string) : result (option string) :=
  path <- get_calib os_listdir PATH ;;
  Ok (dict_get String.eqb device path).

Definition found_calib (os_listdir : string -> option (list string))
  (device : string) : result (list string) :=
  out <- get_filepaths os_listdir PATH "calib" ;;
  Ok (match dict_get String.eqb device out with
      | Some files => files
      | None => []
      end).

(** What the two scans hold for a device once both have visited the same
    devices. *)
Definition calib_agrees (os_listdir : string -> option (list string))
  (base_path : string) (path : dict string string)
  (out : dict string (list string)) : Prop :=
  forall dev,
    match dict_get String.eqb dev out with
    | Some files =>
        device_files os_listdir base_path "calib" dev = Ok files /\
        dict_get String.eqb dev path = last_error files
    | None => dict_get String.eqb dev path = None
    end.

(** The length of the shortest of the columns [zip] runs over, and of
    [n]. *)
Definition shortest {A : Type} (n : nat) (cols : list (list A)) : nat :=
  fold_right (fun c m => Nat.min (List.length c) m) n cols.

(** The entry line 69 (or 70) stores for one file, and the dictionary a
    device ends up with when these files are stored one after the other. *)
Definition insert_file (calib_file : string) (d : dict Z (list string))
  (file : string) : result (dict Z (list string)) :=
  ts <- timestamp_of file ;;
  Ok (dict_set Z.eqb ts [calib_file; file] d).

Definition entries_of (calib_file : string) (files : list string)
  : result (dict Z (list string)) :=
  foldM (insert_file calib_file) files [].

(** The keys of a dictionary after the keys [tss] were stored in order:
    the distinct values of [tss], each at its first occurrence. *)
Fixpoint add_key (t : Z) (l : list Z) : list Z :=
  match l with
  | [] => [t]
  | x :: l' => if Z.eqb t x then l else x :: add_key t l'
  end.

Definition distinct (tss : list Z) : list Z :=
  fold_left (fun acc t => add_key t acc) tss [].

(** The body of the loop of lines 57-70 for the device at one position,
    given its name, calibration file, colour file and depth file. *)
Definition item_step (acc : ts_dict * ts_dict)
  (item : string * (string * (string * string)))
  : result (ts_dict * ts_dict) :=
  let '(color_dict, depth_dict) := acc in
  let '(dev, (calib_file, (color_file, depth_file))) := item in
  color_ts <- timestamp_of color_file ;;
  depth_ts <- timestamp_of depth_file ;;
  color_dict <- set_entry dev color_ts [calib_file; color_file] color_dict ;;
  depth_dict <- set_entry dev depth_ts [calib_file; depth_file] depth_dict ;;
  Ok (color_dict, depth_dict).

(** What one row of the [zip] holds for each device when every device has
    a calibration file: its name, calibration file, colour file and depth
    file. *)
Definition row_items (devs calibs crow drow : list string)
  : list (string * (string * (string * string))) :=
  combine devs (combine calibs (combine crow drow)).

(** The columns handed to [zip]: [k] copies of every device name, [k]
    copies of every calibration file, the colour lists, the depth lists. *)
Definition zip_columns (devs calibs : list string) (k : nat)
  (cfs dfs : list (list string)) : list (list string) :=
  map (fun i => repeat i k) devs ++ map (fun i => repeat i k) calibs
    ++ cfs ++ dfs.

(** The dictionary of [dev] goes from [d] to [d'] by storing [file]. *)
Definition stored (calib_file file dev : string) (d d' : ts_dict) : Prop :=
  exists D D',
    dict_get String.eqb dev d = Some D /\
    insert_file calib_file D file = Ok D' /\
    dict_get String.eqb dev d' = Some D'.

(** Every device the scans found has a calibration file: the three
    dictionaries have the same keys, each once. *)
Fixpoint names_eqb (l1 l2 : list string) : bool :=
  match l1, l2 with
  | [], [] => true
  | x :: l1', y :: l2' => String.eqb x y && names_eqb l1' l2'
  | _, _ => false
  end.

Fixpoint names_distinct (l : list string) : bool :=
  match l with
  | [] => true
  | x :: l' => negb (existsb (String.eqb x) l') && names_distinct l'
  end.

Definition aligned (dev_color_files dev_depth_files : dict string (list string))
  (dev_calib_file : dict string string) : bool :=
  names_eqb (keys dev_color_files) (keys dev_calib_file)
  && names_eqb (keys dev_depth_files) (keys dev_calib_file)
  && names_distinct (keys dev_calib_file).

(** The number of rows of the [zip]: the least of the length of the first
    device's colour list ([num_data]) and of the lengths of all the colour
    lists and depth lists. *)
Definition num_rows (dev_color_files dev_depth_files : dict string (list string))
  : nat :=
  match values dev_color_files with
  | [] => 0
  | first :: _ =>
      shortest (List.length first)
               (values dev_color_files ++ values dev_depth_files)
  end.

(** The sequence of a device in one of the dictionaries of the index, as
    line 78 (or 79) reads it. *)
Definition sequence_of (d : ts_dict) (dev : string) : option (list Z) :=
  option_map (@keys Z (list string)) (dict_get String.eqb dev d).

(** Two directory trees with the same entries in every directory, listed
    in whatever order. *)
Definition same_entries (a b : option (list string)) : Prop :=
  match a, b with
  | Some l1, Some l2 => Permutation l1 l2
  | None, None => True
  | _, _ => False
  end.

Definition same_tree (os_listdir os_listdir' : string -> option (list string))
  : Prop :=
  forall path, same_entries (os_listdir path) (os_listdir' path).

(** ** Directory trees used as examples *)

(** A tree given by the listing of each of its directories. *)
Definition tree (listing : list (string * list string))
  : string -> option (list string) :=
  fun path => dict_get String.eqb path listing.

(** A display that never fails. *)
Definition quiet (n : nat) (files : list (string * string * string))
  : result unit := Ok tt.

(** Two devices, listed out of order: A with colour 100, 200, 300 and depth
    105, 205, 305; B with colour 150, 250, 350 and depth 155, 255, 355. *)
Definition two_devices : string -> option (list string) :=
  tree [("/tmp/testing", ["B"; "A"]);
        ("/tmp/testing/A", ["s"]);
        ("/tmp/testing/B", ["s"]);
        ("/tmp/testing/A/s/color", ["300.bin"; "100.bin"; "200.bin"]);
        ("/tmp/testing/A/s/depth", ["105.bin"; "205.bin"; "305.bin"]);
        ("/tmp/testing/A/s/calib", ["calib.json"]);
        ("/tmp/testing/B/s/color", ["150.bin"; "250.bin"; "350.bin"]);
        ("/tmp/testing/B/s/depth", ["155.bin"; "355.bin"; "255.bin"]);
        ("/tmp/testing/B/s/calib", ["calib.json"])].

(** One device with a single colour frame and a single depth frame, both
    at timestamp 100. *)
Definition single_pair : string -> option (list string) :=
  tree [("/tmp/testing", ["A"]);
        ("/tmp/testing/A", ["s"]);
        ("/tmp/testing/A/s/color", ["100.bin"]);
        ("/tmp/testing/A/s/depth", ["100.bin"]);
        ("/tmp/testing/A/s/calib", ["calib.json"])].

(** The session of a tree the script can open; an empty one otherwise. *)
Definition session_of (os_listdir : string -> option (list string))
  : session :=
  match opened os_listdir with
  | Ok (s, _) => s
  | Raise _ =>
      {| color_dict := []; depth_dict := []; dev_color_ts := [];
         dev_depth_ts := []; dev_list := []; counter_color := [];
         counter_depth := [] |}
  end.

Definition two_devices_session : session :=
  Eval vm_compute in session_of two_devices.

Definition single_pair_session : session :=
  Eval vm_compute in session_of single_pair.

(** Two sessions of one device, each with its own calibration file; the
    listings are already in ascending order. *)
Definition two_sessions : string -> option (list string) :=
  tree [("/tmp/testing", ["A"]);
        ("/tmp/testing/A", ["s1"; "s2"]);
        ("/tmp/testing/A/s1/color", ["100.bin"]);
        ("/tmp/testing/A/s1/depth", ["100.bin"]);
        ("/tmp/testing/A/s1/calib", ["first.json"]);
        ("/tmp/testing/A/s2/color", ["200.bin"]);
        ("/tmp/testing/A/s2/depth", ["200.bin"]);
        ("/tmp/testing/A/s2/calib", ["second.json"])].

(** Two devices whose lists have unequal lengths: A has three colour
    files and two depth files, B two colour files and four depth files. *)
Definition uneven : string -> option (list string) :=
  tree [("/tmp/testing", ["A"; "B"]);
        ("/tmp/testing/A", ["s"]);
        ("/tmp/testing/B", ["s"]);
        ("/tmp/testing/A/s/color", ["100.bin"; "200.bin"; "300.bin"]);
        ("/tmp/testing/A/s/depth", ["105.bin"; "205.bin"]);
        ("/tmp/testing/A/s/calib", ["calib.json"]);
        ("/tmp/testing/B/s/color", ["150.bin"; "250.bin"]);
        ("/tmp/testing/B/s/depth", ["155.bin"; "255.bin"; "355.bin"; "455.bin"]);
        ("/tmp/testing/B/s/calib", ["calib.json"])].

(** One device whose file names are not padded to the same width. *)
Definition unpadded : string -> option (list string) :=
  tree [("/tmp/testing", ["A"]);
        ("/tmp/testing/A", ["s"]);
        ("/tmp/testing/A/s/color", ["9.bin"; "10.bin"]);
        ("/tmp/testing/A/s/depth", ["9.bin"; "10.bin"]);
        ("/tmp/testing/A/s/calib", ["calib.json"])].

(** One device with a colour frame and an empty depth directory. *)
Definition empty_depth : string -> option (list string) :=
  tree [("/tmp/testing", ["A"]);
        ("/tmp/testing/A", ["s"]);
        ("/tmp/testing/A/s/color", ["100.bin"]);
        ("/tmp/testing/A/s/depth", []);
        ("/tmp/testing/A/s/calib", ["calib.json"])].

(** ** Vocabulary of the further properties *)

(** Every entry of a dictionary of the index is a pair of a calibration
    file and a data file, stored under the timestamp of the data file. *)
Definition entries_wf (d : ts_dict) : Prop :=
  forall dev D ts entry,
    dict_get String.eqb dev d = Some D ->
    dict_get Z.eqb ts D = Some entry ->
    exists calib_file file,
      entry = [calib_file; file] /\ timestamp_of file = Ok ts.

(** The timestamp sequences lines 78-79 read off a dictionary of the
    index. *)
Definition sequences (d : ts_dict) : dict string (list Z) :=
  map (fun '(k, v) => (k, keys v)) d.

(** All the streams of a session: the colour sequences, then the depth
    sequences, each with its device. *)
Definition streams (s : session) : list (string * list Z) :=
  dev_color_ts s ++ dev_depth_ts s.

(** The session lines 77-88 set up over an index. *)
Definition session_over (cd dd : ts_dict) (nv : nat) : session :=
  {| color_dict := cd; depth_dict := dd;
     dev_color_ts := sequences cd; dev_depth_ts := sequences dd;
     dev_list := keys cd;
     counter_color := repeat 0%nat nv;
     counter_depth := repeat 0%nat nv |}.

(** What the build guarantees of an index the loop runs over. *)
Definition index_wf (cd dd : ts_dict) (nv : nat) : Prop :=
  keys dd = keys cd /\ NoDup (keys cd) /\ nv = List.length (keys cd) /\
  keys cd <> [] /\ entries_wf cd /\ entries_wf dd.

(** [t] is the first timestamp of [tss], in the order of [tss], that is at
    or after [w]. *)
Definition first_at_or_after (tss : list Z) (w t : Z) : Prop :=
  exists pre post,
    tss = pre ++ t :: post /\ (w <= t)%Z /\
    forall x, In x pre -> (x < w)%Z.

(** All the timestamps of a session, and how many of them lie beyond a
    watermark. *)
Definition all_timestamps (s : session) : list Z :=
  flat_map snd (streams s).

Definition ahead (s : session) (w : Z) : nat :=
  List.length (filter (fun t => (w <? t)%Z) (all_timestamps s)).

(** A directory entry: a name without a slash. *)
Fixpoint no_slash (s : string) : bool :=
  match s with
  | EmptyString => true
  | String c s' => negb (Ascii.eqb c "/") && no_slash s'
  end.

(** The part of a name before its first dot; the whole name when it has
    no dot. *)
Fixpoint before_dot (s : string) : string :=
  match s with
  | EmptyString => EmptyString
  | String c s' => if Ascii.eqb c "." then EmptyString
                   else String c (before_dot s')
  end.

(** [str(n)] for a natural number: its decimal digits, without leading
    zeros. *)
Definition decimal (n : nat) : string :=
  DecimalString.NilEmpty.string_of_uint (Nat.to_uint n).

(** A device has a calibration file: the scan of its [calib] directories
    finds at least one file. *)
Definition calibrated (os_listdir : string -> option (list string))
  (dev : string) : bool :=
  match device_files os_listdir PATH "calib" dev with
  | Ok (_ :: _) => true
  | _ => false
  end.

(** Two devices, of which A has an empty [calib] directory. *)
Definition uncalibrated : string -> option (list string) :=
  tree [("/tmp/testing", ["A"; "B"]);
        ("/tmp/testing/A", ["s"]);
        ("/tmp/testing/B", ["s"]);
        ("/tmp/testing/A/s/color", ["100.bin"]);
        ("/tmp/testing/A/s/depth", ["105.bin"]);
        ("/tmp/testing/A/s/calib", []);
        ("/tmp/testing/B/s/color", ["150.bin"]);
        ("/tmp/testing/B/s/depth", ["155.bin"]);
        ("/tmp/testing/B/s/calib", ["calib.json"])].

(** An entry pairs the calibration file at position [i] of [calibs] with
    a file of the list at position [j] of [cols]. *)
Definition drawn_from (cols : list (list string)) (calibs : list string)
  (j i : nat) (entry : list string) : Prop :=
  exists col c f,
    nth_error cols j = Some col /\ In f col /\
    nth_error calibs i = Some c /\ entry = [c; f].

(** Every entry the dictionary [d] holds for the device at position [i]
    of [devs] is drawn from the list at position [off + i]. *)
Definition positioned (devs calibs : list string) (cols : list (list string))
  (off : nat) (d : ts_dict) : Prop :=
  forall i dev D t entry,
    nth_error devs i = Some dev ->
    dict_get String.eqb dev d = Some D ->
    dict_get Z.eqb t D = Some entry ->
    drawn_from cols calibs (off + i) i entry.

(** [f] is the last file of [files] with timestamp [t]. *)
Definition last_with_timestamp (files : list string) (t : Z) (f : string)
  : Prop :=
  exists pre post,
    files = pre ++ f :: post /\ timestamp_of f = Ok t /\
    forall g, In g post -> timestamp_of g <> Ok t.

(** One device with two sessions whose files have the same names. *)
Definition repeated_names : string -> option (list string) :=
  tree [("/tmp/testing", ["A"]);
        ("/tmp/testing/A", ["s1"; "s2"]);
        ("/tmp/testing/A/s1/color", ["100.bin"]);
        ("/tmp/testing/A/s1/depth", ["100.bin"]);
        ("/tmp/testing/A/s1/calib", ["calib.json"]);
        ("/tmp/testing/A/s2/color", ["100.bin"]);
        ("/tmp/testing/A/s2/depth", ["100.bin"]);
        ("/tmp/testing/A/s2/calib", ["calib.json"])].

(** ** The capture loop of [realsense/net_viewer.py] *)

(** One call of [rsw.step]: frames of [n] devices, or an exception. *)
Inductive capture : Type :=
| Frames (n : nat)
| Fails.

(** What the script does that can be observed: a line on the standard
    output, or a call of [rsw.stop]. *)
Inductive event : Type :=
| Print (line : string)
| Stop.

(** Lines 30-40 over the outcomes of the successive calls of [rsw.step],
    [rs_fps] being an integer: [None] while the loop is still running when
    the outcomes are used up, otherwise the events so far and whether an
    exception left the loop. *)
Fixpoint viewer_loop (rs_fps : Z) (steps : list capture) (c : Z)
  (tr : list event) : option (list event * bool) :=
  match steps with
  | [] => None
  | Fails :: _ => Some (tr, true)
  | Frames n :: steps' =>
      if negb (0 <? n)%nat then
        viewer_loop rs_fps steps' c (tr ++ [Print "Empty..."])
      else
        let tr := tr ++ [Print "Running..."] in
        let c := (c + 1)%Z in
        if (c >? rs_fps * 10)%Z then Some (tr, false)
        else viewer_loop rs_fps steps' c tr
  end.

(** How the script ends: it runs to its last line, or an exception is
    left uncaught. *)
Inductive ending : Type :=
| Completed
| Uncaught.

(** Lines 28-49.  [stop_returns k] tells whether call number [k] of
    [rsw.stop] returns or raises.  The bare [except] runs for whatever
    left the loop and calls [rsw.stop]; the [finally] block calls it in
    every case, also when the handler raised; line 49 is reached only
    when no exception is in flight after the [finally] block. *)
Definition viewer (rs_fps : Z) (steps : list capture)
  (stop_returns : nat -> bool) : option (list event * ending) :=
  match viewer_loop rs_fps steps 0 [Print "Starting frame capture loop..."] with
  | None => None
  | Some (tr, false) =>
      if stop_returns 0%nat then
        Some (tr ++ [Stop; Print "Finished"], Completed)
      else Some (tr ++ [Stop], Uncaught)
  | Some (tr, true) =>
      let tr := tr ++ [Print "Stopping RealSense devices..."; Stop; Stop] in
      if (stop_returns 0%nat && stop_returns 1%nat)%bool then
        Some (tr ++ [Print "Finished"], Completed)
      else Some (tr, Uncaught)
  end.

(** Counting: the captures with frames, the calls that do not raise, the
    lines [Running...] and the calls of [rsw.stop]. *)
Definition has_frames (s : capture) : bool :=
  match s with
  | Frames (S _) => true
  | _ => false
  end.

Definition succeeds (s : capture) : bool :=
  match s with
  | Frames _ => true
  | Fails => false
  end.

Definition captures (steps : list capture) : nat :=
  List.length (filter has_frames steps).

Definition is_running (e : event) : bool :=
  match e with
  | Print line => String.eqb line "Running..."
  | Stop => false
  end.

Definition is_stop (e : event) : bool :=
  match e with
  | Stop => true
  | Print _ => false
  end.

Definition running (tr : list event) : nat :=
  List.length (filter is_running tr).

Definition stops (tr : list event) : nat :=
  List.length (filter is_stop tr).

(** One device whose file names are in ascending order as strings and not
    as numbers: colour 1, 30, 4 and depth 2, 30, 4. *)
Definition out_of_order : string -> option (list string) :=
  tree [("/tmp/testing", ["A"]);
        ("/tmp/testing/A", ["s"]);
        ("/tmp/testing/A/s/color", ["1.bin"; "30.bin"; "4.bin"]);
        ("/tmp/testing/A/s/depth", ["2.bin"; "30.bin"; "4.bin"]);
        ("/tmp/testing/A/s/calib", ["calib.json"])].


(** One device with two sessions whose files have the same names, and a
    third colour file: three colour files and two depth files. *)
Definition repeated_uneven : string -> option (list string) :=
  tree [("/tmp/testing", ["A"]);
        ("/tmp/testing/A", ["s1"; "s2"]);
        ("/tmp/testing/A/s1/color", ["100.bin"]);
        ("/tmp/testing/A/s1/depth", ["100.bin"]);
        ("/tmp/testing/A/s1/calib", ["calib.json"]);
        ("/tmp/testing/A/s2/color", ["100.bin"; "200.bin"]);
        ("/tmp/testing/A/s2/depth", ["100.bin"]);
        ("/tmp/testing/A/s2/calib", ["calib.json"])].

(** * Properties *)

(** ** The error monad *)

Lemma bind_Ok_inv {A B : Type} (m : result A) (k : A -> result B) (b : B) :
  bind m k = Ok b -> exists a, m = Ok a /\ k a = Ok b.
Proof.
  destruct m as [a | e]; simpl; intros H; [eauto | discriminate].
Qed.

Ltac inv_bind H :=
  let a := fresh "a" in
  let Ha := fresh "Hm" in
  apply bind_Ok_inv in H; destruct H as (a & Ha & H).

Lemma mapM_length {A B : Type} (f : A -> result B) (l : list A) (r : list B) :
  mapM f l = Ok r -> List.length r = List.length l.
Proof.
  revert r; induction l as [| x l IH]; simpl; intros r H.
  - injection H as <-. reflexivity.
  - inv_bind H. inv_bind H. injection H as <-. simpl. f_equal. eauto.
Qed.

Lemma mapM_nth {A B : Type} (f : A -> result B) (l : list A) (r : list B)
  (i : nat) (x : A) :
  mapM f l = Ok r -> nth_error l i = Some x ->
  exists y, nth_error r i = Some y /\ f x = Ok y.
Proof.
  revert r i; induction l as [| a l IH]; simpl; intros r i H Hi.
  - destruct i; discriminate.
  - inv_bind H. inv_bind H. injection H as <-.
    destruct i as [| i]; simpl in *.
    + injection Hi as ->. eauto.
    + eauto.
Qed.

(** ** [max] *)

Lemma fold_max_ge_init (l : list Z) (x : Z) : (x <= fold_left Z.max l x)%Z.
Proof.
  revert x; induction l as [| y l IH]; simpl; intros x; [lia |].
  specialize (IH (Z.max x y)). lia.
Qed.

Lemma fold_max_upper (l : list Z) (x t : Z) :
  In t l -> (t <= fold_left Z.max l x)%Z.
Proof.
  revert x; induction l as [| y l IH]; simpl; intros x [].
  - subst y. pose proof (fold_max_ge_init l (Z.max x t)). lia.
  - auto.
Qed.

Lemma fold_max_attained (l : list Z) (x : Z) :
  fold_left Z.max l x = x \/ In (fold_left Z.max l x) l.
Proof.
  revert x; induction l as [| y l IH]; simpl; intros x; [now left |].
  destruct (IH (Z.max x y)) as [E | I]; [| now right; right].
  rewrite E. destruct (Z.max_spec x y) as [[_ ->] | [_ ->]]; auto.
Qed.

Lemma py_max_spec (l : list Z) (m : Z) :
  py_max l = Ok m -> In m l /\ forall t, In t l -> (t <= m)%Z.
Proof.
  destruct l as [| x l]; simpl; [discriminate |].
  intros H; injection H as <-. split.
  - destruct (fold_max_attained l x) as [-> | I]; auto.
  - intros t [<- | I]; [apply fold_max_ge_init | now apply fold_max_upper].
Qed.

(** ** The scan of one stream *)

Lemma ascending_Sorted (tss : list Z) :
  ascending tss = true -> StronglySorted Z.le tss.
Proof.
  intros H. apply Sorted_StronglySorted; [exact Z.le_trans |].
  induction tss as [| x [| y tss] IH]; auto.
  simpl in H. apply andb_prop in H as [Hxy Hr].
  constructor; [auto | constructor; lia].
Qed.

Lemma find_first_at_or_after (tss : list Z) (w : Z) (k i : nat) (t : Z) :
  find (fun x => (w <=? snd x)%Z) (enumerate_from k tss) = Some (i, t) ->
  In t tss /\ (w <= t)%Z /\
  (StronglySorted Z.le tss ->
   forall t', In t' tss -> (w <= t')%Z -> (t <= t')%Z).
Proof.
  revert k; induction tss as [| x tss IH]; simpl; intros k H; [discriminate |].
  destruct (Z.leb_spec w x) as [Hle | Hlt].
  - injection H as _ <-. repeat split; auto.
    intros Hs t' [<- | Hin] _; [lia |].
    inversion Hs as [| ? ? _ Hall]; subst.
    rewrite Forall_forall in Hall. auto.
  - destruct (IH _ H) as (Hin & Hw & Hmin). repeat split; auto.
    intros Hs t' [<- | Hin'] Hw'; [lia |].
    inversion Hs; subst. auto.
Qed.

Lemma scan_least (tss : list Z) (w : Z) (i : nat) (t : Z) :
  ascending tss = true -> scan tss 0 w = Ok (i, t) ->
  least_at_or_after tss w t.
Proof.
  unfold scan, py_next, enumerate; simpl. intros Hs H.
  destruct (find _ _) as [[i' t'] |] eqn:E; [| discriminate].
  injection H as -> ->.
  destruct (find_first_at_or_after _ _ _ _ _ E) as (Hin & Hw & Hmin).
  repeat split; auto. apply Hmin. now apply ascending_Sorted.
Qed.

(** ** [select], device by device *)

Lemma select_fold (s : session) (w : Z) (l : list (nat * string))
  (cs ds : list Z) :
  foldM (fun '(tmp_color_ts_list, tmp_depth_ts_list) '(idx, dev) =>
           color_tss <- dict_lookup String.eqb dev (dev_color_ts s) ;;
           c <- py_index (counter_color s) idx ;;
           '(ts_idx, ts) <- scan color_tss c w ;;
           let tmp_color_ts_list := tmp_color_ts_list ++ [ts] in
           depth_tss <- dict_lookup String.eqb dev (dev_depth_ts s) ;;
           c <- py_index (counter_depth s) idx ;;
           '(ts_idx, ts) <- scan depth_tss c w ;;
           let tmp_depth_ts_list := tmp_depth_ts_list ++ [ts] in
           Ok (tmp_color_ts_list, tmp_depth_ts_list)) l (cs, ds)
  = (ps <- mapM (pick s w) l ;; Ok (cs ++ map fst ps, ds ++ map snd ps)).
Proof.
  revert cs ds; induction l as [| [idx dev] l IH]; intros cs ds; simpl.
  - now rewrite !app_nil_r.
  - destruct (dict_lookup String.eqb dev (dev_color_ts s)); simpl; auto.
    destruct (py_index (counter_color s) idx); simpl; auto.
    destruct (scan a a0 w) as [[i t] |]; simpl; auto.
    destruct (dict_lookup String.eqb dev (dev_depth_ts s)); simpl; auto.
    destruct (py_index (counter_depth s) idx); simpl; auto.
    destruct (scan a1 a2 w) as [[i' t'] |]; simpl; auto.
    rewrite IH. destruct (mapM (pick s w) l); simpl; auto.
    now rewrite <- !app_assoc.
Qed.

Lemma select_picks (s : session) (w : Z) :
  select s w =
  (ps <- mapM (pick s w) (enumerate (dev_list s)) ;;
   Ok (map fst ps, map snd ps)).
Proof. unfold select. now rewrite select_fold. Qed.

Lemma enumerate_from_nth {A : Type} (l : list A) (k i : nat) (x : A) :
  nth_error l i = Some x -> nth_error (enumerate_from k l) i = Some (k + i, x)%nat.
Proof.
  revert k i; induction l as [| a l IH]; intros k [| i] H; simpl in *;
    try discriminate.
  - injection H as ->. now rewrite Nat.add_0_r.
  - rewrite (IH (S k) i H). f_equal. f_equal. lia.
Qed.

Lemma align_inv (s : session) (w : Z) (b : bundle) :
  align s w = Ok b ->
  exists ps,
    mapM (pick s w) (enumerate (dev_list s)) = Ok ps /\
    used_watermark b = w /\
    chosen_color b = map fst ps /\
    chosen_depth b = map snd ps /\
    py_max (map fst ps ++ map snd ps) = Ok (new_watermark b).
Proof.
  unfold align. rewrite select_picks. intros H.
  inv_bind H. inv_bind Hm. injection Hm as <-. simpl in H.
  inv_bind H. injection H as <-. simpl. eauto 10.
Qed.

Lemma loop_bundle_inv (display : nat -> list (string * string * string) -> result unit)
  (s : session) (fuel n : nat) (w : Z) (b : bundle) :
  In b (fst (loop display s fuel n w)) ->
  exists w', align s w' = Ok b.
Proof.
  revert n w; induction fuel as [| fuel IH]; simpl; intros n w H; [easy |].
  destruct (iteration display s n w) as [b0 | e] eqn:E; [| easy].
  destruct (loop display s fuel (S n) (new_watermark b0)) as [bs r] eqn:L.
  simpl in H. destruct H as [<- | H].
  - unfold iteration in E. inv_bind E. inv_bind E. inv_bind E.
    injection E as <-. eauto.
  - apply (IH (S n) (new_watermark b0)). now rewrite L.
Qed.

(** ** Sessions opened by the script *)

Section DictFacts.
Context {K V : Type} (eqb : K -> K -> bool).
Hypothesis eqb_spec : forall x y, reflect (x = y) (eqb x y).

Lemma dict_get_In (k : K) (d : dict K V) (v : V) :
  dict_get eqb k d = Some v -> In (k, v) d.
Proof.
  induction d as [| [k' v'] d IH]; simpl; [discriminate |].
  destruct (eqb_spec k k') as [-> | _]; intros H.
  - injection H as ->. now left.
  - right. auto.
Qed.

Lemma dict_lookup_get (k : K) (d : dict K V) (v : V) :
  dict_lookup eqb k d = Ok v -> dict_get eqb k d = Some v.
Proof.
  unfold dict_lookup. destruct (dict_get eqb k d); intros H;
    [now injection H as -> | discriminate].
Qed.
End DictFacts.

Lemma py_index_repeat {A : Type} (x y : A) (n i : nat) :
  py_index (repeat x n) i = Ok y -> y = x.
Proof.
  unfold py_index. destruct (nth_error (repeat x n) i) eqn:E; [| discriminate].
  intros H; injection H as <-. apply nth_error_In in E.
  now apply repeat_spec in E.
Qed.

Lemma start_counters (idx : ts_dict * ts_dict * nat * nat) (s : session)
  (w0 : Z) :
  start idx = Ok (s, w0) ->
  counter_color s = repeat 0%nat (snd idx) /\
  counter_depth s = repeat 0%nat (snd idx).
Proof.
  destruct idx as [[[cd dd] nd] nv]. unfold start. intros H.
  do 5 inv_bind H. injection H as <- _. simpl. auto.
Qed.

Lemma opened_counters (os_listdir : string -> option (list string))
  (s : session) (w0 : Z) :
  opened os_listdir = Ok (s, w0) ->
  exists n, counter_color s = repeat 0%nat n /\
            counter_depth s = repeat 0%nat n.
Proof.
  unfold opened. intros H. inv_bind H.
  apply start_counters in H. eauto.
Qed.

(** The scan stops at the first timestamp, in the order of the sequence,
    that is at or after the watermark. *)
Lemma find_first_in_order (tss : list Z) (w : Z) (k i : nat) (t : Z) :
  find (fun x => (w <=? snd x)%Z) (enumerate_from k tss) = Some (i, t) ->
  first_at_or_after tss w t.
Proof.
  revert k; induction tss as [| x tss IH]; simpl; intros k H; [discriminate |].
  destruct (Z.leb_spec w x) as [Hle | Hlt].
  - injection H as _ <-. exists [], tss. repeat split; auto. intros ? [].
  - destruct (IH _ H) as (pre & post & -> & Hw & Hpre).
    exists (x :: pre), post. repeat split; auto.
    intros y [<- | Hy]; auto.
Qed.

Lemma scan_in_order (tss : list Z) (w : Z) (i : nat) (t : Z) :
  scan tss 0 w = Ok (i, t) -> first_at_or_after tss w t.
Proof.
  unfold scan, py_next, enumerate; simpl. intros H.
  destruct (find _ _) as [[i' t'] |] eqn:E; [| discriminate].
  injection H as -> ->. exact (find_first_in_order _ _ _ _ _ E).
Qed.

(** C1, as amended.  In every bundle emitted by the loop of a session the
    script opened, the timestamp chosen for a device's colour stream (and
    for its depth stream) is the first timestamp, in the order of that
    stream's sequence, that is at or after the watermark the step ran
    with: every timestamp before it in the sequence is below the
    watermark.  It is the least timestamp of the sequence at or after the
    watermark when the sequence is in ascending order, which the index
    does not see to. *)
Theorem selection_follows_sequence_order
  (os_listdir : string -> option (list string))
  (display : nat -> list (string * string * string) -> result unit)
  (s : session) (w0 : Z) (fuel : nat) (b : bundle) (i : nat) (dev : string) :
  opened os_listdir = Ok (s, w0) ->
  In b (fst (loop display s fuel 0 w0)) ->
  nth_error (dev_list s) i = Some dev ->
  exists ctss dtss ct dt,
    dict_get String.eqb dev (dev_color_ts s) = Some ctss /\
    dict_get String.eqb dev (dev_depth_ts s) = Some dtss /\
    nth_error (chosen_color b) i = Some ct /\
    nth_error (chosen_depth b) i = Some dt /\
    first_at_or_after ctss (used_watermark b) ct /\
    first_at_or_after dtss (used_watermark b) dt /\
    (ascending ctss = true -> least_at_or_after ctss (used_watermark b) ct) /\
    (ascending dtss = true -> least_at_or_after dtss (used_watermark b) dt).
Proof.
  intros Hopen Hb Hdev.
  destruct (opened_counters _ _ _ Hopen) as (n & Hcc & Hcd).
  destruct (loop_bundle_inv _ _ _ _ _ _ Hb) as (w & Hal).
  destruct (align_inv _ _ _ Hal) as (ps & Hps & Hw & Hcol & Hdep & _).
  pose proof (enumerate_from_nth _ 0 _ _ Hdev) as Hen. simpl in Hen.
  destruct (mapM_nth _ _ _ _ _ Hps Hen) as ([ct dt] & Hnth & Hpick).
  unfold pick in Hpick.
  inv_bind Hpick. rename a into ctss, Hm into Hct.
  inv_bind Hpick. rename a into c, Hm into Hci.
  inv_bind Hpick. rename a into p, Hm into Hcs.
  inv_bind Hpick. rename a into dtss, Hm into Hdt.
  inv_bind Hpick. rename a into c', Hm into Hdi.
  inv_bind Hpick. rename a into q, Hm into Hds.
  injection Hpick as <- <-.
  rewrite Hcc in Hci. apply py_index_repeat in Hci. subst c.
  rewrite Hcd in Hdi. apply py_index_repeat in Hdi. subst c'.
  apply (dict_lookup_get _) in Hct. apply (dict_lookup_get _) in Hdt.
  exists ctss, dtss, (snd p), (snd q). rewrite Hw, Hcol, Hdep.
  destruct p as [pi pt], q as [qi qt]. simpl.
  split; [assumption |]. split; [assumption |].
  split; [now rewrite (map_nth_error fst _ _ Hnth) |].
  split; [now rewrite (map_nth_error snd _ _ Hnth) |].
  split; [exact (scan_in_order _ _ _ _ Hcs) |].
  split; [exact (scan_in_order _ _ _ _ Hds) |].
  split; intros Hasc.
  - exact (scan_least _ _ _ _ Hasc Hcs).
  - exact (scan_least _ _ _ _ Hasc Hds).
Qed.

Lemma two_devices_opened :
  opened two_devices = Ok (two_devices_session, 155%Z).
Proof. vm_compute. reflexivity. Qed.

Lemma selection_follows_sequence_order_witness :
  exists b,
    In b (fst (loop quiet two_devices_session 2 0 155)) /\
    used_watermark b = 250%Z /\
    exists ctss dtss ct dt,
      dict_get String.eqb "B" (dev_color_ts two_devices_session) = Some ctss /\
      dict_get String.eqb "B" (dev_depth_ts two_devices_session) = Some dtss /\
      nth_error (chosen_color b) 1 = Some ct /\
      nth_error (chosen_depth b) 1 = Some dt /\
      first_at_or_after ctss (used_watermark b) ct /\
      first_at_or_after dtss (used_watermark b) dt /\
      (ascending ctss = true -> least_at_or_after ctss (used_watermark b) ct) /\
      (ascending dtss = true -> least_at_or_after dtss (used_watermark b) dt).
Proof.
  eexists.
  split; [vm_compute; right; left; reflexivity |].
  split; [reflexivity |].
  apply (selection_follows_sequence_order two_devices quiet
           two_devices_session 155%Z 2 _ 1 "B");
    [vm_compute; reflexivity
    | vm_compute; right; left; reflexivity | reflexivity].
Defined.

(** C1, as stated, fails: the colour sequence of [out_of_order] is 1, 30,
    4, the first step runs with watermark 2 and chooses 30, although 4 is
    in the sequence, at or after the watermark and below 30. *)
Lemma selection_is_not_least :
  exists s b,
    opened out_of_order = Ok (s, 2%Z) /\
    fst (loop quiet s 1 0 2) = [b] /\
    used_watermark b = 2%Z /\
    dict_get String.eqb "A" (dev_color_ts s) = Some [1; 30; 4]%Z /\
    nth_error (chosen_color b) 0 = Some 30%Z /\
    ~ least_at_or_after [1; 30; 4]%Z (used_watermark b) 30.
Proof.
  eexists. eexists.
  split; [vm_compute; reflexivity |].
  split; [vm_compute; reflexivity |].
  split; [reflexivity |].
  split; [reflexivity |].
  split; [reflexivity |].
  intros (_ & _ & Hmin).
  specialize (Hmin 4%Z). simpl in Hmin.
  assert (30 <= 4)%Z by (apply Hmin; [tauto | lia]). lia.
Qed.


(** C6.  The watermark an alignment step leaves behind is the maximum of
    the timestamps the step chose, one per device and stream kind: it is
    one of them and none of them exceeds it. *)
Theorem new_watermark_is_maximum (s : session) (w : Z) (b : bundle) :
  align s w = Ok b ->
  List.length (chosen_color b) = List.length (dev_list s) /\
  List.length (chosen_depth b) = List.length (dev_list s) /\
  In (new_watermark b) (chosen_color b ++ chosen_depth b) /\
  forall t, In t (chosen_color b ++ chosen_depth b) ->
            (t <= new_watermark b)%Z.
Proof.
  intros H. destruct (align_inv _ _ _ H) as (ps & Hps & _ & -> & -> & Hmax).
  apply mapM_length in Hps. apply py_max_spec in Hmax.
  rewrite !length_map, Hps. unfold enumerate.
  assert (L : forall (l : list string) k,
             List.length (enumerate_from k l) = List.length l).
  { induction l; simpl; auto. }
  rewrite L. tauto.
Qed.

Lemma new_watermark_is_maximum_witness :
  exists b,
    align two_devices_session 155 = Ok b /\
    new_watermark b = 250%Z /\
    List.length (chosen_color b) = List.length (dev_list two_devices_session) /\
    List.length (chosen_depth b) = List.length (dev_list two_devices_session) /\
    In (new_watermark b) (chosen_color b ++ chosen_depth b) /\
    forall t, In t (chosen_color b ++ chosen_depth b) ->
              (t <= new_watermark b)%Z.
Proof.
  eexists.
  split; [vm_compute; reflexivity |].
  split; [reflexivity |].
  apply (new_watermark_is_maximum two_devices_session 155%Z).
  vm_compute. reflexivity.
Defined.

(** ** The watermark along a run *)



Lemma mapM_Forall {A B : Type} (f : A -> result B) (l : list A) (r : list B) :
  mapM f l = Ok r -> Forall (fun y => exists x, f x = Ok y) r.
Proof.
  revert r; induction l as [| a l IH]; simpl; intros r H.
  - injection H as <-. constructor.
  - inv_bind H. inv_bind H. injection H as <-. constructor; eauto.
Qed.

Lemma scan_at_or_after (tss : list Z) (c : nat) (w : Z) (p : nat * Z) :
  scan tss c w = Ok p -> (w <= snd p)%Z.
Proof.
  unfold scan, py_next, enumerate. destruct p as [i t].
  destruct (find _ _) as [[i' t'] |] eqn:E; [| discriminate].
  intros H; injection H as -> ->.
  now destruct (find_first_at_or_after _ _ _ _ _ E) as (_ & Hw & _).
Qed.

Lemma pick_at_or_after (s : session) (w : Z) (x : nat * string) (y : Z * Z) :
  pick s w x = Ok y -> (w <= fst y)%Z /\ (w <= snd y)%Z.
Proof.
  destruct x as [idx dev]. unfold pick. intros H.
  inv_bind H. inv_bind H. inv_bind H. rename Hm1 into Hp.
  inv_bind H. inv_bind H. inv_bind H. rename Hm3 into Hq.
  injection H as <-. simpl.
  apply scan_at_or_after in Hp, Hq. auto.
Qed.

(** Every timestamp of a bundle is at or after the watermark it was
    produced with, and so is the watermark the step leaves behind. *)
Lemma align_at_or_after (s : session) (w : Z) (b : bundle) :
  align s w = Ok b ->
  used_watermark b = w /\
  (forall t, In t (chosen b) -> (w <= t)%Z) /\
  (w <= new_watermark b)%Z.
Proof.
  intros H. destruct (align_inv _ _ _ H) as (ps & Hps & Hw & Hc & Hd & Hmax).
  assert (Hall : forall t, In t (chosen b) -> (w <= t)%Z).
  { unfold chosen. rewrite Hc, Hd. intros t Ht.
    apply mapM_Forall in Hps. rewrite Forall_forall in Hps.
    apply in_app_or in Ht as [Ht | Ht]; apply in_map_iff in Ht;
      destruct Ht as (y & <- & Hy); destruct (Hps _ Hy) as (x & Hx);
      apply pick_at_or_after in Hx; tauto. }
  repeat split; auto.
  apply py_max_spec in Hmax as [Hin _].
  apply Hall. unfold chosen. now rewrite Hc, Hd.
Qed.




(** ** The cursors *)

Lemma single_pair_opened :
  opened single_pair = Ok (single_pair_session, 100%Z).
Proof. vm_compute. reflexivity. Qed.

(** C2.  On one device with a single colour frame and a single depth frame
    at timestamp 100, the first two steps both choose the frame at 100 for
    either stream: the counters are still 0 when the second step scans. *)
Theorem single_pair_chosen_twice :
  exists b,
    opened single_pair = Ok (single_pair_session, 100%Z) /\
    counter_color single_pair_session = [0%nat] /\
    counter_depth single_pair_session = [0%nat] /\
    fst (loop quiet single_pair_session 2 0 100) = [b; b] /\
    chosen_color b = [100%Z] /\ chosen_depth b = [100%Z].
Proof.
  eexists. split; [exact single_pair_opened |].
  vm_compute. repeat split; reflexivity.
Qed.

Lemma single_pair_stalls (fuel n : nat) :
  snd (loop quiet single_pair_session fuel n 100) = None.
Proof.
  revert n; induction fuel as [| fuel IH]; intros n; [reflexivity |].
  specialize (IH (S n)). cbn [loop].
  change (iteration quiet single_pair_session n 100)
    with (Ok {| used_watermark := 100; chosen_color := [100%Z];
                chosen_depth := [100%Z]; new_watermark := 100 |}).
  cbn [new_watermark].
  destruct (loop quiet single_pair_session fuel (S n) 100). exact IH.
Qed.

(** C3.  On that tree the loop never ends: however many iterations are
    observed, no exception has left it and the script is still running;
    one stream sequence of length 1 per stream kind gives a bound of 2. *)
Theorem single_pair_never_ends (str : exn -> string) (fuel : nat) :
  main single_pair quiet str fuel = None.
Proof.
  unfold main. fold (opened single_pair). rewrite single_pair_opened.
  now rewrite single_pair_stalls.
Qed.

(** ** How the script ends *)

Lemma guarded_exits_zero (str : exn -> string) (e : exn) (out : list string) :
  guarded str e out = (out ++ [str e], Some (SystemExit 0)).
Proof. reflexivity. Qed.

(** C10.  If an exception leaves the loop, whichever it is, the script
    prints it and ends with exit status 0: the [exit(0)] of the [finally]
    block replaces the [exit(1)] of the handler. *)
Theorem exception_in_loop_exits_zero
  (os_listdir : string -> option (list string))
  (display : nat -> list (string * string * string) -> result unit)
  (str : exn -> string) (fuel : nat) (s : session) (w0 : Z) (e : exn) :
  opened os_listdir = Ok (s, w0) ->
  snd (loop display s fuel 0 w0) = Some e ->
  main os_listdir display str fuel = Some ([str e], 0%Z) /\
  try_except_finally (raise e)
    (fun e => then_ (print (str e)) (exit 1)) (exit 0) []
  = ([str e], Some (SystemExit 0)).
Proof.
  intros Hopen Hloop. split; [| reflexivity].
  unfold main. fold (opened os_listdir). rewrite Hopen, Hloop. reflexivity.
Qed.

Lemma exception_in_loop_exits_zero_witness :
  snd (loop quiet two_devices_session 3 0 155) = Some StopIteration /\
  main two_devices quiet (fun _ => "") 3 = Some ([""], 0%Z) /\
  try_except_finally (raise StopIteration)
    (fun e => then_ (print ((fun _ => "") e)) (exit 1)) (exit 0) []
  = ([""], Some (SystemExit 0)).
Proof.
  split; [vm_compute; reflexivity |].
  apply (exception_in_loop_exits_zero two_devices quiet (fun _ => "") 3
           two_devices_session 155%Z StopIteration).
  - vm_compute. reflexivity.
  - vm_compute. reflexivity.
Defined.

(** ** [sorted] *)

Lemma str_le_iff (a b : string) :
  str_le a b <-> a = b \/ String_as_OT.lt a b.
Proof.
  unfold str_le, String.leb.
  destruct (String.compare a b) eqn:E.
  - apply String_as_OT.cmp_eq in E. tauto.
  - apply String_as_OT.cmp_lt in E. tauto.
  - split; [discriminate |]. intros [-> | L].
    + assert (String.compare b b = Eq) by now apply String_as_OT.cmp_eq.
      congruence.
    + apply String_as_OT.cmp_lt in L. unfold String_as_OT.cmp in L.
      congruence.
Qed.

Lemma str_le_refl (a : string) : str_le a a.
Proof. apply str_le_iff. now left. Qed.

Lemma str_le_trans (a b c : string) : str_le a b -> str_le b c -> str_le a c.
Proof.
  rewrite !str_le_iff. intros [-> | L1] [-> | L2]; auto.
  right. eapply String_as_OT.lt_trans; eauto.
Qed.

Lemma str_le_antisym (a b : string) : str_le a b -> str_le b a -> a = b.
Proof. apply String.leb_antisym. Qed.

Lemma insert_sorted_perm (x : string) (l : list string) :
  Permutation (insert_sorted x l) (x :: l).
Proof.
  induction l as [| y l IH]; simpl; [reflexivity |].
  destruct (String.leb x y); [reflexivity |].
  now rewrite IH, perm_swap.
Qed.

Lemma sorted_perm (l : list string) : Permutation (sorted l) l.
Proof.
  induction l as [| x l IH]; simpl; [reflexivity |].
  now rewrite insert_sorted_perm, IH.
Qed.

Lemma insert_sorted_ordered (x : string) (l : list string) :
  StronglySorted str_le l -> StronglySorted str_le (insert_sorted x l).
Proof.
  induction l as [| y l IH]; simpl; intros Hs.
  - repeat constructor.
  - inversion Hs as [| ? ? Hl Hy]; subst.
    destruct (String.leb x y) eqn:E.
    + constructor; [assumption |]. constructor; [exact E |].
      eapply Forall_impl; [| exact Hy]. intros z Hz.
      eapply str_le_trans; eauto.
    + constructor; [auto |].
      assert (Hyx : str_le y x).
      { destruct (String.leb_total x y) as [H | H]; [congruence | exact H]. }
      rewrite Forall_forall in *. intros z Hz.
      apply (Permutation_in _ (insert_sorted_perm x l)) in Hz.
      destruct Hz as [<- | Hz]; auto.
Qed.

Lemma sorted_ordered (l : list string) : StronglySorted str_le (sorted l).
Proof.
  induction l as [| x l IH]; simpl; [constructor |].
  now apply insert_sorted_ordered.
Qed.

Lemma ordered_unique (l1 l2 : list string) :
  Permutation l1 l2 ->
  StronglySorted str_le l1 -> StronglySorted str_le l2 -> l1 = l2.
Proof.
  revert l2; induction l1 as [| a l1 IH]; intros l2 Hp H1 H2.
  - now apply Permutation_nil in Hp.
  - destruct l2 as [| b l2].
    { apply Permutation_sym, Permutation_nil in Hp. discriminate. }
    inversion H1 as [| ? ? H1' Ha]; inversion H2 as [| ? ? H2' Hb]; subst.
    rewrite Forall_forall in Ha, Hb.
    assert (a = b) as ->.
    { assert (Hb1 : In b (a :: l1))
        by (apply (Permutation_in _ (Permutation_sym Hp)); now left).
      assert (Ha2 : In a (b :: l2))
        by (apply (Permutation_in _ Hp); now left).
      destruct Hb1 as [-> | Hb1]; [reflexivity |].
      destruct Ha2 as [-> | Ha2]; [reflexivity |].
      apply str_le_antisym; auto. }
    f_equal. apply IH; auto. eapply Permutation_cons_inv; eauto.
Qed.

(** The result of [sorted] does not depend on the order of its input. *)
Lemma sorted_permutation (l1 l2 : list string) :
  Permutation l1 l2 -> sorted l1 = sorted l2.
Proof.
  intros Hp. apply ordered_unique; try apply sorted_ordered.
  now rewrite !sorted_perm.
Qed.

(** ** Dictionaries *)

Section DictUpdates.
Context {K V : Type} (eqb : K -> K -> bool).
Hypothesis eqb_spec : forall x y, reflect (x = y) (eqb x y).

Lemma dict_get_set_eq (k : K) (v : V) (d : dict K V) :
  dict_get eqb k (dict_set eqb k v d) = Some v.
Proof.
  induction d as [| [k' v'] d IH]; simpl.
  - now destruct (eqb_spec k k).
  - destruct (eqb_spec k k') as [E | N]; simpl.
    + now destruct (eqb_spec k k').
    + now destruct (eqb_spec k k').
Qed.

Lemma dict_get_set_neq (k k' : K) (v : V) (d : dict K V) :
  k' <> k -> dict_get eqb k' (dict_set eqb k v d) = dict_get eqb k' d.
Proof.
  intros N. induction d as [| [k0 v0] d IH]; simpl.
  - now destruct (eqb_spec k' k).
  - destruct (eqb_spec k k0) as [E | N0]; simpl.
    + subst k0. now destruct (eqb_spec k' k).
    + now destruct (eqb_spec k' k0).
Qed.

Lemma dict_set_set (k : K) (v1 v2 : V) (d : dict K V) :
  dict_set eqb k v2 (dict_set eqb k v1 d) = dict_set eqb k v2 d.
Proof.
  induction d as [| [k0 v0] d IH]; simpl.
  - now destruct (eqb_spec k k).
  - destruct (eqb_spec k k0) as [E | N]; simpl.
    + now destruct (eqb_spec k k0).
    + destruct (eqb_spec k k0); [contradiction |]. now rewrite IH.
Qed.

Lemma dict_set_same (k : K) (v : V) (d : dict K V) :
  dict_get eqb k d = Some v -> dict_set eqb k v d = d.
Proof.
  induction d as [| [k0 v0] d IH]; simpl; [discriminate |].
  destruct (eqb_spec k k0) as [E | N]; intros H.
  - now injection H as ->.
  - now rewrite IH.
Qed.

Lemma dict_get_keys (k : K) (d : dict K V) :
  dict_get eqb k d = None <-> ~ In k (keys d).
Proof.
  induction d as [| [k0 v0] d IH]; simpl; [tauto |].
  destruct (eqb_spec k k0) as [E | N].
  - split; [discriminate | intros H; exfalso; apply H; now left].
  - rewrite IH. split; [intros H [E | I]; [congruence | tauto] | tauto].
Qed.

Lemma keys_dict_set_present (k : K) (v : V) (d : dict K V) :
  In k (keys d) -> keys (dict_set eqb k v d) = keys d.
Proof.
  induction d as [| [k0 v0] d IH]; simpl; [tauto |].
  destruct (eqb_spec k k0) as [E | N]; simpl; [reflexivity |].
  intros [E | I]; [congruence |]. f_equal. now apply IH.
Qed.

Lemma keys_dict_set_absent (k : K) (v : V) (d : dict K V) :
  ~ In k (keys d) -> keys (dict_set eqb k v d) = keys d ++ [k].
Proof.
  induction d as [| [k0 v0] d IH]; simpl; [reflexivity |].
  destruct (eqb_spec k k0) as [E | N]; simpl.
  - intros H. exfalso. apply H. left. now symmetry.
  - intros H. f_equal. apply IH. tauto.
Qed.

Lemma keys_dict_set_NoDup (k : K) (v : V) (d : dict K V) :
  NoDup (keys d) -> NoDup (keys (dict_set eqb k v d)).
Proof.
  intros H. destruct (in_dec (fun x y => reflect_dec _ _ (eqb_spec x y)) k (keys d))
    as [I | N].
  - now rewrite keys_dict_set_present.
  - rewrite keys_dict_set_absent by assumption.
    apply NoDup_app; auto.
    + repeat constructor. simpl. tauto.
    + intros x Hx [<- | []]. contradiction.
Qed.
End DictUpdates.

(** ** The scan, device by device *)

Lemma foldM_ext {A S : Type} (f g : S -> A -> result S) (l : list A) (s : S) :
  (forall s x, In x l -> f s x = g s x) -> foldM f l s = foldM g l s.
Proof.
  revert s; induction l as [| x l IH]; simpl; intros s H; [reflexivity |].
  rewrite H by now left. destruct (g s x); simpl; auto.
Qed.

Lemma last_error_app {A : Type} (p q : list A) :
  last_error (p ++ q) =
  match last_error q with
  | Some y => Some y
  | None => last_error p
  end.
Proof.
  induction p as [| x p IH]; simpl.
  - now destruct (last_error q).
  - rewrite IH. now destruct (last_error q).
Qed.

Section ScanFacts.
Variable os_listdir : string -> option (list string).
Variables base_path sensor device : string.

Lemma append_loop (g : string -> string) (l files0 : list string)
  (out : dict string (list string)) :
  dict_get String.eqb device out = Some files0 ->
  foldM (fun out filename =>
           files <- dict_lookup String.eqb device out ;;
           Ok (dict_set String.eqb device (files ++ [g filename]) out))
        l out
  = Ok (dict_set String.eqb device (files0 ++ map g l) out).
Proof.
  revert files0 out; induction l as [| f l IH]; simpl; intros files0 out H.
  - rewrite app_nil_r. now rewrite (dict_set_same _ String.eqb_spec).
  - unfold dict_lookup at 1. rewrite H. simpl.
    rewrite (IH (files0 ++ [g f])).
    + rewrite (dict_set_set _ String.eqb_spec). now rewrite <- app_assoc.
    + apply (dict_get_set_eq _ String.eqb_spec).
Qed.

Lemma session_loop (tss files0 : list string)
  (out : dict string (list string)) :
  dict_get String.eqb device out = Some files0 ->
  foldM (fun out ts =>
           let sensor_path := path_join base_path [device; ts; sensor] in
           filenames <- listdir os_listdir sensor_path ;;
           foldM (fun out filename =>
                    files <- dict_lookup String.eqb device out ;;
                    Ok (dict_set String.eqb device
                          (files ++ [path_join sensor_path [filename]]) out))
                 (sorted filenames) out)
        tss out
  = (parts <- mapM (session_files os_listdir base_path sensor device) tss ;;
     Ok (dict_set String.eqb device (files0 ++ List.concat parts) out)).
Proof.
  revert files0 out; induction tss as [| ts tss IH]; simpl; intros files0 out H.
  - rewrite app_nil_r. now rewrite (dict_set_same _ String.eqb_spec).
  - unfold session_files at 1.
    destruct (listdir os_listdir (path_join base_path [device; ts; sensor]))
      as [names | e]; simpl; [| reflexivity].
    rewrite (append_loop (fun filename =>
               path_join (path_join base_path [device; ts; sensor]) [filename])
               _ files0 out H).
    simpl. erewrite IH by apply (dict_get_set_eq _ String.eqb_spec).
    destruct (mapM _ tss); simpl; [| reflexivity].
    rewrite (dict_set_set _ String.eqb_spec). now rewrite <- app_assoc.
Qed.
End ScanFacts.

(** [get_filepaths] gives every device the files of its sessions, session
    after session. *)
Lemma get_filepaths_by_device (os_listdir : string -> option (list string))
  (base_path sensor : string) :
  get_filepaths os_listdir base_path sensor =
  (devices <- listdir os_listdir base_path ;;
   foldM (fun out device =>
            files <- device_files os_listdir base_path sensor device ;;
            Ok (dict_set String.eqb device files out))
         (sorted devices) []).
Proof.
  unfold get_filepaths. destruct (listdir os_listdir base_path); simpl;
    [| reflexivity].
  apply foldM_ext. intros out device _. unfold device_files.
  destruct (listdir os_listdir (path_join base_path [device])) as [tss | e];
    simpl; [| reflexivity].
  rewrite (session_loop os_listdir base_path sensor device (sorted tss) []).
  - destruct (mapM _ (sorted tss)); simpl; [| reflexivity].
    now rewrite (dict_set_set _ String.eqb_spec).
  - apply (dict_get_set_eq _ String.eqb_spec).
Qed.

Section CalibFacts.
Variable os_listdir : string -> option (list string).
Variables base_path device : string.

Lemma calib_files_loop (g : string -> string) (l : list string)
  (path : dict string string) :
  fold_left (fun path filename => dict_set String.eqb device (g filename) path)
            l path
  = match last_error (map g l) with
    | Some file => dict_set String.eqb device file path
    | None => path
    end.
Proof.
  revert path; induction l as [| f l IH]; simpl; intros path; [reflexivity |].
  rewrite IH. destruct (last_error (map g l)); [| reflexivity].
  apply (dict_set_set _ String.eqb_spec).
Qed.

Lemma calib_session_loop (tss : list string) (path : dict string string) :
  foldM (fun path ts =>
           let calib_path := path_join base_path [device; ts; "calib"] in
           filenames <- listdir os_listdir calib_path ;;
           Ok (fold_left (fun path filename =>
                            dict_set String.eqb device
                                     (path_join calib_path [filename]) path)
                         (sorted filenames) path))
        tss path
  = (parts <- mapM (session_files os_listdir base_path "calib" device) tss ;;
     Ok (match last_error (List.concat parts) with
         | Some file => dict_set String.eqb device file path
         | None => path
         end)).
Proof.
  revert path; induction tss as [| ts tss IH]; simpl; intros path;
    [reflexivity |].
  unfold session_files at 1.
  destruct (listdir os_listdir (path_join base_path [device; ts; "calib"]))
    as [names | e]; simpl; [| reflexivity].
  rewrite calib_files_loop, IH.
  destruct (mapM _ tss) as [parts | e]; simpl; [| reflexivity].
  rewrite last_error_app.
  destruct (last_error (List.concat parts)); [| reflexivity].
  destruct (last_error (map _ (sorted names))); [| reflexivity].
  now rewrite (dict_set_set _ String.eqb_spec).
Qed.
End CalibFacts.

(** [get_calib] gives every device the last of its calibration files, and
    nothing to a device that has none. *)
Lemma get_calib_by_device (os_listdir : string -> option (list string))
  (base_path : string) :
  get_calib os_listdir base_path =
  (devices <- listdir os_listdir base_path ;;
   foldM (fun path device =>
            files <- device_files os_listdir base_path "calib" device ;;
            Ok (match last_error files with
                | Some file => dict_set String.eqb device file path
                | None => path
                end))
         (sorted devices) []).
Proof.
  unfold get_calib. destruct (listdir os_listdir base_path); simpl;
    [| reflexivity].
  apply foldM_ext. intros path device _. unfold device_files.
  destruct (listdir os_listdir (path_join base_path [device])) as [tss | e];
    simpl; [| reflexivity].
  rewrite calib_session_loop. now destruct (mapM _ (sorted tss)).
Qed.

Lemma calib_scans_agree (os_listdir : string -> option (list string))
  (base_path : string) (l : list string) (path d : dict string string)
  (out : dict string (list string)) :
  calib_agrees os_listdir base_path path out ->
  foldM (fun path device =>
           files <- device_files os_listdir base_path "calib" device ;;
           Ok (match last_error files with
               | Some file => dict_set String.eqb device file path
               | None => path
               end)) l path = Ok d ->
  exists out',
    foldM (fun out device =>
             files <- device_files os_listdir base_path "calib" device ;;
             Ok (dict_set String.eqb device files out)) l out = Ok out' /\
    calib_agrees os_listdir base_path d out'.
Proof.
  revert path out; induction l as [| device l IH]; simpl; intros path out Hag H.
  - injection H as <-. eauto.
  - destruct (device_files os_listdir base_path "calib" device)
      as [files | e] eqn:E; simpl in *; [| discriminate].
    apply (IH _ (dict_set String.eqb device files out)) in H; [exact H |].
    intros dev. destruct (String.eqb_spec dev device) as [-> | N].
    + rewrite (dict_get_set_eq _ String.eqb_spec). split; [exact E |].
      destruct (last_error files) eqn:L.
      * apply (dict_get_set_eq _ String.eqb_spec).
      * specialize (Hag device).
        destruct (dict_get String.eqb device out) as [files' |]; [| exact Hag].
        destruct Hag as [E' ->]. rewrite E in E'. injection E' as <-.
        exact L.
    + rewrite (dict_get_set_neq _ String.eqb_spec) by assumption.
      specialize (Hag dev).
      destruct (last_error files);
        [rewrite (dict_get_set_neq _ String.eqb_spec) by assumption |];
        exact Hag.
Qed.

Lemma get_calib_keys_NoDup (os_listdir : string -> option (list string))
  (base_path : string) (path : dict string string) :
  get_calib os_listdir base_path = Ok path -> NoDup (keys path).
Proof.
  rewrite get_calib_by_device. intros H. inv_bind H.
  assert (G : forall l p0 p1,
             NoDup (keys p0) ->
             foldM (fun path device =>
                      files <- device_files os_listdir base_path "calib" device ;;
                      Ok (match last_error files with
                          | Some file => dict_set String.eqb device file path
                          | None => path
                          end)) l p0 = Ok p1 ->
             NoDup (keys p1)).
  { induction l as [| x l IH]; simpl; intros p0 p1 Hn Hf.
    - now injection Hf as <-.
    - inv_bind Hf. inv_bind Hm0. injection Hm0 as <-.
      apply (IH _ _) in Hf; [exact Hf |].
      destruct (last_error a1); [| exact Hn].
      now apply (keys_dict_set_NoDup _ String.eqb_spec). }
  apply (G (sorted a) [] path); [constructor | exact H].
Qed.

(** C8, as amended.  The scan keeps at most one calibration file per
    device, none for a device that has no calibration file, and when a
    device has several the one it keeps is the last one found, in the
    order the scan visits them: sessions by ascending directory name, and
    files by ascending name within a session. *)
Theorem calib_is_last_found (os_listdir : string -> option (list string))
  (device : string) (path : dict string string) :
  get_calib os_listdir PATH = Ok path ->
  NoDup (keys path) /\
  exists files,
    found_calib os_listdir device = Ok files /\
    dict_get String.eqb device path = last_error files.
Proof.
  intros H. split; [now apply get_calib_keys_NoDup in H |].
  rewrite get_calib_by_device in H. inv_bind H.
  unfold found_calib. rewrite get_filepaths_by_device, Hm. simpl.
  destruct (calib_scans_agree os_listdir PATH (sorted a) [] path [])
    as (out & Hout & Hag); [intros dev; reflexivity | exact H |].
  rewrite Hout. simpl. eexists. split; [reflexivity |].
  specialize (Hag device).
  destruct (dict_get String.eqb device out); [apply Hag | exact Hag].
Qed.

Lemma calib_is_last_found_witness :
  exists path,
    get_calib two_sessions PATH = Ok path /\
    dict_get String.eqb "A" path
    = Some "/tmp/testing/A/s2/calib/second.json" /\
    NoDup (keys path) /\
    exists files,
      found_calib two_sessions "A" = Ok files /\
      dict_get String.eqb "A" path = last_error files.
Proof.
  eexists. split; [vm_compute; reflexivity |].
  split; [reflexivity |].
  apply (calib_is_last_found two_sessions "A"). vm_compute. reflexivity.
Defined.

(** C8, as stated, fails: of the two calibration files of device A the
    scan finds [first.json] first and selects [second.json]. *)
Lemma calib_is_not_first_found :
  found_calib two_sessions "A"
  = Ok ["/tmp/testing/A/s1/calib/first.json";
        "/tmp/testing/A/s2/calib/second.json"] /\
  selected_calib two_sessions "A"
  = Ok (Some "/tmp/testing/A/s2/calib/second.json") /\
  ~ (forall files,
       found_calib two_sessions "A" = Ok files ->
       selected_calib two_sessions "A" = Ok (hd_error files)).
Proof.
  split; [vm_compute; reflexivity |].
  split; [vm_compute; reflexivity |].
  intros H. specialize (H _ eq_refl). vm_compute in H. discriminate.
Qed.

(** ** [zip] *)

Lemma heads_app {A : Type} (l1 l2 : list (list A)) :
  heads (l1 ++ l2) =
  match heads l1, heads l2 with
  | Some a, Some b => Some (a ++ b)
  | _, _ => None
  end.
Proof.
  induction l1 as [| [| x c] l1 IH]; simpl.
  - now destruct (heads l2).
  - reflexivity.
  - rewrite IH. destruct (heads l1), (heads l2); reflexivity.
Qed.

Lemma heads_repeat {A : Type} (l : list A) (k : nat) :
  heads (map (fun x => repeat x (S k)) l) = Some l.
Proof.
  induction l as [| x l IH]; [reflexivity |].
  cbn [map]. change (repeat x (S k)) with (x :: repeat x k).
  cbn [heads]. now rewrite IH.
Qed.

Lemma tails_repeat {A : Type} (l : list A) (k : nat) :
  tails (map (fun x => repeat x (S k)) l) = map (fun x => repeat x k) l.
Proof. unfold tails. rewrite map_map. reflexivity. Qed.

Lemma heads_length {A : Type} (cols : list (list A)) (row : list A) :
  heads cols = Some row -> List.length row = List.length cols.
Proof.
  revert row; induction cols as [| [| x c] cols IH]; simpl; intros row H.
  - now injection H as <-.
  - discriminate.
  - destruct (heads cols); [| discriminate]. injection H as <-.
    simpl. f_equal. now apply IH.
Qed.

Lemma heads_nth {A : Type} (cols : list (list A)) (row : list A) (i : nat)
  (c : list A) :
  heads cols = Some row -> nth_error cols i = Some c ->
  exists x, c = x :: tl c /\ nth_error row i = Some x /\
            nth_error (tails cols) i = Some (tl c).
Proof.
  revert row i; induction cols as [| [| x c0] cols IH]; simpl; intros row i H Hi.
  - destruct i; discriminate.
  - discriminate.
  - destruct (heads cols) as [r |] eqn:E; [| discriminate]. injection H as <-.
    destruct i as [| i]; simpl in *.
    + injection Hi as <-. eauto.
    + eauto.
Qed.

Lemma heads_None {A : Type} (cols : list (list A)) :
  heads cols = None -> In [] cols.
Proof.
  induction cols as [| [| x c] cols IH]; simpl; intros H.
  - discriminate.
  - now left.
  - destruct (heads cols); [discriminate |]. right. auto.
Qed.

Lemma shortest_le {A : Type} (n : nat) (cols : list (list A)) :
  (shortest n cols <= n)%nat.
Proof. induction cols; simpl; lia. Qed.

Lemma shortest_In {A : Type} (n : nat) (cols : list (list A)) (c : list A) :
  In c cols -> (shortest n cols <= List.length c)%nat.
Proof.
  induction cols as [| c0 cols IH]; simpl; [tauto |].
  intros [-> | H]; [lia |]. specialize (IH H). lia.
Qed.

Lemma shortest_app {A : Type} (n : nat) (l1 l2 : list (list A)) :
  shortest n (l1 ++ l2) = shortest (shortest n l2) l1.
Proof. unfold shortest. now rewrite fold_right_app. Qed.

Lemma shortest_repeat {A : Type} (n k : nat) (l : list A) :
  (n <= k)%nat -> shortest n (map (fun x => repeat x k) l) = n.
Proof.
  intros H. induction l as [| x l IH]; simpl; [reflexivity |].
  rewrite IH, repeat_length. lia.
Qed.

Lemma shortest_tails {A : Type} (n : nat) (cols : list (list A)) (row : list A) :
  heads cols = Some row ->
  shortest (S n) cols = S (shortest n (tails cols)).
Proof.
  revert row; induction cols as [| [| x c] cols IH]; simpl; intros row H.
  - reflexivity.
  - discriminate.
  - destruct (heads cols) as [r |]; [| discriminate].
    rewrite (IH r eq_refl). reflexivity.
Qed.

(** [zip] yields as many rows as the shortest column has entries. *)
Lemma zip_rows_length {A : Type} (n : nat) (cols : list (list A)) :
  List.length (zip_rows n cols) = shortest n cols.
Proof.
  revert cols; induction n as [| n IH]; intros cols; simpl.
  - pose proof (shortest_le 0 cols). lia.
  - destruct (heads cols) as [row |] eqn:E; simpl.
    + rewrite IH. symmetry. eapply shortest_tails; eauto.
    + apply heads_None in E. pose proof (shortest_In (S n) _ _ E).
      simpl in *. lia.
Qed.

(** ** Indexed loops *)

Lemma foldM_seq_nth {A St : Type} (f : St -> A -> result St)
  (g : St -> nat -> result St) (l : list A) (k : nat) (s : St) :
  (forall s j x, nth_error l j = Some x -> g s (k + j)%nat = f s x) ->
  foldM g (seq k (List.length l)) s = foldM f l s.
Proof.
  revert k s; induction l as [| x l IH]; simpl; intros k s H; [reflexivity |].
  rewrite <- (Nat.add_0_r k) at 1. rewrite (H s 0%nat x eq_refl).
  destruct (f s x); simpl; [| reflexivity].
  apply IH. intros s' j y Hj. rewrite <- (H s' (S j) y Hj). f_equal. lia.
Qed.

Lemma nth_error_app_plus {A : Type} (l r : list A) (j : nat) :
  nth_error (l ++ r) (List.length l + j) = nth_error r j.
Proof.
  rewrite nth_error_app2 by lia. f_equal. lia.
Qed.

Lemma nth_error_combine {A B : Type} (l : list A) (r : list B) (j : nat)
  (x : A) (y : B) :
  nth_error (combine l r) j = Some (x, y) <->
  nth_error l j = Some x /\ nth_error r j = Some y.
Proof.
  revert r j; induction l as [| a l IH]; intros [| b r] [| j]; simpl;
    try (split; [discriminate | intros [H1 H2]; discriminate]).
  - split; [intros H; injection H as -> ->; auto
           | intros [H1 H2]; injection H1 as ->; injection H2 as ->; auto].
  - apply IH.
Qed.

(** ** One row of the index *)

Lemma set_entry_inv (dev : string) (ts : Z) (entry : list string)
  (d d' : ts_dict) :
  set_entry dev ts entry d = Ok d' ->
  exists D, dict_get String.eqb dev d = Some D /\
            d' = dict_set String.eqb dev (dict_set Z.eqb ts entry D) d.
Proof.
  unfold set_entry. intros H. inv_bind H. injection H as <-.
  apply (dict_lookup_get _) in Hm. eauto.
Qed.

Lemma set_entry_present (dev : string) (ts : Z) (entry : list string)
  (d : ts_dict) :
  In dev (keys d) -> exists d', set_entry dev ts entry d = Ok d'.
Proof.
  intros H. unfold set_entry, dict_lookup.
  destruct (dict_get String.eqb dev d) eqn:E; simpl; [eauto |].
  now apply (dict_get_keys _ String.eqb_spec) in E.
Qed.

Lemma dict_get_Some_keys {K V : Type} (eqb : K -> K -> bool)
  (eqb_spec : forall x y, reflect (x = y) (eqb x y))
  (k : K) (d : dict K V) (v : V) :
  dict_get eqb k d = Some v -> In k (keys d).
Proof.
  intros H. apply (dict_get_In _ eqb_spec) in H.
  apply (in_map fst) in H. exact H.
Qed.

Lemma item_step_inv (cd dd cd' dd' : ts_dict) (dev c cf df : string) :
  item_step (cd, dd) (dev, (c, (cf, df))) = Ok (cd', dd') ->
  exists Dc Dd Dc' Dd',
    dict_get String.eqb dev cd = Some Dc /\
    insert_file c Dc cf = Ok Dc' /\
    cd' = dict_set String.eqb dev Dc' cd /\
    dict_get String.eqb dev dd = Some Dd /\
    insert_file c Dd df = Ok Dd' /\
    dd' = dict_set String.eqb dev Dd' dd.
Proof.
  unfold item_step. intros H.
  inv_bind H. rename a into cts, Hm into Hcts.
  inv_bind H. rename a into dts, Hm into Hdts.
  inv_bind H. rename a into cd1, Hm into Hcd.
  inv_bind H. rename a into dd1, Hm into Hdd.
  injection H as <- <-.
  apply set_entry_inv in Hcd as (Dc & HDc & ->).
  apply set_entry_inv in Hdd as (Dd & HDd & ->).
  exists Dc, Dd, (dict_set Z.eqb cts [c; cf] Dc), (dict_set Z.eqb dts [c; df] Dd).
  unfold insert_file. rewrite Hcts, Hdts. simpl. auto 10.
Qed.

Lemma items_loop_inv (items : list (string * (string * (string * string))))
  (cd dd cd' dd' : ts_dict) :
  NoDup (map fst items) ->
  foldM item_step items (cd, dd) = Ok (cd', dd') ->
  keys cd' = keys cd /\ keys dd' = keys dd /\
  (forall dev, ~ In dev (map fst items) ->
     dict_get String.eqb dev cd' = dict_get String.eqb dev cd /\
     dict_get String.eqb dev dd' = dict_get String.eqb dev dd) /\
  (forall dev c cf df, In (dev, (c, (cf, df))) items ->
     stored c cf dev cd cd' /\ stored c df dev dd dd').
Proof.
  revert cd dd; induction items as [| [dev [c [cf df]]] items IH];
    intros cd dd Hnd H.
  - simpl in H. injection H as <- <-.
    split; [reflexivity | split; [reflexivity | split; [auto |]]].
    intros ? ? ? ? [].
  - cbn [foldM] in H. inv_bind H. destruct a as [cd1 dd1].
    apply item_step_inv in Hm
      as (Dc & Dd & Dc' & Dd' & HDc & Hic & -> & HDd & Hid & ->).
    simpl in Hnd. inversion Hnd as [| ? ? Hnotin Hnd']; subst.
    destruct (IH _ _ Hnd' H) as (Hkc & Hkd & Hother & Hitems).
    assert (Hc1 : dict_get String.eqb dev cd' = Some Dc').
    { rewrite (proj1 (Hother dev Hnotin)).
      apply (dict_get_set_eq _ String.eqb_spec). }
    assert (Hd1 : dict_get String.eqb dev dd' = Some Dd').
    { rewrite (proj2 (Hother dev Hnotin)).
      apply (dict_get_set_eq _ String.eqb_spec). }
    split; [| split; [| split]].
    + rewrite Hkc. apply (keys_dict_set_present _ String.eqb_spec).
      eapply dict_get_Some_keys; eauto using String.eqb_spec.
    + rewrite Hkd. apply (keys_dict_set_present _ String.eqb_spec).
      eapply dict_get_Some_keys; eauto using String.eqb_spec.
    + intros dev' Hn. simpl in Hn.
      assert (dev' <> dev) by (intros ->; tauto).
      destruct (Hother dev') as [-> ->]; [tauto |].
      rewrite !(dict_get_set_neq _ String.eqb_spec) by assumption. auto.
    + intros dev' c' cf' df' [E | Hin].
      * injection E as <- <- <- <-.
        split; [exists Dc, Dc' | exists Dd, Dd']; auto.
      * assert (dev' <> dev).
        { intros ->. apply Hnotin. apply (in_map fst) in Hin. exact Hin. }
        destruct (Hitems _ _ _ _ Hin)
          as [(D1 & D1' & G1 & I1 & G1') (D2 & D2' & G2 & I2 & G2')].
        rewrite (dict_get_set_neq _ String.eqb_spec) in G1, G2 by assumption.
        split; [exists D1, D1' | exists D2, D2']; auto.
Qed.

Lemma items_loop_succeeds
  (items : list (string * (string * (string * string)))) (cd dd : ts_dict) :
  (forall dev c cf df, In (dev, (c, (cf, df))) items ->
     In dev (keys cd) /\ In dev (keys dd) /\
     is_ok (timestamp_of cf) = true /\ is_ok (timestamp_of df) = true) ->
  exists acc, foldM item_step items (cd, dd) = Ok acc.
Proof.
  revert cd dd; induction items as [| [dev [c [cf df]]] items IH];
    intros cd dd H; [simpl; eauto |].
  destruct (H dev c cf df (or_introl eq_refl)) as (Hc & Hd & Pc & Pd).
  cbn [foldM]. unfold item_step at 1.
  destruct (timestamp_of cf) as [cts |]; [| discriminate].
  destruct (timestamp_of df) as [dts |]; [| discriminate]. simpl.
  destruct (set_entry_present dev cts [c; cf] cd Hc) as (cd1 & E1).
  destruct (set_entry_present dev dts [c; df] dd Hd) as (dd1 & E2).
  rewrite E1, E2. simpl. apply IH.
  intros dev' c' cf' df' Hin.
  destruct (H dev' c' cf' df' (or_intror Hin)) as (Hc' & Hd' & Pc' & Pd').
  apply set_entry_inv in E1 as (D1 & G1 & ->).
  apply set_entry_inv in E2 as (D2 & G2 & ->).
  rewrite !(keys_dict_set_present _ String.eqb_spec); auto.
Qed.

(** ** All the rows *)

Lemma combine_fst_In {A B : Type} (l : list A) (r : list B) (x : A) :
  In x (map fst (combine l r)) -> In x l.
Proof.
  revert r; induction l as [| a l IH]; intros [| b r]; simpl; try tauto.
  intros [-> | H]; eauto.
Qed.

Lemma combine_fst_NoDup {A B : Type} (l : list A) (r : list B) :
  NoDup l -> NoDup (map fst (combine l r)).
Proof.
  revert r; induction l as [| a l IH]; intros [| b r] H; simpl;
    try constructor.
  - inversion H; subst. intros Hin. apply combine_fst_In in Hin. contradiction.
  - inversion H; subst. auto.
Qed.

Section Rows.
Variables devs calibs : list string.
Hypothesis calibs_length : List.length calibs = List.length devs.
Hypothesis devs_NoDup : NoDup devs.

Lemma row_items_length (crow drow : list string) :
  List.length crow = List.length devs ->
  List.length drow = List.length devs ->
  List.length (row_items devs calibs crow drow) = List.length devs.
Proof.
  intros Hc Hd. unfold row_items. rewrite !length_combine. lia.
Qed.

Lemma row_items_nth (crow drow : list string) (i : nat)
  (dev c cf df : string) :
  nth_error (row_items devs calibs crow drow) i = Some (dev, (c, (cf, df))) <->
  nth_error devs i = Some dev /\ nth_error calibs i = Some c /\
  nth_error crow i = Some cf /\ nth_error drow i = Some df.
Proof.
  unfold row_items. rewrite !nth_error_combine. tauto.
Qed.

Lemma index_row_item (crow drow : list string) (acc : ts_dict * ts_dict)
  (j : nat) (item : string * (string * (string * string))) :
  List.length crow = List.length devs ->
  List.length drow = List.length devs ->
  nth_error (row_items devs calibs crow drow) j = Some item ->
  index_row (List.length devs) (devs ++ calibs ++ crow ++ drow) acc (0 + j)
  = item_step acc item.
Proof.
  intros Hc Hd Hj. destruct item as [dev [c [cf df]]], acc as [cd dd].
  apply row_items_nth in Hj as (Hdev & Hcal & Hcf & Hdf).
  unfold index_row, item_step, py_index.
  replace (0 * List.length devs + (0 + j))%nat with j by lia.
  replace (1 * List.length devs + (0 + j))%nat
    with (List.length devs + j)%nat by lia.
  replace (2 * List.length devs + (0 + j))%nat
    with (List.length devs + (List.length calibs + j))%nat by lia.
  replace (3 * List.length devs + (0 + j))%nat
    with (List.length devs + (List.length calibs + (List.length crow + j)))%nat
    by lia.
  rewrite !nth_error_app_plus.
  rewrite (nth_error_app1 devs) by (apply nth_error_Some; congruence).
  rewrite (nth_error_app1 calibs) by (apply nth_error_Some; congruence).
  rewrite (nth_error_app1 crow) by (apply nth_error_Some; congruence).
  rewrite Hdev, Hcal, Hcf, Hdf. reflexivity.
Qed.

Lemma row_loop_items (crow drow : list string) (acc : ts_dict * ts_dict) :
  List.length crow = List.length devs ->
  List.length drow = List.length devs ->
  foldM (index_row (List.length devs) (devs ++ calibs ++ crow ++ drow))
        (seq 0 (List.length devs)) acc
  = foldM item_step (row_items devs calibs crow drow) acc.
Proof.
  intros Hc Hd. rewrite <- (row_items_length crow drow Hc Hd).
  apply foldM_seq_nth. intros s j x Hj.
  rewrite (row_items_length crow drow Hc Hd). now apply index_row_item.
Qed.

Lemma zip_columns_heads (k : nat) (cfs dfs : list (list string)) :
  heads (zip_columns devs calibs (S k) cfs dfs) =
  match heads cfs, heads dfs with
  | Some crow, Some drow => Some (devs ++ calibs ++ crow ++ drow)
  | _, _ => None
  end.
Proof.
  unfold zip_columns. rewrite !heads_app, !heads_repeat.
  destruct (heads cfs), (heads dfs); reflexivity.
Qed.

Lemma zip_columns_tails (k : nat) (cfs dfs : list (list string)) :
  tails (zip_columns devs calibs (S k) cfs dfs)
  = zip_columns devs calibs k (tails cfs) (tails dfs).
Proof.
  unfold zip_columns, tails. rewrite !map_app, !map_map. reflexivity.
Qed.

Lemma tails_length {A : Type} (cols : list (list A)) :
  List.length (tails cols) = List.length cols.
Proof. apply length_map. Qed.

(** The rows of the [zip] store, for the device at every position, the
    first files of its colour list and of its depth list, as many as
    there are rows. *)
Lemma rows_loop_inv (k : nat) (cfs dfs : list (list string))
  (cd dd cd' dd' : ts_dict) :
  List.length cfs = List.length devs ->
  List.length dfs = List.length devs ->
  foldM (fun acc data_tuple =>
           foldM (index_row (List.length devs) data_tuple)
                 (seq 0 (List.length devs)) acc)
        (zip_rows k (zip_columns devs calibs k cfs dfs)) (cd, dd)
  = Ok (cd', dd') ->
  keys cd' = keys cd /\ keys dd' = keys dd /\
  forall i dev c,
    nth_error devs i = Some dev -> nth_error calibs i = Some c ->
    (forall files D,
        nth_error cfs i = Some files ->
        dict_get String.eqb dev cd = Some D ->
        exists D',
          foldM (insert_file c)
                (firstn (List.length
                           (zip_rows k (zip_columns devs calibs k cfs dfs)))
                        files) D = Ok D' /\
          dict_get String.eqb dev cd' = Some D') /\
    (forall files D,
        nth_error dfs i = Some files ->
        dict_get String.eqb dev dd = Some D ->
        exists D',
          foldM (insert_file c)
                (firstn (List.length
                           (zip_rows k (zip_columns devs calibs k cfs dfs)))
                        files) D = Ok D' /\
          dict_get String.eqb dev dd' = Some D').
Proof.
  revert cfs dfs cd dd; induction k as [| k IH]; intros cfs dfs cd dd Lc Ld H.
  - simpl in H. injection H as <- <-.
    split; [reflexivity | split; [reflexivity |]].
    intros i dev c _ _. split; intros files D _ HD; simpl; eauto.
  - cbn [zip_rows] in *. rewrite zip_columns_heads, zip_columns_tails in *.
    destruct (heads cfs) as [crow |] eqn:Ec;
      [destruct (heads dfs) as [drow |] eqn:Ed |].
    2, 3: simpl in H; injection H as <- <-;
      (split; [reflexivity | split; [reflexivity |]]);
      intros i dev c _ _; split; intros files D _ HD; simpl; eauto.
    cbn [foldM] in H. inv_bind H. destruct a as [cd1 dd1].
    pose proof (heads_length _ _ Ec) as Lcrow.
    pose proof (heads_length _ _ Ed) as Ldrow.
    rewrite row_loop_items in Hm by congruence.
    apply items_loop_inv in Hm as (Hkc & Hkd & _ & Hitems);
      [| apply combine_fst_NoDup, devs_NoDup].
    apply IH in H as (Hkc' & Hkd' & Hrest);
      [| rewrite tails_length; congruence | rewrite tails_length; congruence].
    split; [congruence | split; [congruence |]].
    intros i dev c Hdev Hcal.
    assert (Hi : (i < List.length devs)%nat)
      by (apply nth_error_Some; congruence).
    destruct (nth_error crow i) as [cf |] eqn:Hcf;
      [| apply nth_error_None in Hcf; lia].
    destruct (nth_error drow i) as [df |] eqn:Hdf;
      [| apply nth_error_None in Hdf; lia].
    assert (Hin : In (dev, (c, (cf, df))) (row_items devs calibs crow drow)).
    { eapply nth_error_In. apply row_items_nth. eauto. }
    destruct (Hitems _ _ _ _ Hin)
      as [(D1 & D1' & G1 & I1 & G1') (D2 & D2' & G2 & I2 & G2')].
    destruct (Hrest i dev c Hdev Hcal) as [Rc Rd].
    split; intros files D Hfiles HD.
    + destruct (heads_nth _ _ _ _ Ec Hfiles) as (x & Ex & Hx & Ht).
      rewrite Hcf in Hx. injection Hx as <-.
      rewrite HD in G1. injection G1 as <-.
      destruct (Rc _ _ Ht G1') as (D' & HF & HG).
      exists D'. split; [| exact HG].
      rewrite Ex. cbn [List.length firstn foldM]. rewrite I1. exact HF.
    + destruct (heads_nth _ _ _ _ Ed Hfiles) as (x & Ex & Hx & Ht).
      rewrite Hdf in Hx. injection Hx as <-.
      rewrite HD in G2. injection G2 as <-.
      destruct (Rd _ _ Ht G2') as (D' & HF & HG).
      exists D'. split; [| exact HG].
      rewrite Ex. cbn [List.length firstn foldM]. rewrite I2. exact HF.
Qed.
End Rows.

Lemma heads_nth_row {A : Type} (cols : list (list A)) (row : list A) (i : nat)
  (x : A) :
  heads cols = Some row -> nth_error row i = Some x ->
  exists t, In (x :: t) cols.
Proof.
  revert row i; induction cols as [| [| y c] cols IH]; simpl; intros row i H Hi.
  - injection H as <-. destruct i; discriminate.
  - discriminate.
  - destruct (heads cols) as [r |] eqn:E; [| discriminate]. injection H as <-.
    destruct i as [| i]; simpl in Hi.
    + injection Hi as ->. eauto.
    + destruct (IH _ _ eq_refl Hi) as (t & Ht). eauto.
Qed.

Lemma tails_In {A : Type} (cols : list (list A)) (row : list A) (t : list A) :
  heads cols = Some row -> In t (tails cols) -> exists x, In (x :: t) cols.
Proof.
  revert row; induction cols as [| [| y c] cols IH]; simpl; intros row H Hin.
  - contradiction.
  - discriminate.
  - destruct (heads cols) as [r |] eqn:E; [| discriminate].
    destruct Hin as [<- | Hin]; [eauto |].
    destruct (IH _ eq_refl Hin) as (x & Hx). eauto.
Qed.

Section RowsSucceed.
Variables devs calibs : list string.
Hypothesis calibs_length : List.length calibs = List.length devs.
Hypothesis devs_NoDup : NoDup devs.

(** No row fails when every device has its dictionaries and the file
    names the rows reach parse. *)
Lemma rows_loop_succeeds (k : nat) (cfs dfs : list (list string))
  (cd dd : ts_dict) :
  List.length cfs = List.length devs ->
  List.length dfs = List.length devs ->
  (forall dev, In dev devs -> In dev (keys cd) /\ In dev (keys dd)) ->
  (forall files f,
      In files (cfs ++ dfs) ->
      In f (firstn (List.length
                      (zip_rows k (zip_columns devs calibs k cfs dfs))) files) ->
      is_ok (timestamp_of f) = true) ->
  exists acc,
    foldM (fun acc data_tuple =>
             foldM (index_row (List.length devs) data_tuple)
                   (seq 0 (List.length devs)) acc)
          (zip_rows k (zip_columns devs calibs k cfs dfs)) (cd, dd)
    = Ok acc.
Proof.
  revert cfs dfs cd dd; induction k as [| k IH];
    intros cfs dfs cd dd Lc Ld Hkeys Hparse; [simpl; eauto |].
  cbn [zip_rows] in *. rewrite zip_columns_heads, zip_columns_tails in *.
  destruct (heads cfs) as [crow |] eqn:Ec;
    [destruct (heads dfs) as [drow |] eqn:Ed |]; try (simpl; eauto; fail).
  pose proof (heads_length _ _ Ec) as Lcrow.
  pose proof (heads_length _ _ Ed) as Ldrow.
  cbn [foldM List.length] in *.
  rewrite row_loop_items by congruence.
  destruct (items_loop_succeeds (row_items devs calibs crow drow) cd dd)
    as ([cd1 dd1] & E).
  { intros dev c cf df Hin. apply In_nth_error in Hin as (i & Hi).
    apply row_items_nth in Hi as (Hdev & Hcal & Hcf & Hdf).
    destruct (Hkeys dev (nth_error_In _ _ Hdev)) as [K1 K2].
    destruct (heads_nth_row _ _ _ _ Ec Hcf) as (tc & Htc).
    destruct (heads_nth_row _ _ _ _ Ed Hdf) as (td & Htd).
    repeat split; auto.
    - apply (Hparse (cf :: tc)); [apply in_or_app; auto | now left].
    - apply (Hparse (df :: td)); [apply in_or_app; auto | now left]. }
  rewrite E. simpl.
  apply items_loop_inv in E as (Hkc & Hkd & _);
    [| apply combine_fst_NoDup, devs_NoDup].
  apply IH.
  - rewrite tails_length; congruence.
  - rewrite tails_length; congruence.
  - rewrite Hkc, Hkd. exact Hkeys.
  - intros files f Hin Hf.
    assert (exists x, In (x :: files) (cfs ++ dfs)) as (x & Hx).
    { apply in_app_or in Hin as [Hin | Hin].
      - destruct (tails_In _ _ _ Ec Hin) as (x & Hx).
        exists x. apply in_or_app. auto.
      - destruct (tails_In _ _ _ Ed Hin) as (x & Hx).
        exists x. apply in_or_app. auto. }
    apply (Hparse _ f Hx). simpl. now right.
Qed.
End RowsSucceed.

(** ** The index of aligned scans *)

Lemma names_eqb_eq (l1 l2 : list string) : names_eqb l1 l2 = true -> l1 = l2.
Proof.
  revert l2; induction l1 as [| x l1 IH]; intros [| y l2]; simpl;
    try discriminate; [reflexivity |].
  intros H. apply andb_prop in H as [E H]. apply String.eqb_eq in E.
  subst. f_equal. auto.
Qed.

Lemma names_distinct_NoDup (l : list string) :
  names_distinct l = true -> NoDup l.
Proof.
  induction l as [| x l IH]; simpl; intros H; constructor;
    apply andb_prop in H as [N H]; auto.
  intros Hin. apply negb_true_iff in N.
  assert (existsb (String.eqb x) l = true); [| congruence].
  apply existsb_exists. exists x. split; [exact Hin | apply String.eqb_refl].
Qed.

Lemma aligned_inv (cfs dfs : dict string (list string))
  (calib : dict string string) :
  aligned cfs dfs calib = true ->
  keys cfs = keys calib /\ keys dfs = keys calib /\ NoDup (keys calib).
Proof.
  unfold aligned. intros H. apply andb_prop in H as [H H3].
  apply andb_prop in H as [H1 H2].
  auto using names_eqb_eq, names_distinct_NoDup.
Qed.

Lemma dict_get_position {V : Type} (k : string) (d : dict string V) (v : V) :
  dict_get String.eqb k d = Some v ->
  exists i, nth_error (keys d) i = Some k /\ nth_error (values d) i = Some v.
Proof.
  induction d as [| [k' v'] d IH]; simpl; [discriminate |].
  destruct (String.eqb_spec k k') as [-> | N]; intros H.
  - injection H as ->. exists 0%nat. auto.
  - destruct (IH H) as (i & H1 & H2). exists (S i). auto.
Qed.

Lemma dict_get_at {V : Type} (k : string) (d : dict string V) (v : V)
  (i : nat) :
  NoDup (keys d) -> nth_error (keys d) i = Some k ->
  dict_get String.eqb k d = Some v -> nth_error (values d) i = Some v.
Proof.
  revert i; induction d as [| [k' v'] d IH]; simpl; intros i Hnd Hi H.
  - destruct i; discriminate.
  - inversion Hnd as [| ? ? Hnotin Hnd']; subst.
    destruct i as [| i]; simpl in *.
    + injection Hi as ->. rewrite String.eqb_refl in H. exact H.
    + destruct (String.eqb_spec k k') as [-> | N].
      * exfalso. apply Hnotin. eapply nth_error_In; eauto.
      * auto.
Qed.

Lemma empty_dicts_keys (devs : list string) :
  keys (map (fun dev : string => (dev, @nil (Z * list string))) devs) = devs.
Proof.
  unfold keys. rewrite map_map. simpl. apply map_id.
Qed.

Lemma empty_dicts_get (devs : list string) (dev : string) :
  In dev devs ->
  dict_get String.eqb dev
           (map (fun dev : string => (dev, @nil (Z * list string))) devs)
  = Some [].
Proof.
  induction devs as [| d devs IH]; simpl; [tauto |].
  destruct (String.eqb_spec dev d) as [-> | N]; [reflexivity |].
  intros [E | H]; [congruence | auto].
Qed.

Lemma values_length {K V : Type} (d : dict K V) :
  List.length (values d) = List.length (keys d).
Proof. unfold values, keys. now rewrite !length_map. Qed.

Lemma zip_columns_shortest (devs calibs : list string) (k : nat)
  (cfs dfs : list (list string)) :
  shortest k (zip_columns devs calibs k cfs dfs) = shortest k (cfs ++ dfs).
Proof.
  unfold zip_columns. rewrite shortest_app.
  rewrite (shortest_app k (map _ calibs)).
  rewrite (shortest_repeat _ k calibs) by apply shortest_le.
  apply shortest_repeat, shortest_le.
Qed.

(** The rows [build_index] runs over when every device has a calibration
    file. *)
Lemma build_index_rows (cfs dfs : dict string (list string))
  (calib : dict string string) (first : list string) :
  keys calib <> [] ->
  zip_star (map (fun i => repeat i (List.length first)) (keys calib)
              ++ map (fun i => repeat i (List.length first)) (values calib)
              ++ values cfs ++ values dfs)
  = zip_rows (List.length first)
             (zip_columns (keys calib) (values calib) (List.length first)
                          (values cfs) (values dfs)).
Proof.
  intros Hne. unfold zip_columns.
  destruct (keys calib) as [| d0 devs]; [congruence |].
  cbn [map app zip_star]. now rewrite repeat_length.
Qed.

Lemma num_rows_first (cfs dfs : dict string (list string))
  (first : list string) :
  hd_error (values cfs) = Some first ->
  num_rows cfs dfs
  = shortest (List.length first) (values cfs ++ values dfs).
Proof.
  unfold num_rows. destruct (values cfs); simpl; intros H;
    [discriminate | now injection H as ->].
Qed.

Lemma aligned_nonempty (cfs dfs : dict string (list string))
  (calib : dict string string) (first : list string) :
  aligned cfs dfs calib = true -> hd_error (values cfs) = Some first ->
  keys calib <> [].
Proof.
  intros Hal Hf. apply aligned_inv in Hal as (Kc & _ & _).
  rewrite <- Kc. intros E. pose proof (values_length cfs) as L.
  rewrite E in L. destruct (values cfs); [discriminate | discriminate].
Qed.

(** What [build_index] returns when every device has a calibration file:
    each device's dictionaries hold the first [num_rows] files of its
    lists, stored in order. *)
Lemma build_index_inv (cfs dfs : dict string (list string))
  (calib : dict string string) (cd dd : ts_dict) (nd nv : nat) :
  aligned cfs dfs calib = true ->
  build_index cfs dfs calib = Ok (cd, dd, nd, nv) ->
  hd_error (map (@List.length string) (values cfs)) = Some nd /\
  nv = List.length (keys calib) /\
  keys cd = keys calib /\ keys dd = keys calib /\
  forall dev c,
    dict_get String.eqb dev calib = Some c ->
    (forall files,
        dict_get String.eqb dev cfs = Some files ->
        exists D,
          entries_of c (firstn (num_rows cfs dfs) files) = Ok D /\
          dict_get String.eqb dev cd = Some D) /\
    (forall files,
        dict_get String.eqb dev dfs = Some files ->
        exists D,
          entries_of c (firstn (num_rows cfs dfs) files) = Ok D /\
          dict_get String.eqb dev dd = Some D).
Proof.
  intros Hal H. pose proof (aligned_inv _ _ _ Hal) as (Kc & Kd & Hnd).
  unfold build_index in H.
  destruct (hd_error (values cfs)) as [first |] eqn:Eh; simpl in H;
    [| discriminate].
  pose proof (aligned_nonempty _ _ _ _ Hal Eh) as Hne.
  rewrite (build_index_rows cfs dfs calib first Hne) in H.
  inv_bind H. destruct a as [cd1 dd1]. injection H as <- <- <- <-.
  apply rows_loop_inv in Hm as (Hkc & Hkd & Hdev); auto.
  2: now rewrite !values_length.
  2: now rewrite values_length, Kc.
  2: now rewrite values_length, Kd.
  rewrite empty_dicts_keys in Hkc, Hkd.
  rewrite zip_rows_length, zip_columns_shortest in Hdev.
  rewrite <- (num_rows_first _ _ _ Eh) in Hdev.
  split; [| split; [reflexivity | split; [exact Hkc | split; [exact Hkd |]]]].
  { destruct (values cfs); simpl in *; [discriminate |].
    now injection Eh as ->. }
  intros dev c Hc.
  destruct (dict_get_position _ _ _ Hc) as (i & Hi & Hv).
  destruct (Hdev i dev c Hi Hv) as [Rc Rd].
  assert (Hin : In dev (keys calib)) by (eapply nth_error_In; eauto).
  split; intros files Hf.
  - apply (Rc files []); [| now apply empty_dicts_get].
    apply (dict_get_at dev cfs files i); rewrite ?Kc; auto.
  - apply (Rd files []); [| now apply empty_dicts_get].
    apply (dict_get_at dev dfs files i); rewrite ?Kd; auto.
Qed.

Lemma build_index_succeeds (cfs dfs : dict string (list string))
  (calib : dict string string) :
  aligned cfs dfs calib = true ->
  values cfs <> [] ->
  (forall files f,
      In files (values cfs ++ values dfs) ->
      In f (firstn (num_rows cfs dfs) files) ->
      is_ok (timestamp_of f) = true) ->
  exists r, build_index cfs dfs calib = Ok r.
Proof.
  intros Hal Hv Hparse.
  pose proof (aligned_inv _ _ _ Hal) as (Kc & Kd & Hnd).
  unfold build_index.
  destruct (hd_error (values cfs)) as [first |] eqn:Eh;
    [| destruct (values cfs); [congruence | discriminate]].
  pose proof (aligned_nonempty _ _ _ _ Hal Eh) as Hne.
  simpl. rewrite (build_index_rows cfs dfs calib first Hne).
  destruct (rows_loop_succeeds (keys calib) (values calib)
              (values_length calib) Hnd (List.length first)
              (values cfs) (values dfs)
              (map (fun dev : string => (dev, [])) (keys calib))
              (map (fun dev : string => (dev, [])) (keys calib)))
    as ([cd dd] & E).
  - now rewrite values_length, Kc.
  - now rewrite values_length, Kd.
  - intros dev Hin. now rewrite empty_dicts_keys.
  - intros files f Hin Hf. apply (Hparse files f Hin).
    rewrite zip_rows_length, zip_columns_shortest in Hf.
    now rewrite (num_rows_first _ _ _ Eh).
  - rewrite E. simpl. eauto.
Qed.

(** ** The sequences of the index *)

Lemma keys_dict_set_add {V : Type} (t : Z) (v : V) (d : dict Z V) :
  keys (dict_set Z.eqb t v d) = add_key t (keys d).
Proof.
  induction d as [| [t' v'] d IH]; simpl; [reflexivity |].
  destruct (Z.eqb t t'); simpl; [reflexivity | now rewrite IH].
Qed.

Lemma insert_loop_keys (c : string) (files : list string)
  (D0 D : dict Z (list string)) :
  foldM (insert_file c) files D0 = Ok D ->
  exists tss,
    mapM timestamp_of files = Ok tss /\
    keys D = fold_left (fun acc t => add_key t acc) tss (keys D0).
Proof.
  revert D0; induction files as [| f files IH]; simpl; intros D0 H.
  - injection H as <-. exists []. auto.
  - inv_bind H. unfold insert_file in Hm. inv_bind Hm. injection Hm as <-.
    destruct (IH _ H) as (tss & Htss & Hk). rewrite Hm0, Htss. simpl.
    exists (a0 :: tss). split; [reflexivity |].
    simpl. now rewrite Hk, keys_dict_set_add.
Qed.

Lemma entries_of_keys (c : string) (files : list string)
  (D : dict Z (list string)) :
  entries_of c files = Ok D ->
  exists tss, mapM timestamp_of files = Ok tss /\ keys D = distinct tss.
Proof. apply insert_loop_keys. Qed.

Lemma mapM_Ok_all {A B : Type} (f : A -> result B) (l : list A) (r : list B) :
  mapM f l = Ok r -> forall x, In x l -> is_ok (f x) = true.
Proof.
  revert r; induction l as [| a l IH]; simpl; intros r H x; [tauto |].
  inv_bind H. inv_bind H. intros [<- | Hin]; [now rewrite Hm | eauto].
Qed.

Lemma dict_get_values {V : Type} (k : string) (d : dict string V) (v : V) :
  dict_get String.eqb k d = Some v -> In v (values d).
Proof.
  intros H. apply (dict_get_In _ String.eqb_spec) in H.
  apply (in_map snd) in H. exact H.
Qed.

Lemma dict_get_present {V : Type} (k : string) (d : dict string V) :
  In k (keys d) -> exists v, dict_get String.eqb k d = Some v.
Proof.
  intros H. destruct (dict_get String.eqb k d) eqn:E; [eauto |].
  now apply (dict_get_keys _ String.eqb_spec) in E.
Qed.

Lemma num_rows_le (cfs dfs : dict string (list string)) (files : list string) :
  In files (values cfs ++ values dfs) ->
  (num_rows cfs dfs <= List.length files)%nat.
Proof.
  unfold num_rows. intros H. destruct (values cfs) eqn:E.
  - lia.
  - now apply shortest_In.
Qed.

(** The sequences an index holds for a device: the timestamps of the first
    [num_rows] files of its lists, in the order of the lists, each at its
    first occurrence. *)
Lemma index_sequences (cfs dfs : dict string (list string))
  (calib : dict string string) (cd dd : ts_dict) (nd nv : nat)
  (dev : string) (cfiles dfiles : list string) :
  aligned cfs dfs calib = true ->
  build_index cfs dfs calib = Ok (cd, dd, nd, nv) ->
  dict_get String.eqb dev cfs = Some cfiles ->
  dict_get String.eqb dev dfs = Some dfiles ->
  (num_rows cfs dfs <= List.length cfiles)%nat /\
  (num_rows cfs dfs <= List.length dfiles)%nat /\
  exists ctss dtss,
    mapM timestamp_of (firstn (num_rows cfs dfs) cfiles) = Ok ctss /\
    mapM timestamp_of (firstn (num_rows cfs dfs) dfiles) = Ok dtss /\
    sequence_of cd dev = Some (distinct ctss) /\
    sequence_of dd dev = Some (distinct dtss).
Proof.
  intros Hal H Hc Hd.
  pose proof (aligned_inv _ _ _ Hal) as (Kc & Kd & Hnd).
  destruct (build_index_inv _ _ _ _ _ _ _ Hal H) as (_ & _ & _ & _ & Hdev).
  assert (Hin : In dev (keys calib)).
  { rewrite <- Kc.
    exact (dict_get_Some_keys String.eqb String.eqb_spec _ _ _ Hc). }
  destruct (dict_get_present _ _ Hin) as (c & Hcal).
  destruct (Hdev dev c Hcal) as [Rc Rd].
  destruct (Rc _ Hc) as (Dc & Ec & Gc). destruct (Rd _ Hd) as (Dd & Ed & Gd).
  apply entries_of_keys in Ec as (ctss & Hct & Kct).
  apply entries_of_keys in Ed as (dtss & Hdt & Kdt).
  split; [apply num_rows_le, in_or_app; left; eapply dict_get_values; eauto |].
  split; [apply num_rows_le, in_or_app; right; eapply dict_get_values; eauto |].
  exists ctss, dtss. unfold sequence_of. rewrite Gc, Gd. simpl.
  rewrite Kct, Kdt. auto.
Qed.

Lemma scans_build (os_listdir : string -> option (list string))
  (cfs dfs : dict string (list string)) (calib : dict string string) :
  get_filepaths os_listdir PATH "color" = Ok cfs ->
  get_filepaths os_listdir PATH "depth" = Ok dfs ->
  get_calib os_listdir PATH = Ok calib ->
  get_filepaths_with_timestamps os_listdir = build_index cfs dfs calib.
Proof.
  intros Hc Hd Hk. unfold get_filepaths_with_timestamps.
  now rewrite Hc, Hd, Hk.
Qed.

(** The [zip] of [build_index] yields [num_rows] rows, whether or not the
    devices have calibration files. *)
Lemma build_index_row_count (cfs dfs : dict string (list string))
  (calib : dict string string) (first : list string) :
  hd_error (values cfs) = Some first ->
  List.length
    (zip_star (map (fun i => repeat i (List.length first)) (keys calib)
                 ++ map (fun i => repeat i (List.length first)) (values calib)
                 ++ values cfs ++ values dfs))
  = num_rows cfs dfs.
Proof.
  intros Hf. rewrite (num_rows_first _ _ _ Hf).
  destruct (keys calib) as [| d0 devs] eqn:Ek.
  - pose proof (values_length calib) as L. rewrite Ek in L.
    destruct (values calib); [| discriminate]. simpl.
    destruct (values cfs) as [| c0 rest]; [discriminate |].
    injection Hf as ->. cbn [app zip_star]. apply zip_rows_length.
  - rewrite <- Ek. rewrite build_index_rows by congruence.
    now rewrite zip_rows_length, zip_columns_shortest.
Qed.

Lemma add_key_absent (t : Z) (l : list Z) :
  ~ In t l -> add_key t l = l ++ [t].
Proof.
  induction l as [| x l IH]; simpl; intros H; [reflexivity |].
  destruct (Z.eqb_spec t x) as [-> | N]; [tauto |].
  rewrite IH by tauto. reflexivity.
Qed.

Lemma add_key_length (t : Z) (l : list Z) :
  (List.length (add_key t l) <= S (List.length l))%nat.
Proof.
  induction l as [| x l IH]; simpl; [lia |].
  destruct (Z.eqb t x); simpl; lia.
Qed.

(** Equal timestamps share one entry: a sequence is never longer than the
    list of files it was parsed from, and as long when their timestamps
    are all different. *)
Lemma distinct_length (tss : list Z) :
  (List.length (distinct tss) <= List.length tss)%nat.
Proof.
  unfold distinct.
  assert (G : forall acc,
             (List.length (fold_left (fun acc t => add_key t acc) tss acc)
              <= List.length acc + List.length tss)%nat).
  { induction tss as [| t tss IH]; simpl; intros acc; [lia |].
    specialize (IH (add_key t acc)).
    pose proof (add_key_length t acc). lia. }
  apply (G []).
Qed.

Lemma distinct_NoDup (tss : list Z) : NoDup tss -> distinct tss = tss.
Proof.
  unfold distinct.
  assert (G : forall acc,
             NoDup (acc ++ tss) ->
             fold_left (fun acc t => add_key t acc) tss acc = acc ++ tss).
  { induction tss as [| t tss IH]; simpl; intros acc H.
    - now rewrite app_nil_r.
    - rewrite add_key_absent.
      + rewrite IH; rewrite <- app_assoc; [reflexivity | exact H].
      + intros Hin. apply NoDup_remove_2 in H. apply H.
        apply in_or_app. now left. }
  intros H. apply (G [] H).
Qed.

(** C9, as amended.  The [zip] of the build runs over N rows, N being the
    least of the length of the first device's colour list and of the
    lengths of all colour and depth lists.  When every device has a
    calibration file, the index is built for every device from exactly
    the first N files of its colour list and of its depth list: its
    sequence holds the timestamps parsed from these N files, one entry
    for each distinct timestamp, so at most N entries, and N of them when
    the N timestamps are all different.  The files after the N-th are
    left out, and no exception is raised for them: the build succeeds
    whenever the first N file names parse. *)
Theorem index_truncated_to_shortest
  (os_listdir : string -> option (list string))
  (cfs dfs : dict string (list string)) (calib : dict string string) :
  get_filepaths os_listdir PATH "color" = Ok cfs ->
  get_filepaths os_listdir PATH "depth" = Ok dfs ->
  get_calib os_listdir PATH = Ok calib ->
  (forall first,
      hd_error (values cfs) = Some first ->
      List.length
        (zip_star (map (fun i => repeat i (List.length first)) (keys calib)
                     ++ map (fun i => repeat i (List.length first))
                            (values calib)
                     ++ values cfs ++ values dfs))
      = num_rows cfs dfs) /\
  (aligned cfs dfs calib = true ->
   (values cfs <> [] ->
    (forall files f,
        In files (values cfs ++ values dfs) ->
        In f (firstn (num_rows cfs dfs) files) ->
        is_ok (timestamp_of f) = true) ->
    exists r, get_filepaths_with_timestamps os_listdir = Ok r) /\
   (forall cd dd nd nv dev cfiles dfiles,
       get_filepaths_with_timestamps os_listdir = Ok (cd, dd, nd, nv) ->
       dict_get String.eqb dev cfs = Some cfiles ->
       dict_get String.eqb dev dfs = Some dfiles ->
       List.length (firstn (num_rows cfs dfs) cfiles) = num_rows cfs dfs /\
       List.length (firstn (num_rows cfs dfs) dfiles) = num_rows cfs dfs /\
       exists ctss dtss,
         mapM timestamp_of (firstn (num_rows cfs dfs) cfiles) = Ok ctss /\
         mapM timestamp_of (firstn (num_rows cfs dfs) dfiles) = Ok dtss /\
         sequence_of cd dev = Some (distinct ctss) /\
         sequence_of dd dev = Some (distinct dtss) /\
         (List.length (distinct ctss) <= num_rows cfs dfs)%nat /\
         (List.length (distinct dtss) <= num_rows cfs dfs)%nat /\
         (NoDup ctss ->
          List.length (distinct ctss) = num_rows cfs dfs) /\
         (NoDup dtss ->
          List.length (distinct dtss) = num_rows cfs dfs))).
Proof.
  intros Hc Hd Hk. split; [intros first; apply build_index_row_count |].
  intros Hal. rewrite (scans_build _ _ _ _ Hc Hd Hk). split.
  - intros Hv Hparse. now apply build_index_succeeds.
  - intros cd dd nd nv dev cfiles dfiles H Gc Gd.
    destruct (index_sequences _ _ _ _ _ _ _ _ _ _ Hal H Gc Gd)
      as (Lc & Ld & ctss & dtss & Mc & Md & Sc & Sd).
    rewrite !firstn_length_le by assumption.
    split; [reflexivity |]. split; [reflexivity |].
    exists ctss, dtss.
    pose proof (mapM_length _ _ _ Mc) as Nc.
    pose proof (mapM_length _ _ _ Md) as Nd.
    rewrite firstn_length_le in Nc, Nd by assumption.
    pose proof (distinct_length ctss). pose proof (distinct_length dtss).
    repeat split; auto; try lia.
    + intros Hn. rewrite (distinct_NoDup _ Hn). lia.
    + intros Hn. rewrite (distinct_NoDup _ Hn). lia.
Qed.

Lemma index_truncated_to_shortest_witness :
  exists cfs dfs calib,
    get_filepaths uneven PATH "color" = Ok cfs /\
    get_filepaths uneven PATH "depth" = Ok dfs /\
    get_calib uneven PATH = Ok calib /\
    aligned cfs dfs calib = true /\
    num_rows cfs dfs = 2%nat /\
    (exists cd dd nd nv,
        get_filepaths_with_timestamps uneven = Ok (cd, dd, nd, nv) /\
        sequence_of cd "A" = Some [100%Z; 200%Z] /\
        sequence_of dd "B" = Some [155%Z; 255%Z]) /\
    (forall first,
        hd_error (values cfs) = Some first ->
        List.length
          (zip_star (map (fun i => repeat i (List.length first)) (keys calib)
                       ++ map (fun i => repeat i (List.length first))
                              (values calib)
                       ++ values cfs ++ values dfs))
        = num_rows cfs dfs) /\
    (aligned cfs dfs calib = true ->
     (values cfs <> [] ->
      (forall files f,
          In files (values cfs ++ values dfs) ->
          In f (firstn (num_rows cfs dfs) files) ->
          is_ok (timestamp_of f) = true) ->
      exists r, get_filepaths_with_timestamps uneven = Ok r) /\
     (forall cd dd nd nv dev cfiles dfiles,
         get_filepaths_with_timestamps uneven = Ok (cd, dd, nd, nv) ->
         dict_get String.eqb dev cfs = Some cfiles ->
         dict_get String.eqb dev dfs = Some dfiles ->
         List.length (firstn (num_rows cfs dfs) cfiles) = num_rows cfs dfs /\
         List.length (firstn (num_rows cfs dfs) dfiles) = num_rows cfs dfs /\
         exists ctss dtss,
           mapM timestamp_of (firstn (num_rows cfs dfs) cfiles) = Ok ctss /\
           mapM timestamp_of (firstn (num_rows cfs dfs) dfiles) = Ok dtss /\
           sequence_of cd dev = Some (distinct ctss) /\
           sequence_of dd dev = Some (distinct dtss) /\
           (List.length (distinct ctss) <= num_rows cfs dfs)%nat /\
           (List.length (distinct dtss) <= num_rows cfs dfs)%nat /\
           (NoDup ctss ->
            List.length (distinct ctss) = num_rows cfs dfs) /\
           (NoDup dtss ->
            List.length (distinct dtss) = num_rows cfs dfs))).
Proof.
  eexists. eexists. eexists.
  split; [vm_compute; reflexivity |].
  split; [vm_compute; reflexivity |].
  split; [vm_compute; reflexivity |].
  split; [vm_compute; reflexivity |].
  split; [vm_compute; reflexivity |].
  split.
  { eexists. eexists. eexists. eexists.
    split; [vm_compute; reflexivity |].
    split; vm_compute; reflexivity. }
  apply (index_truncated_to_shortest uneven);
    vm_compute; reflexivity.
Defined.

(** C9, as stated, fails: on [repeated_uneven] the device has three
    colour files and two depth files, the build runs over two rows, and
    the colour sequence has one entry, because the first two colour files
    have the same timestamp; so has the depth sequence. *)
Lemma repeated_names_share_an_entry :
  exists cfiles dfiles cd dd nd nv,
    get_filepaths repeated_uneven PATH "color" = Ok [("A", cfiles)] /\
    get_filepaths repeated_uneven PATH "depth" = Ok [("A", dfiles)] /\
    List.length cfiles = 3%nat /\ List.length dfiles = 2%nat /\
    num_rows [("A", cfiles)] [("A", dfiles)] = 2%nat /\
    get_filepaths_with_timestamps repeated_uneven = Ok (cd, dd, nd, nv) /\
    sequence_of cd "A" = Some [100%Z] /\
    sequence_of dd "A" = Some [100%Z] /\
    ~ (forall tss, sequence_of cd "A" = Some tss ->
                   List.length tss = num_rows [("A", cfiles)] [("A", dfiles)]).
Proof.
  eexists. eexists. eexists. eexists. eexists. eexists.
  split; [vm_compute; reflexivity |].
  split; [vm_compute; reflexivity |].
  split; [reflexivity |]. split; [reflexivity |]. split; [reflexivity |].
  split; [vm_compute; reflexivity |].
  split; [reflexivity |]. split; [reflexivity |].
  intros H. specialize (H _ eq_refl). discriminate H.
Qed.

(** ** The order of discovery *)

Lemma mapM_ext {A B : Type} (f g : A -> result B) (l : list A) :
  (forall x, f x = g x) -> mapM f l = mapM g l.
Proof.
  intros H. induction l as [| x l IH]; simpl; [reflexivity |].
  now rewrite H, IH.
Qed.

Section SameTree.
Variables os_listdir os_listdir' : string -> option (list string).
Hypothesis same : same_tree os_listdir os_listdir'.

Lemma listdir_sorted {A : Type} (path : string)
  (k : list string -> result A) :
  (names <- listdir os_listdir path ;; k (sorted names))
  = (names <- listdir os_listdir' path ;; k (sorted names)).
Proof.
  unfold listdir. specialize (same path). unfold same_entries in same.
  destruct (os_listdir path) as [l1 |], (os_listdir' path) as [l2 |];
    simpl; try contradiction; [| reflexivity].
  now rewrite (sorted_permutation _ _ same).
Qed.

Lemma session_files_same (base_path sensor device ts : string) :
  session_files os_listdir base_path sensor device ts
  = session_files os_listdir' base_path sensor device ts.
Proof.
  unfold session_files.
  apply (listdir_sorted _ (fun names => Ok (map _ names))).
Qed.

Lemma device_files_same (base_path sensor device : string) :
  device_files os_listdir base_path sensor device
  = device_files os_listdir' base_path sensor device.
Proof.
  unfold device_files.
  rewrite (listdir_sorted _ (fun tss =>
             parts <- mapM (session_files os_listdir base_path sensor device)
                           tss ;;
             Ok (List.concat parts))).
  destruct (listdir os_listdir' (path_join base_path [device])); simpl;
    [| reflexivity].
  now rewrite (mapM_ext _ _ _ (session_files_same base_path sensor device)).
Qed.

Lemma get_filepaths_same (base_path sensor : string) :
  get_filepaths os_listdir base_path sensor
  = get_filepaths os_listdir' base_path sensor.
Proof.
  rewrite !get_filepaths_by_device.
  rewrite (listdir_sorted _ (fun devices =>
             foldM (fun out device =>
                      files <- device_files os_listdir base_path sensor device ;;
                      Ok (dict_set String.eqb device files out))
                   devices [])).
  destruct (listdir os_listdir' base_path); simpl; [| reflexivity].
  apply foldM_ext. intros out device _. now rewrite device_files_same.
Qed.

Lemma get_calib_same (base_path : string) :
  get_calib os_listdir base_path = get_calib os_listdir' base_path.
Proof.
  rewrite !get_calib_by_device.
  rewrite (listdir_sorted _ (fun devices =>
             foldM (fun path device =>
                      files <- device_files os_listdir base_path "calib" device ;;
                      Ok (match last_error files with
                          | Some file => dict_set String.eqb device file path
                          | None => path
                          end))
                   devices [])).
  destruct (listdir os_listdir' base_path); simpl; [| reflexivity].
  apply foldM_ext. intros out device _. now rewrite device_files_same.
Qed.

(** The index does not depend on the order in which the directories list
    their entries. *)
Lemma index_same :
  get_filepaths_with_timestamps os_listdir
  = get_filepaths_with_timestamps os_listdir'.
Proof.
  unfold get_filepaths_with_timestamps.
  now rewrite !get_filepaths_same, get_calib_same.
Qed.
End SameTree.

(** The list [get_filepaths] holds for a device is the list of the files
    of its sessions. *)
Lemma get_filepaths_device_files (os_listdir : string -> option (list string))
  (base_path sensor dev : string) (out : dict string (list string))
  (files : list string) :
  get_filepaths os_listdir base_path sensor = Ok out ->
  dict_get String.eqb dev out = Some files ->
  device_files os_listdir base_path sensor dev = Ok files.
Proof.
  rewrite get_filepaths_by_device. intros H. inv_bind H.
  assert (G : forall l out0 out1,
             (forall d fs, dict_get String.eqb d out0 = Some fs ->
                           device_files os_listdir base_path sensor d = Ok fs) ->
             foldM (fun out device =>
                      files <- device_files os_listdir base_path sensor device ;;
                      Ok (dict_set String.eqb device files out)) l out0
             = Ok out1 ->
             forall d fs, dict_get String.eqb d out1 = Some fs ->
                          device_files os_listdir base_path sensor d = Ok fs).
  { induction l as [| x l IH]; simpl; intros out0 out1 Hinv Hf.
    - now injection Hf as <-.
    - inv_bind Hf. inv_bind Hm0. injection Hm0 as <-.
      refine (IH _ _ _ Hf).
      intros d fs. destruct (String.eqb_spec d x) as [-> | N].
      + rewrite (dict_get_set_eq _ String.eqb_spec). now intros [= <-].
      + rewrite (dict_get_set_neq _ String.eqb_spec) by assumption.
        apply Hinv. }
  apply (G (sorted a) [] out); [discriminate | exact H].
Qed.

(** C5, as amended.  The index does not depend on the order of discovery:
    [sorted] puts every listing in ascending order of the names, compared
    as strings.  For every device and stream kind the scan produces the
    payload paths session by session, sessions and files in that order of
    their names.  When every device has a calibration file (the three
    scans list the same devices, each once), the sequence of a device and
    stream kind is made of the timestamps parsed from the first
    [num_rows] of these paths, in the order of the paths, each at its
    first occurrence.  The order is that of the names, not of the
    integers they encode. *)
Theorem sequence_follows_name_order
  (os_listdir : string -> option (list string)) :
  (forall os_listdir',
      same_tree os_listdir os_listdir' ->
      get_filepaths_with_timestamps os_listdir'
      = get_filepaths_with_timestamps os_listdir) /\
  (forall names,
      StronglySorted str_le (sorted names) /\
      Permutation (sorted names) names) /\
  (forall sensor out dev files,
      get_filepaths os_listdir PATH sensor = Ok out ->
      dict_get String.eqb dev out = Some files ->
      device_files os_listdir PATH sensor dev = Ok files) /\
  (forall cfs dfs calib cd dd nd nv dev cfiles dfiles,
      get_filepaths os_listdir PATH "color" = Ok cfs ->
      get_filepaths os_listdir PATH "depth" = Ok dfs ->
      get_calib os_listdir PATH = Ok calib ->
      aligned cfs dfs calib = true ->
      get_filepaths_with_timestamps os_listdir = Ok (cd, dd, nd, nv) ->
      dict_get String.eqb dev cfs = Some cfiles ->
      dict_get String.eqb dev dfs = Some dfiles ->
      exists ctss dtss,
        mapM timestamp_of (firstn (num_rows cfs dfs) cfiles) = Ok ctss /\
        mapM timestamp_of (firstn (num_rows cfs dfs) dfiles) = Ok dtss /\
        sequence_of cd dev = Some (distinct ctss) /\
        sequence_of dd dev = Some (distinct dtss)).
Proof.
  split; [| split; [| split]].
  - intros os_listdir' Hsame. symmetry. now apply index_same.
  - intros names. split; [apply sorted_ordered | apply sorted_perm].
  - intros sensor out dev files Hout Hget.
    eapply get_filepaths_device_files; eauto.
  - intros cfs dfs calib cd dd nd nv dev cfiles dfiles Hc Hd Hk Hal H Gc Gd.
    rewrite (scans_build _ _ _ _ Hc Hd Hk) in H.
    now destruct (index_sequences _ _ _ _ _ _ _ _ _ _ Hal H Gc Gd)
      as (_ & _ & Hseq).
Qed.

Lemma sequence_follows_name_order_witness :
  exists cd dd nd nv,
    get_filepaths_with_timestamps unpadded = Ok (cd, dd, nd, nv) /\
    device_files unpadded PATH "color" "A"
    = Ok ["/tmp/testing/A/s/color/10.bin"; "/tmp/testing/A/s/color/9.bin"] /\
    device_files unpadded PATH "depth" "A"
    = Ok ["/tmp/testing/A/s/depth/10.bin"; "/tmp/testing/A/s/depth/9.bin"] /\
    exists ctss dtss,
      mapM timestamp_of
           (firstn 2 ["/tmp/testing/A/s/color/10.bin";
                      "/tmp/testing/A/s/color/9.bin"]) = Ok ctss /\
      mapM timestamp_of
           (firstn 2 ["/tmp/testing/A/s/depth/10.bin";
                      "/tmp/testing/A/s/depth/9.bin"]) = Ok dtss /\
      sequence_of cd "A" = Some (distinct ctss) /\
      sequence_of dd "A" = Some (distinct dtss).
Proof.
  eexists. eexists. eexists. eexists.
  split; [vm_compute; reflexivity |].
  destruct (sequence_follows_name_order unpadded) as (_ & _ & Hfiles & H).
  split; [| split].
  - apply (Hfiles "color" [("A", ["/tmp/testing/A/s/color/10.bin";
                                  "/tmp/testing/A/s/color/9.bin"])] "A");
      vm_compute; reflexivity.
  - apply (Hfiles "depth" [("A", ["/tmp/testing/A/s/depth/10.bin";
                                  "/tmp/testing/A/s/depth/9.bin"])] "A");
      vm_compute; reflexivity.
  - eapply (H [("A", ["/tmp/testing/A/s/color/10.bin";
                      "/tmp/testing/A/s/color/9.bin"])]
              [("A", ["/tmp/testing/A/s/depth/10.bin";
                      "/tmp/testing/A/s/depth/9.bin"])]
              [("A", "/tmp/testing/A/s/calib/calib.json")]);
      vm_compute; reflexivity.
Defined.

(** C5, as stated, fails: the directory lists [9.bin] before [10.bin], in
    the order of the timestamps, and the sequence of the index is 10, 9. *)
Lemma unpadded_not_ascending :
  (exists cd dd nd nv,
      get_filepaths_with_timestamps unpadded = Ok (cd, dd, nd, nv) /\
      sequence_of cd "A" = Some [10%Z; 9%Z] /\
      sequence_of dd "A" = Some [10%Z; 9%Z]) /\
  ~ (forall cd dd nd nv tss,
        get_filepaths_with_timestamps unpadded = Ok (cd, dd, nd, nv) ->
        sequence_of cd "A" = Some tss -> ascending tss = true).
Proof.
  split.
  - eexists. eexists. eexists. eexists.
    split; [vm_compute; reflexivity |]. split; reflexivity.
  - intros H.
    specialize (H _ _ _ _ [10%Z; 9%Z] eq_refl eq_refl). discriminate.
Qed.

(** ** When the build raises *)

Lemma foldM_raises {A St : Type} (f : St -> A -> result St) (l : list A)
  (x : A) (s : St) :
  In x l -> (forall s, exists e, f s x = Raise e) ->
  exists e, foldM f l s = Raise e.
Proof.
  intros Hin Hx. revert s; induction l as [| y l IH]; intros s; [easy |].
  simpl. destruct Hin as [-> | Hin].
  - destruct (Hx s) as (e & ->). simpl. eauto.
  - destruct (f s y); simpl; eauto.
Qed.

Lemma mapM_raises {A B : Type} (f : A -> result B) (l : list A) (x : A) :
  In x l -> (exists e, f x = Raise e) -> exists e, mapM f l = Raise e.
Proof.
  intros Hin Hx. induction l as [| y l IH]; [easy |].
  simpl. destruct Hin as [-> | Hin].
  - destruct Hx as (e & ->). simpl. eauto.
  - destruct (f y); simpl; [| eauto].
    destruct (IH Hin) as (e & ->). simpl. eauto.
Qed.

Section Unlistable.
Variable os_listdir : string -> option (list string).
Variables base_path sensor dev : string.

Lemma device_files_unlistable :
  os_listdir (path_join base_path [dev]) = None ->
  exists e, device_files os_listdir base_path sensor dev = Raise e.
Proof.
  intros H. unfold device_files, listdir. rewrite H. simpl. eauto.
Qed.

Lemma device_files_sensor_unlistable (tss : list string) (ts : string) :
  os_listdir (path_join base_path [dev]) = Some tss ->
  In ts tss ->
  os_listdir (path_join base_path [dev; ts; sensor]) = None ->
  exists e, device_files os_listdir base_path sensor dev = Raise e.
Proof.
  intros Hd Hin Hs. unfold device_files, listdir at 1. rewrite Hd. simpl.
  destruct (mapM_raises (session_files os_listdir base_path sensor dev)
              (sorted tss) ts) as (e & ->).
  - apply (Permutation_in _ (Permutation_sym (sorted_perm tss))), Hin.
  - unfold session_files, listdir. rewrite Hs. simpl. eauto.
  - simpl. eauto.
Qed.

Lemma get_filepaths_raises (devices : list string) :
  os_listdir base_path = Some devices ->
  In dev devices ->
  (exists e, device_files os_listdir base_path sensor dev = Raise e) ->
  exists e, get_filepaths os_listdir base_path sensor = Raise e.
Proof.
  intros Hb Hin (e & He). rewrite get_filepaths_by_device.
  unfold listdir. rewrite Hb. simpl.
  apply (foldM_raises _ _ dev).
  - apply (Permutation_in _ (Permutation_sym (sorted_perm devices))), Hin.
  - intros s. rewrite He. simpl. eauto.
Qed.
End Unlistable.

Lemma get_calib_raises (os_listdir : string -> option (list string))
  (base_path dev : string) (devices : list string) :
  os_listdir base_path = Some devices ->
  In dev devices ->
  (exists e, device_files os_listdir base_path "calib" dev = Raise e) ->
  exists e, get_calib os_listdir base_path = Raise e.
Proof.
  intros Hb Hin (e & He). rewrite get_calib_by_device.
  unfold listdir. rewrite Hb. simpl.
  apply (foldM_raises _ _ dev).
  - apply (Permutation_in _ (Permutation_sym (sorted_perm devices))), Hin.
  - intros s. rewrite He. simpl. eauto.
Qed.

Lemma index_raises (os_listdir : string -> option (list string)) :
  (exists e, get_filepaths os_listdir PATH "color" = Raise e) \/
  (exists e, get_filepaths os_listdir PATH "depth" = Raise e) \/
  (exists e, get_calib os_listdir PATH = Raise e) ->
  exists e, get_filepaths_with_timestamps os_listdir = Raise e.
Proof.
  unfold get_filepaths_with_timestamps.
  intros [(e & ->) | [(e & He) | (e & He)]]; simpl; eauto.
  - destruct (get_filepaths os_listdir PATH "color"); simpl; eauto.
    rewrite He. simpl. eauto.
  - destruct (get_filepaths os_listdir PATH "color"); simpl; eauto.
    destruct (get_filepaths os_listdir PATH "depth"); simpl; eauto.
    rewrite He. simpl. eauto.
Qed.

Lemma values_dict_get {V : Type} (d : dict string V) (v : V) :
  NoDup (keys d) -> In v (values d) ->
  exists k, dict_get String.eqb k d = Some v.
Proof.
  induction d as [| [k0 v0] d IH]; simpl; intros Hnd Hin; [easy |].
  inversion Hnd as [| ? ? Hnotin Hnd']; subst.
  destruct Hin as [-> | Hin].
  - exists k0. now rewrite String.eqb_refl.
  - destruct (IH Hnd' Hin) as (k & Hk). exists k.
    destruct (String.eqb_spec k k0) as [-> | N]; [| exact Hk].
    exfalso. apply Hnotin.
    exact (dict_get_Some_keys String.eqb String.eqb_spec _ _ _ Hk).
Qed.

(** With a calibration file for every device, a successful build has
    parsed the first [num_rows] names of every list. *)
Lemma build_index_parsed (cfs dfs : dict string (list string))
  (calib : dict string string) (r : ts_dict * ts_dict * nat * nat)
  (files : list string) (f : string) :
  aligned cfs dfs calib = true ->
  build_index cfs dfs calib = Ok r ->
  In files (values cfs ++ values dfs) ->
  In f (firstn (num_rows cfs dfs) files) ->
  is_ok (timestamp_of f) = true.
Proof.
  intros Hal H Hin Hf. destruct r as [[[cd dd] nd] nv].
  pose proof (aligned_inv _ _ _ Hal) as (Kc & Kd & Hnd).
  destruct (build_index_inv _ _ _ _ _ _ _ Hal H) as (_ & _ & _ & _ & Hdev).
  apply in_app_or in Hin as [Hin | Hin].
  - destruct (values_dict_get cfs files) as (dev & Hget);
      [now rewrite Kc | exact Hin |].
    assert (Hk : In dev (keys calib)).
    { rewrite <- Kc.
      exact (dict_get_Some_keys String.eqb String.eqb_spec _ _ _ Hget). }
    destruct (dict_get_present _ _ Hk) as (c & Hc).
    destruct (proj1 (Hdev dev c Hc) _ Hget) as (D & HD & _).
    apply entries_of_keys in HD as (tss & Htss & _).
    exact (mapM_Ok_all _ _ _ Htss f Hf).
  - destruct (values_dict_get dfs files) as (dev & Hget);
      [now rewrite Kd | exact Hin |].
    assert (Hk : In dev (keys calib)).
    { rewrite <- Kd.
      exact (dict_get_Some_keys String.eqb String.eqb_spec _ _ _ Hget). }
    destruct (dict_get_present _ _ Hk) as (c & Hc).
    destruct (proj2 (Hdev dev c Hc) _ Hget) as (D & HD & _).
    apply entries_of_keys in HD as (tss & Htss & _).
    exact (mapM_Ok_all _ _ _ Htss f Hf).
Qed.

(** C7, as amended.  The build raises, and so returns no index, when the
    base directory cannot be listed, when it holds no device, when a device
    directory cannot be listed, and when a colour, depth or calib directory
    of a session cannot be listed.  When the scans succeed, there is a
    device and every device has a calibration file, the build succeeds
    exactly when the first [num_rows] file names of every colour and depth
    list parse as integers; so an empty stream, for which [num_rows] is 0,
    does not make it raise. *)
Theorem index_build_failures (os_listdir : string -> option (list string)) :
  (os_listdir PATH = None ->
   get_filepaths_with_timestamps os_listdir = Raise (OSError PATH)) /\
  (os_listdir PATH = Some [] ->
   get_filepaths_with_timestamps os_listdir = Raise IndexError) /\
  (forall devices dev,
      os_listdir PATH = Some devices -> In dev devices ->
      os_listdir (path_join PATH [dev]) = None ->
      exists e, get_filepaths_with_timestamps os_listdir = Raise e) /\
  (forall devices dev tss ts sensor,
      os_listdir PATH = Some devices -> In dev devices ->
      os_listdir (path_join PATH [dev]) = Some tss -> In ts tss ->
      In sensor ["color"; "depth"; "calib"] ->
      os_listdir (path_join PATH [dev; ts; sensor]) = None ->
      exists e, get_filepaths_with_timestamps os_listdir = Raise e) /\
  (forall cfs dfs calib,
      get_filepaths os_listdir PATH "color" = Ok cfs ->
      get_filepaths os_listdir PATH "depth" = Ok dfs ->
      get_calib os_listdir PATH = Ok calib ->
      aligned cfs dfs calib = true ->
      values cfs <> [] ->
      (is_ok (get_filepaths_with_timestamps os_listdir) = true <->
       forall files f,
         In files (values cfs ++ values dfs) ->
         In f (firstn (num_rows cfs dfs) files) ->
         is_ok (timestamp_of f) = true)).
Proof.
  split; [| split; [| split; [| split]]].
  - intros H. unfold get_filepaths_with_timestamps, get_filepaths, listdir.
    now rewrite H.
  - intros H.
    unfold get_filepaths_with_timestamps, get_filepaths, get_calib, listdir.
    now rewrite H.
  - intros devices dev Hb Hin Hd. apply index_raises. left.
    eapply get_filepaths_raises; eauto.
    now apply device_files_unlistable.
  - intros devices dev tss ts sensor Hb Hin Hd Hts Hs Hnone.
    apply index_raises.
    destruct Hs as [<- | [<- | [<- | []]]].
    + left. eapply get_filepaths_raises; eauto.
      eapply device_files_sensor_unlistable; eauto.
    + right. left. eapply get_filepaths_raises; eauto.
      eapply device_files_sensor_unlistable; eauto.
    + right. right. eapply get_calib_raises; eauto.
      eapply device_files_sensor_unlistable; eauto.
  - intros cfs dfs calib Hc Hd Hk Hal Hv.
    rewrite (scans_build _ _ _ _ Hc Hd Hk). split.
    + intros Hok files f Hin Hf.
      destruct (build_index cfs dfs calib) as [r |] eqn:E; [| discriminate].
      eapply build_index_parsed; eauto.
    + intros Hparse.
      destruct (build_index_succeeds _ _ _ Hal Hv Hparse) as (r & ->).
      reflexivity.
Qed.

Lemma index_build_failures_witness :
  is_ok (get_filepaths_with_timestamps empty_depth) = true.
Proof.
  destruct (index_build_failures empty_depth) as (_ & _ & _ & _ & H).
  eapply H.
  - vm_compute. reflexivity.
  - vm_compute. reflexivity.
  - vm_compute. reflexivity.
  - vm_compute. reflexivity.
  - discriminate.
  - intros files f Hin Hf. vm_compute in Hf. contradiction.
Defined.

(** C7, as stated, fails: the depth directory of device A is empty and
    the build returns an index, with empty sequences; the script then
    stops at line 83, outside the build. *)
Lemma empty_stream_builds :
  get_filepaths_with_timestamps empty_depth
  = Ok ([("A", [])], [("A", [])], 1%nat, 1%nat) /\
  opened empty_depth = Raise IndexError /\
  ~ (exists e, get_filepaths_with_timestamps empty_depth = Raise e).
Proof.
  split; [vm_compute; reflexivity |].
  split; [vm_compute; reflexivity |].
  intros (e & H). vm_compute in H. discriminate.
Qed.

(** ** Observing the loop for longer *)

Lemma loop_exception_stable
  (display : nat -> list (string * string * string) -> result unit)
  (s : session) (fuel k n : nat) (w : Z) (e : exn) :
  snd (loop display s fuel n w) = Some e ->
  snd (loop display s (fuel + k) n w) = Some e.
Proof.
  revert n w; induction fuel as [| fuel IH]; simpl; intros n w H;
    [discriminate |].
  destruct (iteration display s n w) as [b | e']; [| exact H].
  specialize (IH (S n) (new_watermark b)).
  destruct (loop display s fuel (S n) (new_watermark b)) as [bs r].
  destruct (loop display s (fuel + k) (S n) (new_watermark b)) as [bs' r'].
  simpl in *. auto.
Qed.

(** Once the script has ended, observing more iterations changes
    nothing. *)
Lemma main_stable (os_listdir : string -> option (list string))
  (display : nat -> list (string * string * string) -> result unit)
  (str : exn -> string) (fuel k : nat) (r : list string * Z) :
  main os_listdir display str fuel = Some r ->
  main os_listdir display str (fuel + k) = Some r.
Proof.
  unfold main. destruct (_ <- _ ;; _) as [[s w] | e]; [| auto].
  destruct (snd (loop display s fuel 0 w)) as [e |] eqn:E; [| discriminate].
  now rewrite (loop_exception_stable _ _ _ k _ _ _ E).
Qed.

(** * Further properties of the script *)

(** ** What every index satisfies *)

Lemma foldM_invariant {A St : Type} (P : St -> Prop)
  (f : St -> A -> result St) (l : list A) (s0 s : St) :
  (forall s x s', P s -> f s x = Ok s' -> P s') ->
  P s0 -> foldM f l s0 = Ok s -> P s.
Proof.
  intros Hstep. revert s0; induction l as [| x l IH]; simpl; intros s0 H0 H.
  - now injection H as <-.
  - inv_bind H. eauto.
Qed.

Lemma Z_eqb_spec (x y : Z) : reflect (x = y) (Z.eqb x y).
Proof. apply Z.eqb_spec. Qed.

Lemma set_entry_keys (dev : string) (ts : Z) (entry : list string)
  (d d' : ts_dict) :
  set_entry dev ts entry d = Ok d' -> keys d' = keys d.
Proof.
  intros H. apply set_entry_inv in H as (D & HD & ->).
  apply (keys_dict_set_present _ String.eqb_spec).
  exact (dict_get_Some_keys String.eqb String.eqb_spec _ _ _ HD).
Qed.

Lemma set_entry_wf (dev file calib_file : string) (ts : Z) (d d' : ts_dict) :
  timestamp_of file = Ok ts ->
  set_entry dev ts [calib_file; file] d = Ok d' ->
  entries_wf d -> entries_wf d'.
Proof.
  intros Hts H Hwf. apply set_entry_inv in H as (D & HD & ->).
  intros dev' D' ts' entry.
  destruct (String.eqb_spec dev' dev) as [-> | N].
  - rewrite (dict_get_set_eq _ String.eqb_spec). intros [= <-].
    destruct (Z.eqb_spec ts' ts) as [-> | Nz].
    + rewrite (dict_get_set_eq _ Z_eqb_spec). intros [= <-]. eauto.
    + rewrite (dict_get_set_neq _ Z_eqb_spec) by assumption.
      apply (Hwf dev D ts' entry HD).
  - rewrite (dict_get_set_neq _ String.eqb_spec) by assumption.
    apply Hwf.
Qed.

Lemma index_row_keeps (num_dev : nat) (data_tuple : list string)
  (cd dd cd' dd' : ts_dict) (i : nat) :
  index_row num_dev data_tuple (cd, dd) i = Ok (cd', dd') ->
  (keys cd' = keys cd /\ keys dd' = keys dd) /\
  (entries_wf cd -> entries_wf cd') /\
  (entries_wf dd -> entries_wf dd').
Proof.
  unfold index_row. intros H.
  inv_bind H. inv_bind H. inv_bind H. inv_bind H.
  inv_bind H. rename Hm3 into Hcts. inv_bind H. rename Hm3 into Hdts.
  inv_bind H. rename Hm3 into Hcd. inv_bind H. rename Hm3 into Hdd.
  injection H as <- <-.
  split; [split; eapply set_entry_keys; eauto |].
  split; intros Hwf.
  - exact (set_entry_wf _ _ _ _ _ _ Hcts Hcd Hwf).
  - exact (set_entry_wf _ _ _ _ _ _ Hdts Hdd Hwf).
Qed.

(** The dictionaries of an index have the devices of [get_calib] as their
    keys, and well-formed entries, whatever the scans returned. *)
Lemma build_index_keeps (cfs dfs : dict string (list string))
  (calib : dict string string) (cd dd : ts_dict) (nd nv : nat) :
  build_index cfs dfs calib = Ok (cd, dd, nd, nv) ->
  keys cd = keys calib /\ keys dd = keys calib /\
  entries_wf cd /\ entries_wf dd /\
  nv = List.length (keys calib) /\
  hd_error (map (@List.length string) (values cfs)) = Some nd.
Proof.
  unfold build_index. intros H.
  destruct (hd_error (values cfs)) as [first |] eqn:Eh; simpl in H;
    [| discriminate].
  inv_bind H. destruct a as [cd1 dd1]. injection H as <- <- <- <-.
  pose (P := fun acc : ts_dict * ts_dict =>
               (keys (fst acc) = keys calib /\ keys (snd acc) = keys calib) /\
               entries_wf (fst acc) /\ entries_wf (snd acc)).
  assert (HP : P (cd1, dd1)).
  { refine (foldM_invariant P _ _ _ _ _ _ Hm).
    - intros acc row acc' Hacc Hrow.
      refine (foldM_invariant P _ _ _ _ _ Hacc Hrow).
      intros [c0 d0] i [c1 d1] [[K1 K2] [W1 W2]] Hi.
      apply index_row_keeps in Hi as ([K1' K2'] & W1' & W2').
      unfold P. simpl in *. repeat split; auto; congruence.
    - unfold P. simpl. rewrite empty_dicts_keys.
      repeat split; auto; intros dev D ts entry HD Hts;
        assert (D = []) as ->
          by (clear - HD; induction (keys calib) as [| k l IH]; simpl in HD;
              [discriminate
              | destruct (String.eqb dev k); [now injection HD | auto]]);
        discriminate. }
  destruct HP as [[K1 K2] [W1 W2]]. simpl in *.
  repeat split; auto.
  destruct (values cfs); simpl in *; [discriminate | now injection Eh as ->].
Qed.

Lemma index_from_scans (os_listdir : string -> option (list string))
  (r : ts_dict * ts_dict * nat * nat) :
  get_filepaths_with_timestamps os_listdir = Ok r ->
  exists cfs dfs calib,
    get_filepaths os_listdir PATH "color" = Ok cfs /\
    get_filepaths os_listdir PATH "depth" = Ok dfs /\
    get_calib os_listdir PATH = Ok calib /\
    build_index cfs dfs calib = Ok r.
Proof.
  unfold get_filepaths_with_timestamps. intros H.
  inv_bind H. inv_bind H. inv_bind H. eauto 10.
Qed.

Lemma index_devices_are_calibrated_aux
  (os_listdir : string -> option (list string))
  (cd dd : ts_dict) (nd nv : nat) :
  get_filepaths_with_timestamps os_listdir = Ok (cd, dd, nd, nv) ->
  keys dd = keys cd /\ NoDup (keys cd) /\ nv = List.length (keys cd).
Proof.
  intros H.
  apply index_from_scans in H as (cfs & dfs & calib & Hc & Hd & Hk & H).
  apply build_index_keeps in H as (K1 & K2 & _ & _ & Hn & Hnd).
  apply get_calib_keys_NoDup in Hk. rewrite K1, K2. auto.
Qed.

Lemma index_entries_wf_aux
  (os_listdir : string -> option (list string))
  (cd dd : ts_dict) (nd nv : nat) :
  get_filepaths_with_timestamps os_listdir = Ok (cd, dd, nd, nv) ->
  entries_wf cd /\ entries_wf dd.
Proof.
  intros H.
  apply index_from_scans in H as (cfs & dfs & calib & _ & _ & _ & H).
  now apply build_index_keeps in H as (_ & _ & W1 & W2 & _).
Qed.

(** X1.  The index holds exactly the devices [get_calib] has a file for,
    in the same order and each once, in both dictionaries; a device
    without a calibration file is left out without any error.  [num_dev]
    is the number of these devices and [num_data] the length of the first
    colour list. *)
Theorem index_devices_are_calibrated
  (os_listdir : string -> option (list string))
  (cd dd : ts_dict) (nd nv : nat) :
  get_filepaths_with_timestamps os_listdir = Ok (cd, dd, nd, nv) ->
  exists cfs calib,
    get_filepaths os_listdir PATH "color" = Ok cfs /\
    get_calib os_listdir PATH = Ok calib /\
    keys cd = keys calib /\ keys dd = keys calib /\
    NoDup (keys calib) /\
    nv = List.length (keys calib) /\
    hd_error (map (@List.length string) (values cfs)) = Some nd.
Proof.
  intros H.
  apply index_from_scans in H as (cfs & dfs & calib & Hc & Hd & Hk & H).
  apply build_index_keeps in H as (K1 & K2 & _ & _ & Hn & Hnd).
  exists cfs, calib. repeat split; auto.
  now apply get_calib_keys_NoDup in Hk.
Qed.

Lemma index_devices_are_calibrated_witness :
  exists cd dd nd nv,
    get_filepaths_with_timestamps uneven = Ok (cd, dd, nd, nv) /\
    keys cd = ["A"; "B"] /\ nd = 3%nat /\ nv = 2%nat /\
    exists cfs calib,
      get_filepaths uneven PATH "color" = Ok cfs /\
      get_calib uneven PATH = Ok calib /\
      keys cd = keys calib /\ keys dd = keys calib /\
      NoDup (keys calib) /\
      nv = List.length (keys calib) /\
      hd_error (map (@List.length string) (values cfs)) = Some nd.
Proof.
  eexists. eexists. eexists. eexists.
  split; [vm_compute; reflexivity |].
  split; [reflexivity |]. split; [reflexivity |]. split; [reflexivity |].
  apply (index_devices_are_calibrated uneven). vm_compute. reflexivity.
Defined.

(** X2.  Every entry of the index is the pair of a calibration file and a
    data file, and the key it is stored under is the timestamp parsed from
    the name of that data file. *)
Theorem index_entries_well_formed
  (os_listdir : string -> option (list string))
  (cd dd : ts_dict) (nd nv : nat) :
  get_filepaths_with_timestamps os_listdir = Ok (cd, dd, nd, nv) ->
  entries_wf cd /\ entries_wf dd.
Proof.
  intros H.
  apply index_from_scans in H as (cfs & dfs & calib & _ & _ & _ & H).
  now apply build_index_keeps in H as (_ & _ & W1 & W2 & _).
Qed.

Lemma index_entries_well_formed_witness :
  exists cd dd nd nv,
    get_filepaths_with_timestamps two_sessions = Ok (cd, dd, nd, nv) /\
    entries_wf cd /\ entries_wf dd.
Proof.
  eexists. eexists. eexists. eexists.
  split; [vm_compute; reflexivity |].
  apply (index_entries_well_formed two_sessions _ _ 2%nat 1%nat).
  vm_compute. reflexivity.
Defined.

(** ** The session the script opens *)

Lemma start_inv (cd dd : ts_dict) (nd nv : nat) (s : session) (w0 : Z) :
  start (cd, dd, nd, nv) = Ok (s, w0) ->
  s = {| color_dict := cd; depth_dict := dd;
         dev_color_ts := sequences cd; dev_depth_ts := sequences dd;
         dev_list := keys cd;
         counter_color := repeat 0%nat nv;
         counter_depth := repeat 0%nat nv |} /\
  exists fc fd mc md,
    mapM (fun i : dict Z (list string) => py_first (keys i)) (values cd) = Ok fc /\
    py_max fc = Ok mc /\
    mapM (fun i : dict Z (list string) => py_first (keys i)) (values dd) = Ok fd /\
    py_max fd = Ok md /\
    w0 = Z.max mc md.
Proof.
  unfold start. intros H.
  inv_bind H. rename a into fc, Hm into Hfc.
  inv_bind H. rename a into mc, Hm into Hmc.
  inv_bind H. rename a into fd, Hm into Hfd.
  inv_bind H. rename a into md, Hm into Hmd.
  inv_bind H. simpl in Hm. injection Hm as <-. injection H as <- <-.
  split; [reflexivity |]. exists fc, fd, mc, md. auto.
Qed.

Lemma opened_inv (os_listdir : string -> option (list string))
  (s : session) (w0 : Z) :
  opened os_listdir = Ok (s, w0) ->
  exists cd dd nd nv,
    get_filepaths_with_timestamps os_listdir = Ok (cd, dd, nd, nv) /\
    start (cd, dd, nd, nv) = Ok (s, w0).
Proof.
  unfold opened. intros H. inv_bind H. destruct a as [[[cd dd] nd] nv].
  eauto 10.
Qed.

Lemma sequences_get (d : ts_dict) (dev : string) :
  dict_get String.eqb dev (sequences d)
  = option_map (@keys Z (list string)) (dict_get String.eqb dev d).
Proof.
  induction d as [| [k v] d IH]; simpl; [reflexivity |].
  destruct (String.eqb dev k); [reflexivity | exact IH].
Qed.

Lemma sequences_keys (d : ts_dict) : keys (sequences d) = keys d.
Proof.
  unfold sequences, keys. rewrite map_map. apply map_ext. now intros [k v].
Qed.

Lemma sequences_In (d : ts_dict) (dev : string) (tss : list Z) :
  In (dev, tss) (sequences d) <-> exists D, In (dev, D) d /\ tss = keys D.
Proof.
  unfold sequences. rewrite in_map_iff. split.
  - intros ([k v] & E & Hin). injection E as -> <-. eauto.
  - intros (D & Hin & ->). exists (dev, D). auto.
Qed.

Lemma mapM_In {A B : Type} (f : A -> result B) (l : list A) (r : list B)
  (x : A) :
  mapM f l = Ok r -> In x l -> exists y, In y r /\ f x = Ok y.
Proof.
  revert r; induction l as [| a l IH]; simpl; intros r H Hin; [easy |].
  inv_bind H. inv_bind H. injection H as <-.
  destruct Hin as [-> | Hin].
  - exists a0. split; [now left | assumption].
  - destruct (IH _ Hm0 Hin) as (y & Hy & Hf). exists y. split; [now right | auto].
Qed.

Lemma mapM_In_result {A B : Type} (f : A -> result B) (l : list A)
  (r : list B) (y : B) :
  mapM f l = Ok r -> In y r -> exists x, In x l /\ f x = Ok y.
Proof.
  revert r; induction l as [| a l IH]; simpl; intros r H Hin.
  - injection H as <-. contradiction.
  - inv_bind H. inv_bind H. injection H as <-.
    destruct Hin as [<- | Hin].
    + exists a. auto.
    + destruct (IH _ Hm0 Hin) as (x & Hx & Hf). exists x. auto.
Qed.

Lemma py_first_hd {A : Type} (l : list A) (x : A) :
  py_first l = Ok x <-> hd_error l = Some x.
Proof.
  destruct l; simpl; split; intros H; try discriminate;
    injection H as ->; reflexivity.
Qed.

Lemma firsts_bound (d : ts_dict) (f : list Z) (m : Z) :
  mapM (fun i : dict Z (list string) => py_first (keys i)) (values d) = Ok f ->
  py_max f = Ok m ->
  (forall dev tss, In (dev, tss) (sequences d) ->
                   exists t, hd_error tss = Some t /\ (t <= m)%Z) /\
  (exists dev tss, In (dev, tss) (sequences d) /\ hd_error tss = Some m).
Proof.
  intros Hf Hm. apply py_max_spec in Hm as [Hin Hup]. split.
  - intros dev tss Hs. apply sequences_In in Hs as (D & HD & ->).
    assert (HV : In D (values d)) by (apply (in_map snd) in HD; exact HD).
    destruct (mapM_In _ _ _ _ Hf HV) as (t & Ht & Hfirst).
    exists t. split; [now apply py_first_hd | auto].
  - destruct (mapM_In_result _ _ _ _ Hf Hin) as (D & HD & Hfirst).
    unfold values in HD. apply in_map_iff in HD as ([dev D'] & E & HD).
    simpl in E. subst D'. exists dev, (keys D).
    split; [apply sequences_In; eauto | now apply py_first_hd].
Qed.

(** X3.  The watermark the loop starts with is the greatest of the first
    timestamps of all the colour and depth sequences: every sequence is
    non-empty and starts at or before it, and one of them starts at it. *)
Theorem initial_watermark_is_greatest_first
  (os_listdir : string -> option (list string)) (s : session) (w0 : Z) :
  opened os_listdir = Ok (s, w0) ->
  (forall dev tss, In (dev, tss) (streams s) ->
                   exists t, hd_error tss = Some t /\ (t <= w0)%Z) /\
  (exists dev tss, In (dev, tss) (streams s) /\ hd_error tss = Some w0).
Proof.
  intros H. apply opened_inv in H as (cd & dd & nd & nv & _ & H).
  apply start_inv in H as (-> & fc & fd & mc & md & Hfc & Hmc & Hfd & Hmd & ->).
  destruct (firsts_bound _ _ _ Hfc Hmc) as (Bc & dc & tc & Ic & Ec).
  destruct (firsts_bound _ _ _ Hfd Hmd) as (Bd & ddv & td & Id & Ed).
  unfold streams. simpl. split.
  - intros dev tss Hin. apply in_app_or in Hin as [Hin | Hin].
    + destruct (Bc _ _ Hin) as (t & Ht & Hle). exists t. split; [auto | lia].
    + destruct (Bd _ _ Hin) as (t & Ht & Hle). exists t. split; [auto | lia].
  - destruct (Z.max_spec mc md) as [[_ ->] | [_ ->]].
    + exists ddv, td. split; [apply in_or_app; now right | exact Ed].
    + exists dc, tc. split; [apply in_or_app; now left | exact Ec].
Qed.

Lemma initial_watermark_is_greatest_first_witness :
  (forall dev tss, In (dev, tss) (streams two_devices_session) ->
                   exists t, hd_error tss = Some t /\ (t <= 155)%Z) /\
  (exists dev tss, In (dev, tss) (streams two_devices_session) /\
                   hd_error tss = Some 155%Z).
Proof.
  apply (initial_watermark_is_greatest_first two_devices).
  vm_compute. reflexivity.
Defined.

Lemma num_rows_empty_list (cfs dfs : dict string (list string)) :
  In [] (values cfs ++ values dfs) -> num_rows cfs dfs = 0%nat.
Proof.
  intros H. apply num_rows_le in H. simpl in H. lia.
Qed.

Lemma build_index_no_rows (cfs dfs : dict string (list string))
  (calib : dict string string) (first : list string) :
  hd_error (values cfs) = Some first ->
  num_rows cfs dfs = 0%nat ->
  build_index cfs dfs calib
  = Ok (map (fun dev => (dev, [])) (keys calib),
        map (fun dev => (dev, [])) (keys calib),
        List.length first, List.length (keys calib)).
Proof.
  intros Hf Hn. unfold build_index. rewrite Hf. simpl.
  pose proof (build_index_row_count cfs dfs calib first Hf) as L.
  rewrite Hn in L. apply length_zero_iff_nil in L. rewrite L. reflexivity.
Qed.

(** X4.  When some colour or depth list is empty and some device has a
    calibration file, the script stops with [IndexError] before it enters
    the loop (line 41 if there is no device list at all, line 83
    otherwise): nothing is printed and the exit status is 1. *)
Theorem empty_stream_stops_before_loop
  (os_listdir : string -> option (list string))
  (display : nat -> list (string * string * string) -> result unit)
  (str : exn -> string) (fuel : nat)
  (cfs dfs : dict string (list string)) (calib : dict string string) :
  get_filepaths os_listdir PATH "color" = Ok cfs ->
  get_filepaths os_listdir PATH "depth" = Ok dfs ->
  get_calib os_listdir PATH = Ok calib ->
  keys calib <> [] ->
  In [] (values cfs ++ values dfs) ->
  opened os_listdir = Raise IndexError /\
  main os_listdir display str fuel = Some ([], 1%Z).
Proof.
  intros Hc Hd Hk Hne Hin.
  assert (Ho : opened os_listdir = Raise IndexError).
  { unfold opened. rewrite (scans_build _ _ _ _ Hc Hd Hk).
    destruct (hd_error (values cfs)) as [first |] eqn:Hf.
    - rewrite (build_index_no_rows _ _ _ _ Hf (num_rows_empty_list _ _ Hin)).
      simpl. unfold start.
      destruct (keys calib) as [| d0 devs]; [congruence |]. reflexivity.
    - unfold build_index. rewrite Hf. reflexivity. }
  split; [exact Ho |].
  unfold main. fold (opened os_listdir). now rewrite Ho.
Qed.

Lemma empty_stream_stops_before_loop_witness :
  opened empty_depth = Raise IndexError /\
  main empty_depth quiet (fun _ => "") 7 = Some ([], 1%Z).
Proof.
  eapply (empty_stream_stops_before_loop empty_depth quiet (fun _ => "") 7).
  - vm_compute. reflexivity.
  - vm_compute. reflexivity.
  - vm_compute. reflexivity.
  - discriminate.
  - vm_compute. right. left. reflexivity.
Defined.

Lemma opened_session (os_listdir : string -> option (list string))
  (s : session) (w0 : Z) :
  opened os_listdir = Ok (s, w0) ->
  exists cd dd nv, s = session_over cd dd nv /\ index_wf cd dd nv.
Proof.
  intros H. apply opened_inv in H as (cd & dd & nd & nv & Hidx & H).
  apply start_inv in H as (-> & fc & fd & mc & md & Hfc & Hmc & _).
  destruct (index_devices_are_calibrated_aux os_listdir cd dd nd nv Hidx)
    as (K1 & K2 & Hnv).
  destruct (index_entries_wf_aux os_listdir cd dd nd nv Hidx) as [W1 W2].
  exists cd, dd, nv. split; [reflexivity |].
  repeat split; auto.
  intros E. destruct fc as [| x fc]; [discriminate |].
  pose proof (mapM_length _ _ _ Hfc) as L. rewrite values_length, E in L.
  discriminate.
Qed.

(** ** One alignment step of an opened session *)

Lemma find_first_cases (tss : list Z) (w : Z) (k : nat) :
  (exists j t,
      find (fun x => (w <=? snd x)%Z) (enumerate_from k tss) = Some (j, t) /\
      first_at_or_after tss w t) \/
  (find (fun x => (w <=? snd x)%Z) (enumerate_from k tss) = None /\
   forall x, In x tss -> (x < w)%Z).
Proof.
  revert k; induction tss as [| x tss IH]; intros k; simpl.
  - right. split; [reflexivity | intros ? []].
  - destruct (Z.leb_spec w x) as [Hle | Hlt].
    + left. exists k, x. split; [reflexivity |].
      exists [], tss. repeat split; auto. intros ? [].
    + destruct (IH (S k)) as [(j & t & Hf & pre & post & -> & Hw & Hpre)
                             | [Hf Hall]].
      * left. exists j, t. split; [exact Hf |].
        exists (x :: pre), post. repeat split; auto.
        intros y [<- | Hy]; auto.
      * right. split; [exact Hf |]. intros y [<- | Hy]; auto.
Qed.

Lemma scan_cases (tss : list Z) (w : Z) :
  (exists p, scan tss 0 w = Ok p /\ first_at_or_after tss w (snd p)) \/
  (scan tss 0 w = Raise StopIteration /\ forall x, In x tss -> (x < w)%Z).
Proof.
  unfold scan, py_next, enumerate. simpl.
  destruct (find_first_cases tss w 0) as [(j & t & -> & H) | [-> H]].
  - left. exists (j, t). auto.
  - right. auto.
Qed.

Lemma first_at_or_after_In (tss : list Z) (w t : Z) :
  first_at_or_after tss w t -> In t tss /\ (w <= t)%Z.
Proof.
  intros (pre & post & -> & Hw & _). split; [| exact Hw].
  apply in_or_app. right. now left.
Qed.

Lemma py_index_zeros (n i : nat) :
  (i < n)%nat -> py_index (repeat 0%nat n) i = Ok 0%nat.
Proof.
  intros H. unfold py_index.
  destruct (nth_error (repeat 0%nat n) i) as [c |] eqn:E.
  - apply nth_error_In, repeat_spec in E. now subst.
  - apply nth_error_None in E. rewrite repeat_length in E. lia.
Qed.

Section OpenedStep.
Variables (cd dd : ts_dict) (nv : nat).
Hypothesis wf : index_wf cd dd nv.

Lemma device_dicts (i : nat) (dev : string) :
  nth_error (keys cd) i = Some dev ->
  (i < nv)%nat /\
  exists Dc Dd,
    dict_get String.eqb dev cd = Some Dc /\
    dict_get String.eqb dev dd = Some Dd.
Proof.
  destruct wf as (Kd & _ & Hnv & _). intros Hi.
  assert (Hin : In dev (keys cd)) by (eapply nth_error_In; eauto).
  destruct (dict_get_present _ _ Hin) as (Dc & HDc).
  rewrite <- Kd in Hin. destruct (dict_get_present _ _ Hin) as (Dd & HDd).
  split; [rewrite Hnv; apply nth_error_Some; congruence | eauto].
Qed.

(** What line 96-107 do for one device of the session. *)
Lemma pick_scans (w : Z) (i : nat) (dev : string)
  (Dc Dd : dict Z (list string)) :
  nth_error (keys cd) i = Some dev ->
  dict_get String.eqb dev cd = Some Dc ->
  dict_get String.eqb dev dd = Some Dd ->
  pick (session_over cd dd nv) w (i, dev)
  = (p <- scan (keys Dc) 0 w ;; q <- scan (keys Dd) 0 w ;;
     Ok (snd p, snd q)).
Proof.
  intros Hi HDc HDd. destruct (device_dicts i dev Hi) as (Hlt & _).
  unfold pick, session_over, dict_lookup. simpl.
  rewrite !sequences_get, HDc, HDd. simpl.
  rewrite (py_index_zeros _ _ Hlt). simpl.
  destruct (scan (keys Dc) 0 w); simpl; reflexivity.
Qed.

Lemma pick_cases (w : Z) (i : nat) (dev : string) :
  nth_error (keys cd) i = Some dev ->
  (exists y, pick (session_over cd dd nv) w (i, dev) = Ok y) \/
  (pick (session_over cd dd nv) w (i, dev) = Raise StopIteration /\
   exists tss, In (dev, tss) (streams (session_over cd dd nv)) /\
               forall x, In x tss -> (x < w)%Z).
Proof.
  intros Hi. destruct (device_dicts i dev Hi) as (_ & Dc & Dd & HDc & HDd).
  rewrite (pick_scans w i dev Dc Dd Hi HDc HDd).
  unfold streams. simpl.
  destruct (scan_cases (keys Dc) w) as [(p & -> & _) | [-> Hc]]; simpl.
  - destruct (scan_cases (keys Dd) w) as [(q & -> & _) | [-> Hd]]; simpl.
    + left. eauto.
    + right. split; [reflexivity |]. exists (keys Dd). split; [| exact Hd].
      apply in_or_app. right. apply sequences_In. exists Dd.
      split; [| reflexivity]. now apply (dict_get_In _ String.eqb_spec).
  - right. split; [reflexivity |]. exists (keys Dc). split; [| exact Hc].
    apply in_or_app. left. apply sequences_In. exists Dc.
    split; [| reflexivity]. now apply (dict_get_In _ String.eqb_spec).
Qed.
End OpenedStep.

Lemma enumerate_from_In {A : Type} (l : list A) (k i : nat) (x : A) :
  In (i, x) (enumerate_from k l) ->
  (k <= i)%nat /\ nth_error l (i - k) = Some x.
Proof.
  revert k; induction l as [| a l IH]; simpl; intros k H; [easy |].
  destruct H as [E | H].
  - injection E as <- <-. rewrite Nat.sub_diag. auto.
  - apply IH in H as [Hle Hn]. split; [lia |].
    replace (i - k)%nat with (S (i - S k)) by lia. exact Hn.
Qed.

Lemma enumerate_In {A : Type} (l : list A) (i : nat) (x : A) :
  In (i, x) (enumerate l) -> nth_error l i = Some x.
Proof.
  intros H. apply enumerate_from_In in H as [_ H].
  now rewrite Nat.sub_0_r in H.
Qed.

Lemma enumerate_length {A : Type} (l : list A) :
  List.length (enumerate l) = List.length l.
Proof.
  unfold enumerate. generalize 0%nat.
  induction l as [| a l IH]; simpl; intros k; [reflexivity | now rewrite IH].
Qed.

Lemma mapM_cases {A B : Type} (f : A -> result B) (e0 : exn) (l : list A) :
  (forall x, In x l -> (exists y, f x = Ok y) \/ f x = Raise e0) ->
  (exists ys, mapM f l = Ok ys) \/
  (mapM f l = Raise e0 /\ exists x, In x l /\ f x = Raise e0).
Proof.
  induction l as [| a l IH]; intros H; simpl; [left; eauto |].
  destruct (H a (or_introl eq_refl)) as [(y & ->) | Ha]; simpl.
  - destruct IH as [(ys & ->) | (-> & x & Hx & Hfx)]; simpl.
    + intros x Hx. apply H. now right.
    + left. eauto.
    + right. split; [reflexivity |]. exists x. split; [now right | exact Hfx].
  - right. rewrite Ha. split; [reflexivity |]. exists a. split; [now left | auto].
Qed.

Lemma dict_get_nth_NoDup {V : Type} (d : dict string V) (i : nat)
  (k : string) (v : V) :
  NoDup (keys d) -> nth_error d i = Some (k, v) ->
  dict_get String.eqb k d = Some v.
Proof.
  revert i; induction d as [| [k0 v0] d IH]; simpl; intros i Hnd Hi.
  - destruct i; discriminate.
  - inversion Hnd as [| ? ? Hnotin Hnd']; subst.
    destruct i as [| i]; simpl in Hi.
    + injection Hi as -> ->. now rewrite String.eqb_refl.
    + destruct (String.eqb_spec k k0) as [-> | N]; [| eauto].
      exfalso. apply Hnotin. apply nth_error_In in Hi.
      apply (in_map fst) in Hi. exact Hi.
Qed.

Section OpenedAlign.
Variables (cd dd : ts_dict) (nv : nat).
Hypothesis wf : index_wf cd dd nv.

Lemma align_cases (w : Z) :
  (exists b, align (session_over cd dd nv) w = Ok b) \/
  (align (session_over cd dd nv) w = Raise StopIteration /\
   exists dev tss,
     In (dev, tss) (streams (session_over cd dd nv)) /\
     forall x, In x tss -> (x < w)%Z).
Proof.
  unfold align. rewrite select_picks.
  destruct (mapM_cases (pick (session_over cd dd nv) w) StopIteration
              (enumerate (dev_list (session_over cd dd nv))))
    as [(ps & Hps) | (Hps & [i dev] & Hin & Hpick)].
  - intros [i dev] Hin. apply enumerate_In in Hin.
    destruct (pick_cases cd dd nv wf w i dev Hin) as [H | [H _]]; auto.
  - left. rewrite Hps. simpl.
    destruct (map fst ps ++ map snd ps) as [| x l] eqn:E.
    + exfalso. destruct wf as (_ & _ & _ & Hne & _).
      apply mapM_length in Hps. rewrite enumerate_length in Hps.
      destruct ps; [| discriminate]. simpl in Hps.
      destruct (keys cd); [congruence | discriminate].
    + simpl. eauto.
  - right. rewrite Hps. split; [reflexivity |].
    apply enumerate_In in Hin.
    destruct (pick_cases cd dd nv wf w i dev Hin) as [(y & Hy) | [_ (tss & H)]];
      [congruence | eauto].
Qed.

Lemma align_ok_pick (w : Z) (b : bundle) (i : nat) (dev : string) :
  align (session_over cd dd nv) w = Ok b ->
  nth_error (keys cd) i = Some dev ->
  exists Dc Dd p q,
    dict_get String.eqb dev cd = Some Dc /\
    dict_get String.eqb dev dd = Some Dd /\
    scan (keys Dc) 0 w = Ok p /\ scan (keys Dd) 0 w = Ok q /\
    nth_error (chosen_color b) i = Some (snd p) /\
    nth_error (chosen_depth b) i = Some (snd q).
Proof.
  intros Hal Hi.
  destruct (align_inv _ _ _ Hal) as (ps & Hps & _ & Hc & Hd & _).
  pose proof (enumerate_from_nth _ 0 _ _ Hi) as Hen. simpl in Hen.
  destruct (mapM_nth _ _ _ _ _ Hps Hen) as (y & Hnth & Hpick).
  destruct (device_dicts cd dd nv wf i dev Hi) as (_ & Dc & Dd & HDc & HDd).
  rewrite (pick_scans cd dd nv wf w i dev Dc Dd Hi HDc HDd) in Hpick.
  inv_bind Hpick. inv_bind Hpick. injection Hpick as <-.
  exists Dc, Dd, a, a0. rewrite Hc, Hd.
  rewrite (map_nth_error fst _ _ Hnth), (map_nth_error snd _ _ Hnth). auto 10.
Qed.

Lemma align_ok_streams (w : Z) (b : bundle) (dev : string) (tss : list Z) :
  align (session_over cd dd nv) w = Ok b ->
  In (dev, tss) (streams (session_over cd dd nv)) ->
  exists t, In t tss /\ (w <= t)%Z.
Proof.
  intros Hal Hin. destruct wf as (Kd & Hnd & _).
  unfold streams in Hin. simpl in Hin.
  apply in_app_or in Hin as [Hin | Hin];
    apply sequences_In in Hin as (D & HD & ->);
    apply In_nth_error in HD as (i & Hi).
  - assert (Hk : nth_error (keys cd) i = Some dev)
      by (unfold keys; now rewrite (map_nth_error fst _ _ Hi)).
    destruct (align_ok_pick w b i dev Hal Hk)
      as (Dc & Dd & p & q & HDc & _ & Hp & _).
    rewrite (dict_get_nth_NoDup _ _ _ _ Hnd Hi) in HDc. injection HDc as <-.
    destruct (scan_cases (keys D) w) as [(p' & E & F) | [E _]];
      [| congruence].
    exists (snd p'). now apply first_at_or_after_In.
  - assert (Hk : nth_error (keys cd) i = Some dev)
      by (rewrite <- Kd; unfold keys; now rewrite (map_nth_error fst _ _ Hi)).
    destruct (align_ok_pick w b i dev Hal Hk)
      as (Dc & Dd & p & q & _ & HDd & _ & Hq & _).
    rewrite <- Kd in Hnd.
    rewrite (dict_get_nth_NoDup _ _ _ _ Hnd Hi) in HDd. injection HDd as <-.
    destruct (scan_cases (keys D) w) as [(q' & E & F) | [E _]];
      [| congruence].
    exists (snd q'). now apply first_at_or_after_In.
Qed.
End OpenedAlign.

(** X5.  In a session the script opened, an alignment step can fail in one
    way only: it raises [StopIteration], and it does so exactly when some
    colour or depth sequence has no timestamp at or after the watermark;
    it raises no [KeyError], [IndexError] or [ValueError]. *)
Theorem step_ends_only_by_exhaustion
  (os_listdir : string -> option (list string)) (s : session) (w0 w : Z) :
  opened os_listdir = Ok (s, w0) ->
  (exists b,
      align s w = Ok b /\
      forall dev tss, In (dev, tss) (streams s) ->
                      exists t, In t tss /\ (w <= t)%Z) \/
  (align s w = Raise StopIteration /\
   exists dev tss,
     In (dev, tss) (streams s) /\ forall t, In t tss -> (t < w)%Z).
Proof.
  intros H. apply opened_session in H as (cd & dd & nv & -> & wf).
  destruct (align_cases cd dd nv wf w) as [(b & Hb) | H].
  - left. exists b. split; [exact Hb |].
    intros dev tss. now apply (align_ok_streams cd dd nv wf w b).
  - right. exact H.
Qed.

Lemma step_ends_only_by_exhaustion_witness :
  (exists b,
      align two_devices_session 306 = Ok b /\
      forall dev tss, In (dev, tss) (streams two_devices_session) ->
                      exists t, In t tss /\ (306 <= t)%Z) \/
  (align two_devices_session 306 = Raise StopIteration /\
   exists dev tss,
     In (dev, tss) (streams two_devices_session) /\
     forall t, In t tss -> (t < 306)%Z).
Proof.
  apply (step_ends_only_by_exhaustion two_devices two_devices_session 155).
  vm_compute. reflexivity.
Defined.

Lemma scan_first (tss : list Z) (w : Z) (p : nat * Z) :
  scan tss 0 w = Ok p -> first_at_or_after tss w (snd p).
Proof.
  intros H. destruct (scan_cases tss w) as [(p' & E & F) | [E _]];
    [| congruence].
  rewrite H in E. now injection E as <-.
Qed.

(** X6.  In a session the script opened, whatever the order of the
    sequences, the timestamp an alignment step chooses for a stream is the
    first one, in the order of the sequence, that is at or after the
    watermark: every timestamp before it in the sequence is below the
    watermark. *)
Theorem selection_is_first_at_or_after
  (os_listdir : string -> option (list string)) (s : session) (w0 w : Z)
  (b : bundle) (i : nat) (dev : string) :
  opened os_listdir = Ok (s, w0) ->
  align s w = Ok b ->
  nth_error (dev_list s) i = Some dev ->
  exists ctss dtss ct dt,
    dict_get String.eqb dev (dev_color_ts s) = Some ctss /\
    dict_get String.eqb dev (dev_depth_ts s) = Some dtss /\
    nth_error (chosen_color b) i = Some ct /\
    nth_error (chosen_depth b) i = Some dt /\
    first_at_or_after ctss w ct /\
    first_at_or_after dtss w dt.
Proof.
  intros H Hal Hi. apply opened_session in H as (cd & dd & nv & -> & wf).
  destruct (align_ok_pick cd dd nv wf w b i dev Hal Hi)
    as (Dc & Dd & p & q & HDc & HDd & Hp & Hq & Hc & Hd).
  exists (keys Dc), (keys Dd), (snd p), (snd q). simpl.
  rewrite !sequences_get, HDc, HDd. simpl.
  repeat split; auto using scan_first.
Qed.

Lemma selection_is_first_at_or_after_witness :
  exists b ctss dtss ct dt,
    align two_devices_session 155 = Ok b /\
    dict_get String.eqb "A" (dev_color_ts two_devices_session) = Some ctss /\
    dict_get String.eqb "A" (dev_depth_ts two_devices_session) = Some dtss /\
    nth_error (chosen_color b) 0 = Some ct /\
    nth_error (chosen_depth b) 0 = Some dt /\
    first_at_or_after ctss 155 ct /\
    first_at_or_after dtss 155 dt.
Proof.
  eexists.
  assert (H : align two_devices_session 155 = Ok _)
    by (vm_compute; reflexivity).
  destruct (selection_is_first_at_or_after two_devices two_devices_session
              155 155 _ 0 "A" two_devices_opened H eq_refl)
    as (ctss & dtss & ct & dt & G).
  exists ctss, dtss, ct, dt. split; [exact H | exact G].
Defined.

(** ** The files handed to the display *)

Lemma mapM_all_ok {A B : Type} (f : A -> result B) (l : list A) :
  (forall x, In x l -> exists y, f x = Ok y) -> exists ys, mapM f l = Ok ys.
Proof.
  induction l as [| a l IH]; intros H; simpl; [eauto |].
  destruct (H a (or_introl eq_refl)) as (y & ->). simpl.
  destruct IH as (ys & ->); [intros x Hx; apply H; now right |].
  simpl. eauto.
Qed.

Lemma mapM_nth_result {A B : Type} (f : A -> result B) (l : list A)
  (r : list B) (i : nat) (y : B) :
  mapM f l = Ok r -> nth_error r i = Some y ->
  exists x, nth_error l i = Some x /\ f x = Ok y.
Proof.
  revert r i; induction l as [| a l IH]; simpl; intros r i H Hi.
  - injection H as <-. destruct i; discriminate.
  - inv_bind H. inv_bind H. injection H as <-.
    destruct i as [| i]; simpl in *.
    + injection Hi as <-. eauto.
    + eauto.
Qed.

Lemma dict_get_key_present (D : dict Z (list string)) (t : Z) :
  In t (keys D) -> exists entry, dict_get Z.eqb t D = Some entry.
Proof.
  intros H. destruct (dict_get Z.eqb t D) eqn:E; [eauto |].
  now apply (dict_get_keys _ Z_eqb_spec) in E.
Qed.

Lemma enumerate_from_nth_inv {A : Type} (l : list A) (k i j : nat) (x : A) :
  nth_error (enumerate_from k l) i = Some (j, x) ->
  j = (k + i)%nat /\ nth_error l i = Some x.
Proof.
  revert k i; induction l as [| a l IH]; intros k [| i] H; simpl in *;
    try discriminate.
  - injection H as <- <-. split; [lia | reflexivity].
  - apply IH in H as [-> H]. split; [lia | exact H].
Qed.

Section OpenedFrames.
Variables (cd dd : ts_dict) (nv : nat).
Hypothesis wf : index_wf cd dd nv.

(** Lines 112-114 for the device at position [i]. *)
Lemma frame_of_device (w : Z) (b : bundle) (i : nat) (dev : string) :
  align (session_over cd dd nv) w = Ok b ->
  nth_error (keys cd) i = Some dev ->
  exists calib_file color_file depth_file ct dt,
    (cd0 <- dict_lookup String.eqb dev (color_dict (session_over cd dd nv)) ;;
     cts <- py_index (chosen_color b) i ;;
     centry <- dict_lookup Z.eqb cts cd0 ;;
     calib_file <- py_index centry 0 ;;
     color_file <- py_index centry 1 ;;
     dd0 <- dict_lookup String.eqb dev (depth_dict (session_over cd dd nv)) ;;
     dts <- py_index (chosen_depth b) i ;;
     dentry <- dict_lookup Z.eqb dts dd0 ;;
     depth_file <- py_index dentry 1 ;;
     Ok (calib_file, color_file, depth_file))
    = Ok (calib_file, color_file, depth_file) /\
    nth_error (chosen_color b) i = Some ct /\
    nth_error (chosen_depth b) i = Some dt /\
    timestamp_of color_file = Ok ct /\
    timestamp_of depth_file = Ok dt.
Proof.
  intros Hal Hi.
  destruct (align_ok_pick cd dd nv wf w b i dev Hal Hi)
    as (Dc & Dd & p & q & HDc & HDd & Hp & Hq & Hc & Hd).
  destruct wf as (_ & _ & _ & _ & Wc & Wd).
  destruct (first_at_or_after_In _ _ _ (scan_first _ _ _ Hp)) as [Ip _].
  destruct (first_at_or_after_In _ _ _ (scan_first _ _ _ Hq)) as [Iq _].
  destruct (dict_get_key_present _ _ Ip) as (ce & Hce).
  destruct (dict_get_key_present _ _ Iq) as (de & Hde).
  destruct (Wc _ _ _ _ HDc Hce) as (c1 & f1 & -> & T1).
  destruct (Wd _ _ _ _ HDd Hde) as (c2 & f2 & -> & T2).
  exists c1, f1, f2, (snd p), (snd q).
  split; [| auto].
  unfold dict_lookup, py_index. simpl.
  rewrite HDc, HDd, Hc, Hd. simpl. rewrite Hce, Hde. reflexivity.
Qed.
End OpenedFrames.

(** X7.  In a session the script opened, the look-ups of lines 112-114
    never raise for a bundle an alignment step produced: there is one
    triple of files per device, and the colour file and the depth file of
    a device are files whose names carry the timestamps the step chose
    for that device. *)
Theorem display_lookups_succeed
  (os_listdir : string -> option (list string)) (s : session) (w0 w : Z)
  (b : bundle) :
  opened os_listdir = Ok (s, w0) ->
  align s w = Ok b ->
  exists files,
    frame_files s b = Ok files /\
    List.length files = List.length (dev_list s) /\
    forall i calib_file color_file depth_file,
      nth_error files i = Some (calib_file, color_file, depth_file) ->
      exists ct dt,
        nth_error (chosen_color b) i = Some ct /\
        nth_error (chosen_depth b) i = Some dt /\
        timestamp_of color_file = Ok ct /\
        timestamp_of depth_file = Ok dt.
Proof.
  intros H Hal. apply opened_session in H as (cd & dd & nv & -> & wf).
  unfold frame_files.
  match goal with |- context [mapM ?f _] => set (body := f) end.
  assert (Hbody : forall i dev,
             nth_error (keys cd) i = Some dev ->
             exists c f1 f2 ct dt,
               body (i, dev) = Ok (c, f1, f2) /\
               nth_error (chosen_color b) i = Some ct /\
               nth_error (chosen_depth b) i = Some dt /\
               timestamp_of f1 = Ok ct /\ timestamp_of f2 = Ok dt).
  { intros i dev Hi. exact (frame_of_device cd dd nv wf w b i dev Hal Hi). }
  destruct (mapM_all_ok body (enumerate (dev_list (session_over cd dd nv))))
    as (files & Hfiles).
  { intros [i dev] Hin. apply enumerate_In in Hin.
    destruct (Hbody i dev Hin) as (c & f1 & f2 & _ & _ & E & _). eauto. }
  exists files. split; [exact Hfiles |].
  split; [rewrite (mapM_length _ _ _ Hfiles); apply enumerate_length |].
  intros i c f1 f2 Hi.
  destruct (mapM_nth_result _ _ _ _ _ Hfiles Hi) as ([j dev] & Hj & Hb).
  apply enumerate_from_nth_inv in Hj as [-> Hdev]. cbn [Nat.add] in *.
  destruct (Hbody i dev Hdev) as (c' & f1' & f2' & ct & dt & E & Hc & Hd & T1 & T2).
  rewrite E in Hb. injection Hb as <- <- <-. exists ct, dt. auto.
Qed.

Lemma display_lookups_succeed_witness :
  exists b, align two_devices_session 155 = Ok b /\
  exists files,
    frame_files two_devices_session b = Ok files /\
    List.length files = List.length (dev_list two_devices_session) /\
    forall i calib_file color_file depth_file,
      nth_error files i = Some (calib_file, color_file, depth_file) ->
      exists ct dt,
        nth_error (chosen_color b) i = Some ct /\
        nth_error (chosen_depth b) i = Some dt /\
        timestamp_of color_file = Ok ct /\
        timestamp_of depth_file = Ok dt.
Proof.
  eexists. split; [vm_compute; reflexivity |].
  apply (display_lookups_succeed two_devices two_devices_session 155 155).
  - vm_compute. reflexivity.
  - vm_compute. reflexivity.
Defined.

(** ** How a run goes on *)

Section OpenedRun.
Variables (cd dd : ts_dict) (nv : nat).
Hypothesis wf : index_wf cd dd nv.
Variable display : nat -> list (string * string * string) -> result unit.
Hypothesis display_ok : forall n files, display n files = Ok tt.

Lemma frame_files_total (w : Z) (b : bundle) :
  align (session_over cd dd nv) w = Ok b ->
  exists files, frame_files (session_over cd dd nv) b = Ok files.
Proof.
  intros Hal. unfold frame_files. apply mapM_all_ok.
  intros [i dev] Hin. apply enumerate_In in Hin.
  destruct (frame_of_device cd dd nv wf w b i dev Hal Hin)
    as (c & f1 & f2 & _ & _ & E & _). eauto.
Qed.

Lemma iteration_ok (n : nat) (w : Z) (b : bundle) :
  align (session_over cd dd nv) w = Ok b ->
  iteration display (session_over cd dd nv) n w = Ok b.
Proof.
  intros Hal. unfold iteration. rewrite Hal. simpl.
  destruct (frame_files_total w b Hal) as (files & ->). simpl.
  now rewrite display_ok.
Qed.

Lemma iteration_raise (n : nat) (w : Z) (e : exn) :
  align (session_over cd dd nv) w = Raise e ->
  iteration display (session_over cd dd nv) n w = Raise e.
Proof. intros Hal. unfold iteration. now rewrite Hal. Qed.

Lemma stall_repeats (w : Z) (b : bundle) (fuel n : nat) :
  align (session_over cd dd nv) w = Ok b ->
  new_watermark b = w ->
  loop display (session_over cd dd nv) fuel n w = (repeat b fuel, None).
Proof.
  intros Hal Hw. revert n; induction fuel as [| fuel IH]; intros n;
    [reflexivity |].
  cbn [loop]. rewrite (iteration_ok n w b Hal), Hw, (IH (S n)). reflexivity.
Qed.

Lemma chosen_in_streams (w : Z) (b : bundle) (t : Z) :
  align (session_over cd dd nv) w = Ok b ->
  In t (chosen b) -> In t (all_timestamps (session_over cd dd nv)).
Proof.
  intros Hal Hin.
  destruct (align_inv _ _ _ Hal) as (ps & Hps & _ & Hc & Hd & _).
  assert (L : List.length ps = List.length (keys cd)).
  { rewrite (mapM_length _ _ _ Hps). apply enumerate_length. }
  unfold all_timestamps, streams. rewrite flat_map_app. simpl.
  unfold chosen in Hin. apply in_or_app.
  apply in_app_or in Hin as [Hin | Hin];
    apply In_nth_error in Hin as (i & Hi).
  - assert (Hlt : (i < List.length (keys cd))%nat).
    { rewrite <- L. rewrite Hc in Hi.
      assert (i < List.length (map fst ps))%nat
        by (apply nth_error_Some; congruence).
      now rewrite length_map in H. }
    destruct (nth_error (keys cd) i) as [dev |] eqn:Hdev;
      [| apply nth_error_None in Hdev; lia].
    destruct (align_ok_pick cd dd nv wf w b i dev Hal Hdev)
      as (Dc & Dd & p & q & HDc & _ & Hp & _ & Hcp & _).
    rewrite Hi in Hcp. injection Hcp as ->. left.
    apply in_flat_map. exists (dev, keys Dc). split.
    + apply sequences_In. exists Dc.
      split; [now apply (dict_get_In _ String.eqb_spec) | reflexivity].
    + apply (first_at_or_after_In _ w). now apply scan_first.
  - assert (Hlt : (i < List.length (keys cd))%nat).
    { rewrite <- L. rewrite Hd in Hi.
      assert (i < List.length (map snd ps))%nat
        by (apply nth_error_Some; congruence).
      now rewrite length_map in H. }
    destruct (nth_error (keys cd) i) as [dev |] eqn:Hdev;
      [| apply nth_error_None in Hdev; lia].
    destruct (align_ok_pick cd dd nv wf w b i dev Hal Hdev)
      as (Dc & Dd & p & q & _ & HDd & _ & Hq & _ & Hdq).
    rewrite Hi in Hdq. injection Hdq as ->. right.
    apply in_flat_map. exists (dev, keys Dd). split.
    + apply sequences_In. exists Dd.
      split; [now apply (dict_get_In _ String.eqb_spec) | reflexivity].
    + apply (first_at_or_after_In _ w). now apply scan_first.
Qed.
End OpenedRun.

Lemma beyond_shrinks (l : list Z) (w w' : Z) :
  (w < w')%Z -> In w' l ->
  (List.length (filter (fun t => (w' <? t)%Z) l)
   < List.length (filter (fun t => (w <? t)%Z) l))%nat.
Proof.
  intros Hlt. 
  assert (Hle : forall l0,
             (List.length (filter (fun t => (w' <? t)%Z) l0)
              <= List.length (filter (fun t => (w <? t)%Z) l0))%nat).
  { induction l0 as [| x l0 IH]; simpl; [lia |].
    destruct (Z.ltb_spec w' x), (Z.ltb_spec w x); simpl; lia. }
  induction l as [| x l IH]; simpl; [easy |].
  intros [-> | Hin].
  - rewrite Z.ltb_irrefl. destruct (Z.ltb_spec w w'); [| lia].
    simpl. specialize (Hle l). lia.
  - specialize (IH Hin).
    destruct (Z.ltb_spec w' x), (Z.ltb_spec w x); simpl; lia.
Qed.

Section OpenedSettles.
Variables (cd dd : ts_dict) (nv : nat).
Hypothesis wf : index_wf cd dd nv.
Variable display : nat -> list (string * string * string) -> result unit.
Hypothesis display_ok : forall n files, display n files = Ok tt.

Lemma run_settles_from (m : nat) :
  forall (w : Z) (n : nat),
    (ahead (session_over cd dd nv) w <= m)%nat ->
    exists fuel,
      (fuel <= S m)%nat /\
      (snd (loop display (session_over cd dd nv) fuel n w)
       = Some StopIteration \/
       exists bs b,
         forall k,
           loop display (session_over cd dd nv) (fuel + k) n w
           = (bs ++ repeat b (S k), None)).
Proof.
  induction m as [| m IH]; intros w n Hm.
  - destruct (align_cases cd dd nv wf w) as [(b & Hb) | [He _]].
    + destruct (align_at_or_after _ _ _ Hb) as (_ & _ & Hle).
      destruct (Z.eq_dec (new_watermark b) w) as [E | N].
      * exists 1%nat. split; [lia |]. right. exists [], b. intros k.
        exact (stall_repeats cd dd nv wf display display_ok w b (S k) n Hb E).
      * exfalso.
        assert (Hin : In (new_watermark b)
                         (all_timestamps (session_over cd dd nv))).
        { apply (chosen_in_streams cd dd nv wf w b); [exact Hb |].
          destruct (align_inv _ _ _ Hb) as (ps & _ & _ & Hc & Hd & Hmax).
          apply py_max_spec in Hmax as [Hmax _].
          unfold chosen. now rewrite Hc, Hd. }
        pose proof (beyond_shrinks _ w (new_watermark b)
                      ltac:(lia) Hin) as Hs.
        unfold ahead in Hm. lia.
    + exists 1%nat. split; [lia |]. left. cbn [loop].
      now rewrite (iteration_raise cd dd nv display n w _ He).
  - destruct (align_cases cd dd nv wf w) as [(b & Hb) | [He _]].
    + destruct (align_at_or_after _ _ _ Hb) as (_ & _ & Hle).
      destruct (Z.eq_dec (new_watermark b) w) as [E | N].
      * exists 1%nat. split; [lia |]. right. exists [], b. intros k.
        exact (stall_repeats cd dd nv wf display display_ok w b (S k) n Hb E).
      * assert (Hin : In (new_watermark b)
                         (all_timestamps (session_over cd dd nv))).
        { apply (chosen_in_streams cd dd nv wf w b); [exact Hb |].
          destruct (align_inv _ _ _ Hb) as (ps & _ & _ & Hc & Hd & Hmax).
          apply py_max_spec in Hmax as [Hmax _].
          unfold chosen. now rewrite Hc, Hd. }
        pose proof (beyond_shrinks _ w (new_watermark b)
                      ltac:(lia) Hin) as Hs.
        destruct (IH (new_watermark b) (S n)) as (fuel & Hf & Hsettle).
        { unfold ahead in *. lia. }
        exists (S fuel). split; [lia |].
        cbn [loop Nat.add].
        rewrite (iteration_ok cd dd nv wf display display_ok n w b Hb).
        destruct Hsettle as [Hstop | (bs & b' & Hrep)].
        -- left.
           destruct (loop display (session_over cd dd nv) fuel (S n)
                          (new_watermark b)) as [bs r].
           exact Hstop.
        -- right. exists (b :: bs), b'. intros k.
           now rewrite (Hrep k).
    + exists 1%nat. split; [lia |]. left. cbn [loop].
      now rewrite (iteration_raise cd dd nv display n w _ He).
Qed.
End OpenedSettles.

(** X8.  When an alignment step of an opened session leaves the watermark
    where it was, and the display does not fail, every later iteration
    runs the same step again: the loop emits that bundle for ever and
    never ends. *)
Theorem stall_is_permanent
  (os_listdir : string -> option (list string))
  (display : nat -> list (string * string * string) -> result unit)
  (s : session) (w0 w : Z) (b : bundle) (fuel n : nat) :
  opened os_listdir = Ok (s, w0) ->
  (forall n files, display n files = Ok tt) ->
  align s w = Ok b ->
  new_watermark b = w ->
  loop display s fuel n w = (repeat b fuel, None).
Proof.
  intros H Hdisp Hal Hw. apply opened_session in H as (cd & dd & nv & -> & wf).
  now apply (stall_repeats cd dd nv wf display Hdisp).
Qed.

Lemma stall_is_permanent_witness :
  exists b,
    align single_pair_session 100 = Ok b /\
    loop quiet single_pair_session 5 0 100 = (repeat b 5, None).
Proof.
  eexists. split; [vm_compute; reflexivity |].
  apply (stall_is_permanent single_pair quiet single_pair_session 100).
  - vm_compute. reflexivity.
  - reflexivity.
  - vm_compute. reflexivity.
  - reflexivity.
Defined.

(** X9.  When the display does not fail, a run of an opened session goes
    one of two ways, and which one is settled within one more iteration
    than there are timestamps beyond the initial watermark: either the
    loop is left with [StopIteration], or from some iteration on the loop
    emits one and the same bundle for ever. *)
Theorem run_settles
  (os_listdir : string -> option (list string))
  (display : nat -> list (string * string * string) -> result unit)
  (s : session) (w0 : Z) :
  opened os_listdir = Ok (s, w0) ->
  (forall n files, display n files = Ok tt) ->
  exists fuel,
    (fuel <= S (ahead s w0))%nat /\
    (snd (loop display s fuel 0 w0) = Some StopIteration \/
     exists bs b,
       forall k, loop display s (fuel + k) 0 w0 = (bs ++ repeat b (S k), None)).
Proof.
  intros H Hdisp. apply opened_session in H as (cd & dd & nv & -> & wf).
  apply (run_settles_from cd dd nv wf display Hdisp). lia.
Qed.

Lemma run_settles_witness :
  exists fuel,
    (fuel <= S (ahead two_devices_session 155))%nat /\
    (snd (loop quiet two_devices_session fuel 0 155) = Some StopIteration \/
     exists bs b,
       forall k,
         loop quiet two_devices_session (fuel + k) 0 155
         = (bs ++ repeat b (S k), None)).
Proof.
  apply (run_settles two_devices quiet two_devices_session 155).
  - vm_compute. reflexivity.
  - reflexivity.
Defined.

(** ** The timestamp of a file *)

Lemma str_split_nonempty (sep : ascii) (s : string) :
  exists h t, str_split sep s = h :: t.
Proof.
  induction s as [| c s IH]; simpl; [now eexists; eexists |].
  destruct (Ascii.eqb c sep); [now eexists; eexists |].
  destruct IH as (h & t & ->). now eexists; eexists.
Qed.

(** Splitting a concatenation: the last piece of the left part and the
    first piece of the right part are glued together. *)
Lemma str_split_app (sep : ascii) (a b : string) :
  exists init la hb tb,
    str_split sep a = init ++ [la] /\
    str_split sep b = hb :: tb /\
    str_split sep (a ++ b) = init ++ (la ++ hb)%string :: tb.
Proof.
  induction a as [| c a IH].
  - destruct (str_split_nonempty sep b) as (hb & tb & Hb).
    exists [], "", hb, tb. simpl. now rewrite Hb.
  - destruct IH as (init & la & hb & tb & Ha & Hb & Hab). simpl.
    destruct (Ascii.eqb c sep).
    + exists ("" :: init), la, hb, tb. rewrite Ha, Hab. auto.
    + rewrite Ha, Hab. destruct init as [| w ws]; simpl.
      * exists [], (String c la), hb, tb. auto.
      * exists (String c w :: ws), la, hb, tb. auto.
Qed.

Lemma py_last_app {A : Type} (l : list A) (x : A) : py_last (l ++ [x]) = Ok x.
Proof.
  induction l as [| y l IH]; [reflexivity |].
  simpl. destruct (l ++ [x]) eqn:E; [now destruct l | exact IH].
Qed.

Lemma py_last_cons_app {A : Type} (l : list A) (x y : A) (t : list A) :
  py_last (l ++ x :: y :: t) = py_last (y :: t).
Proof.
  induction l as [| z l IH].
  - reflexivity.
  - change ((z :: l) ++ x :: y :: t) with (z :: (l ++ x :: y :: t)).
    cbn [py_last]. destruct (l ++ x :: y :: t) eqn:E;
      [now destruct l | exact IH].
Qed.

Lemma str_split_plain (s : string) : no_slash s = true -> str_split "/" s = [s].
Proof.
  induction s as [| c s IH]; [reflexivity |].
  cbn [no_slash str_split]. intros H. apply andb_prop in H as [Hc Hs].
  apply negb_true_iff in Hc. rewrite Hc, (IH Hs). reflexivity.
Qed.

Lemma append_empty_r (s : string) : (s ++ "")%string = s.
Proof. induction s as [| c s IH]; simpl; [reflexivity | now rewrite IH]. Qed.

Lemma endswith_sep_inv (s : string) :
  endswith_sep s = true -> exists s0, s = (s0 ++ "/")%string.
Proof.
  induction s as [| c s IH]; [discriminate |].
  cbn [endswith_sep]. destruct s as [| c' s'].
  - intros H. apply Ascii.eqb_eq in H as ->. now exists "".
  - intros H. destruct (IH H) as (s0 & E). exists (String c s0).
    simpl. now rewrite <- E.
Qed.

Lemma last_piece_after_sep (d : string) :
  endswith_sep d = true -> py_last (str_split "/" d) = Ok "".
Proof.
  intros H. apply endswith_sep_inv in H as (s0 & ->).
  destruct (str_split_app "/" s0 "/") as (init & la & hb & tb & _ & Hb & ->).
  simpl in Hb. injection Hb as <- <-. now rewrite py_last_cons_app.
Qed.

Lemma no_slash_start (f : string) : no_slash f = true -> startswith_sep f = false.
Proof.
  destruct f as [| c f]; [reflexivity |]. simpl. intros H.
  apply andb_prop in H as [Hc _]. now apply negb_true_iff in Hc.
Qed.

(** The last component of a path joined with a name is that name. *)
Lemma basename_join (d f : string) :
  no_slash f = true -> py_last (str_split "/" (path_join d [f])) = Ok f.
Proof.
  intros Hf. unfold path_join. cbn [fold_left]. unfold join_step.
  rewrite (no_slash_start f Hf).
  destruct (String.eqb_spec d "") as [-> | Hd].
  - simpl. rewrite (str_split_plain f Hf). reflexivity.
  - cbn [orb]. destruct (endswith_sep d) eqn:E.
    + destruct (str_split_app "/" d f) as (init & la & hb & tb & Ha & Hb & ->).
      rewrite (str_split_plain f Hf) in Hb. injection Hb as <- <-.
      pose proof (last_piece_after_sep d E) as Hl.
      rewrite Ha, py_last_app in Hl. injection Hl as ->.
      apply py_last_app.
    + destruct (str_split_app "/" d ("/" ++ f)%string)
        as (init & la & hb & tb & _ & Hb & ->).
      simpl in Hb. rewrite (str_split_plain f Hf) in Hb.
      injection Hb as <- <-. now rewrite py_last_cons_app.
Qed.

Lemma first_piece_before_dot (f : string) :
  py_first (str_split "." f) = Ok (before_dot f).
Proof.
  assert (H : exists t, str_split "." f = before_dot f :: t).
  { induction f as [| c f (t & IH)]; [now exists [] |].
    simpl. destruct (Ascii.eqb c "."); [now eexists |].
    rewrite IH. now eexists. }
  destruct H as (t & ->). reflexivity.
Qed.

(** X10.  The timestamp of a file depends on its name alone, not on the
    directory it lies in: it is the integer that [int] reads from the
    part of the name before its first dot. *)
Theorem timestamp_from_name (dir filename : string) :
  no_slash filename = true ->
  timestamp_of (path_join dir [filename]) = py_int (before_dot filename).
Proof.
  intros Hf. unfold timestamp_of. rewrite (basename_join dir filename Hf).
  simpl. rewrite first_piece_before_dot. simpl. now destruct (py_int _).
Qed.

Lemma timestamp_from_name_witness :
  timestamp_of (path_join "/tmp/testing/A/s1/color" ["000120.tar.bin"])
  = py_int (before_dot "000120.tar.bin").
Proof. apply timestamp_from_name. reflexivity. Defined.

(** ** Names that spell a number *)

Lemma digits_uint (u : Decimal.uint) (a : nat) (b : bool) :
  u <> Decimal.Nil \/ b = true ->
  digits (DecimalString.NilEmpty.string_of_uint u) (Z.of_nat a) b
  = Some (Z.of_nat (Nat.of_uint_acc u a)).
Proof.
  revert a b; induction u; intros a b H;
    cbn [DecimalString.NilEmpty.string_of_uint Nat.of_uint_acc digits].
  1: destruct H as [H | ->]; [congruence | reflexivity].
  all: match goal with
       | |- context [digit_val ?c] =>
           let v := eval vm_compute in (digit_val c) in
           change (digit_val c) with v
       end; cbv iota.
  all: match goal with
       | |- digits _ ?z _ = Some (Z.of_nat (Nat.of_uint_acc _ ?m)) =>
           replace z with (Z.of_nat m)
             by (rewrite ?Nat2Z.inj_succ, Nat.tail_mul_spec; lia)
       end.
  all: apply IHu; now right.
Qed.

Lemma lstrip_uint (u : Decimal.uint) :
  lstrip (DecimalString.NilEmpty.string_of_uint u)
  = DecimalString.NilEmpty.string_of_uint u.
Proof. destruct u; reflexivity. Qed.

Lemma rstrip_uint (u : Decimal.uint) :
  rstrip (DecimalString.NilEmpty.string_of_uint u)
  = DecimalString.NilEmpty.string_of_uint u.
Proof.
  induction u; cbn [DecimalString.NilEmpty.string_of_uint rstrip];
    [reflexivity | ..];
    rewrite IHu; now destruct (DecimalString.NilEmpty.string_of_uint u).
Qed.

Lemma to_uint_nonnil (n : nat) : Nat.to_uint n <> Decimal.Nil.
Proof.
  intros E. pose proof (DecimalNat.Unsigned.of_to n) as H.
  rewrite E in H. cbn in H. subst n. discriminate E.
Qed.

Lemma py_int_decimal (n : nat) : py_int (decimal n) = Ok (Z.of_nat n).
Proof.
  unfold py_int, decimal. rewrite lstrip_uint, rstrip_uint.
  pose proof (digits_uint (Nat.to_uint n) 0 false
                (or_introl (to_uint_nonnil n))) as H.
  change (Nat.of_uint_acc (Nat.to_uint n) 0) with (Nat.of_uint (Nat.to_uint n))
    in H.
  rewrite DecimalNat.Unsigned.of_to in H. change (Z.of_nat 0) with 0%Z in H.
  destruct (Nat.to_uint n) eqn:E;
    cbn [DecimalString.NilEmpty.string_of_uint] in *; now rewrite H.
Qed.

Lemma before_dot_uint (u : Decimal.uint) (rest : string) :
  before_dot (DecimalString.NilEmpty.string_of_uint u ++ String "." rest)
  = DecimalString.NilEmpty.string_of_uint u.
Proof.
  induction u; cbn [DecimalString.NilEmpty.string_of_uint append before_dot];
    [reflexivity | ..]; now rewrite IHu.
Qed.

Lemma no_slash_uint (u : Decimal.uint) (rest : string) :
  no_slash (DecimalString.NilEmpty.string_of_uint u ++ rest) = no_slash rest.
Proof.
  induction u; cbn [DecimalString.NilEmpty.string_of_uint append no_slash];
    [reflexivity | ..]; exact IHu.
Qed.

(** X11.  A file named by the decimal digits of a number, a dot and an
    extension is stored under that number, in whatever directory it
    lies: reading the name back undoes [str]. *)
Theorem timestamp_round_trip (dir ext : string) (n : nat) :
  no_slash ext = true ->
  timestamp_of (path_join dir [(decimal n ++ String "." ext)%string])
  = Ok (Z.of_nat n).
Proof.
  intros Hext. unfold timestamp_of. rewrite basename_join.
  - simpl. rewrite first_piece_before_dot. unfold decimal at 1.
    rewrite before_dot_uint. fold (decimal n). simpl.
    now rewrite py_int_decimal.
  - unfold decimal. rewrite no_slash_uint. exact Hext.
Qed.

Lemma timestamp_round_trip_witness :
  timestamp_of (path_join "/tmp/testing/A/s1/depth"
                  [(decimal 4711 ++ String "." "bin")%string])
  = Ok (Z.of_nat 4711).
Proof. apply timestamp_round_trip. reflexivity. Defined.

(** ** Which devices the scans keep *)

Lemma files_fold_keys (os_listdir : string -> option (list string))
  (base_path sensor : string) (l : list string)
  (out0 out1 : dict string (list string)) :
  NoDup (keys out0 ++ l) ->
  foldM (fun out device =>
           files <- device_files os_listdir base_path sensor device ;;
           Ok (dict_set String.eqb device files out)) l out0 = Ok out1 ->
  keys out1 = keys out0 ++ l.
Proof.
  revert out0; induction l as [| x l IH]; simpl; intros out0 Hnd H.
  - injection H as <-. now rewrite app_nil_r.
  - inv_bind H. inv_bind Hm. injection Hm as <-.
    assert (Hx : ~ In x (keys out0)).
    { intros Hin. apply NoDup_remove_2 in Hnd. apply Hnd.
      apply in_or_app. now left. }
    apply IH in H.
    + rewrite H, (keys_dict_set_absent _ String.eqb_spec) by assumption.
      now rewrite <- app_assoc.
    + rewrite (keys_dict_set_absent _ String.eqb_spec) by assumption.
      now rewrite <- app_assoc.
Qed.

Lemma last_error_cons {A : Type} (x : A) (l : list A) :
  exists y, last_error (x :: l) = Some y.
Proof. simpl. destruct (last_error l); eauto. Qed.

Lemma calib_fold_keys (os_listdir : string -> option (list string))
  (l : list string) (p0 p1 : dict string string) :
  NoDup (keys p0 ++ l) ->
  foldM (fun path device =>
           files <- device_files os_listdir PATH "calib" device ;;
           Ok (match last_error files with
               | Some file => dict_set String.eqb device file path
               | None => path
               end)) l p0 = Ok p1 ->
  keys p1 = keys p0 ++ filter (calibrated os_listdir) l.
Proof.
  revert p0; induction l as [| x l IH]; simpl; intros p0 Hnd H.
  - injection H as <-. now rewrite app_nil_r.
  - inv_bind H. inv_bind Hm. injection Hm as <-.
    unfold calibrated at 1. rewrite Hm0.
    assert (Hx : ~ In x (keys p0)).
    { intros Hin. apply NoDup_remove_2 in Hnd. apply Hnd.
      apply in_or_app. now left. }
    destruct a0 as [| f fs].
    + apply IH in H; [exact H |]. now apply NoDup_remove_1 in Hnd.
    + destruct (last_error_cons f fs) as (y & Hy). rewrite Hy in H.
      apply IH in H.
      * rewrite H, (keys_dict_set_absent _ String.eqb_spec) by assumption.
        now rewrite <- app_assoc.
      * rewrite (keys_dict_set_absent _ String.eqb_spec) by assumption.
        now rewrite <- app_assoc.
Qed.

Lemma names_eqb_refl (l : list string) : names_eqb l l = true.
Proof.
  induction l as [| x l IH]; [reflexivity |].
  simpl. now rewrite String.eqb_refl.
Qed.

Lemma NoDup_names_distinct (l : list string) :
  NoDup l -> names_distinct l = true.
Proof.
  induction 1 as [| x l Hx _ IH]; [reflexivity |].
  simpl. rewrite IH, andb_true_r. apply negb_true_iff.
  destruct (existsb (String.eqb x) l) eqn:E; [| reflexivity].
  apply existsb_exists in E as (y & Hy & Exy).
  apply String.eqb_eq in Exy as <-. contradiction.
Qed.

Lemma filter_all {A : Type} (f : A -> bool) (l : list A) :
  filter f l = l <-> forallb f l = true.
Proof.
  split.
  - intros E. apply forallb_forall. intros x Hx. rewrite <- E in Hx.
    now apply filter_In in Hx.
  - induction l as [| x l IH]; [reflexivity |]. simpl. intros H.
    apply andb_prop in H as [-> Hl]. now rewrite IH.
Qed.

Lemma forallb_perm {A : Type} (f : A -> bool) (l l' : list A) :
  Permutation l l' -> forallb f l = forallb f l'.
Proof.
  induction 1; simpl; try congruence.
  now rewrite !andb_assoc, (andb_comm (f y)).
Qed.

Lemma NoDup_filter_of {A : Type} (f : A -> bool) (l : list A) :
  NoDup l -> NoDup (filter f l).
Proof.
  induction 1 as [| x l Hx _ IH]; simpl; [constructor |].
  destruct (f x); [| exact IH]. constructor; [| exact IH].
  intros Hin. apply filter_In in Hin. tauto.
Qed.

(** X12.  When no two entries of the base directory have the same name,
    the colour scan and the depth scan list every device, in ascending
    order of the names, while the calibration scan lists only the devices
    that have a calibration file.  So the three scans list the same
    devices exactly when every device has a calibration file. *)
Theorem scans_agree_iff_all_calibrated
  (os_listdir : string -> option (list string)) (devices : list string)
  (cfs dfs : dict string (list string)) (calib : dict string string) :
  os_listdir PATH = Some devices ->
  names_distinct devices = true ->
  get_filepaths os_listdir PATH "color" = Ok cfs ->
  get_filepaths os_listdir PATH "depth" = Ok dfs ->
  get_calib os_listdir PATH = Ok calib ->
  keys cfs = sorted devices /\
  keys dfs = sorted devices /\
  keys calib = filter (calibrated os_listdir) (sorted devices) /\
  (aligned cfs dfs calib = true <->
   forallb (calibrated os_listdir) devices = true).
Proof.
  intros Hl Hnd Hc Hd Hk.
  apply names_distinct_NoDup in Hnd.
  assert (Hs : NoDup (sorted devices)).
  { eapply Permutation_NoDup; [| exact Hnd].
    apply Permutation_sym, sorted_perm. }
  rewrite get_filepaths_by_device in Hc, Hd.
  rewrite get_calib_by_device in Hk.
  unfold listdir in *. rewrite Hl in *. simpl in Hc, Hd, Hk.
  apply files_fold_keys in Hc; [| exact Hs].
  apply files_fold_keys in Hd; [| exact Hs].
  apply calib_fold_keys in Hk; [| exact Hs].
  simpl in Hc, Hd, Hk.
  split; [exact Hc |]. split; [exact Hd |]. split; [exact Hk |].
  unfold aligned. rewrite Hc, Hd, Hk.
  rewrite <- (forallb_perm _ _ _ (sorted_perm devices)).
  rewrite <- filter_all. split.
  - intros H. apply andb_prop in H as [H _]. apply andb_prop in H as [H _].
    apply names_eqb_eq in H. now symmetry.
  - intros ->. rewrite names_eqb_refl. simpl.
    now apply NoDup_names_distinct.
Qed.

Lemma scans_agree_iff_all_calibrated_witness :
  exists cfs dfs calib,
    keys cfs = ["A"; "B"] /\ keys dfs = ["A"; "B"] /\ keys calib = ["B"] /\
    keys calib = filter (calibrated uncalibrated) (sorted ["A"; "B"]) /\
    (aligned cfs dfs calib = true <->
     forallb (calibrated uncalibrated) ["A"; "B"] = true).
Proof.
  destruct (get_filepaths uncalibrated PATH "color") as [cfs |] eqn:Ec;
    [| discriminate Ec].
  destruct (get_filepaths uncalibrated PATH "depth") as [dfs |] eqn:Ed;
    [| discriminate Ed].
  destruct (get_calib uncalibrated PATH) as [calib |] eqn:Ek;
    [| discriminate Ek].
  exists cfs, dfs, calib.
  destruct (scans_agree_iff_all_calibrated uncalibrated ["A"; "B"]
              cfs dfs calib eq_refl eq_refl Ec Ed Ek) as (Hc & Hd & Hk & Hal).
  vm_compute in Ec, Ed, Ek.
  injection Ec as <-. injection Ed as <-. injection Ek as <-.
  repeat split; try reflexivity; apply Hal.
Defined.

(** ** Where the files of an entry come from *)

Lemma foldM_invariant_In {A St : Type} (P : St -> Prop)
  (f : St -> A -> result St) (l : list A) (s0 s : St) :
  (forall s x s', In x l -> P s -> f s x = Ok s' -> P s') ->
  P s0 -> foldM f l s0 = Ok s -> P s.
Proof.
  revert s0; induction l as [| x l IH]; simpl; intros s0 Hstep H0 H.
  - now injection H as <-.
  - inv_bind H. apply (IH a).
    + intros s1 y s2 Hy. apply Hstep. now right.
    + apply (Hstep s0 x a); auto.
    + exact H.
Qed.

Lemma py_index_inv {A : Type} (l : list A) (i : nat) (x : A) :
  py_index l i = Ok x -> nth_error l i = Some x.
Proof.
  unfold py_index. destruct (nth_error l i); [now intros [= ->] | discriminate].
Qed.

Lemma heads_nth_col {A : Type} (cols : list (list A)) (row : list A) (j : nat)
  (x : A) :
  heads cols = Some row -> nth_error row j = Some x ->
  exists t, nth_error cols j = Some (x :: t).
Proof.
  revert row j; induction cols as [| [| y c] cols IH]; simpl; intros row j H Hj.
  - injection H as <-. destruct j; discriminate.
  - discriminate.
  - destruct (heads cols) as [r |] eqn:E; simpl in H; [| discriminate].
    injection H as <-. destruct j as [| j]; simpl in *.
    + injection Hj as <-. eauto.
    + eapply IH; eauto.
Qed.

Lemma tails_nth {A : Type} (cols : list (list A)) (j : nat) (t : list A) :
  nth_error (tails cols) j = Some t ->
  exists col, nth_error cols j = Some col /\ t = tl col.
Proof.
  unfold tails. rewrite nth_error_map.
  destruct (nth_error cols j) as [col |]; simpl; [| discriminate].
  intros [= <-]. eauto.
Qed.

(** Every element of a row of the [zip] comes from the column at its
    position. *)
Lemma zip_rows_nth {A : Type} (k : nat) (cols : list (list A)) (row : list A)
  (j : nat) (x : A) :
  In row (zip_rows k cols) -> nth_error row j = Some x ->
  exists col, nth_error cols j = Some col /\ In x col.
Proof.
  revert cols; induction k as [| k IH]; simpl; intros cols Hin Hj; [tauto |].
  destruct (heads cols) as [r |] eqn:E; [| contradiction].
  destruct Hin as [<- | Hin].
  - destruct (heads_nth_col _ _ _ _ E Hj) as (t & Ht).
    exists (x :: t). split; [exact Ht | now left].
  - destruct (IH _ Hin Hj) as (col' & Hc & Hx).
    apply tails_nth in Hc as (col & Hc & ->).
    exists col. split; [exact Hc |]. destruct col; simpl in *; auto.
Qed.

Lemma zip_star_nth {A : Type} (cols : list (list A)) (row : list A)
  (j : nat) (x : A) :
  In row (zip_star cols) -> nth_error row j = Some x ->
  exists col, nth_error cols j = Some col /\ In x col.
Proof.
  unfold zip_star. destruct cols as [| c cols]; [contradiction |].
  apply zip_rows_nth.
Qed.

Lemma zip_columns_nth (devs calibs : list string) (k : nat)
  (rest : list (list string)) (i : nat) :
  List.length calibs = List.length devs ->
  (i < List.length devs)%nat ->
  let cols := map (fun d => repeat d k) devs
                ++ map (fun c => repeat c k) calibs ++ rest in
  nth_error cols i = option_map (fun d => repeat d k) (nth_error devs i) /\
  nth_error cols (List.length devs + i)
  = option_map (fun c => repeat c k) (nth_error calibs i) /\
  forall j, nth_error cols (List.length devs + (List.length devs + j))
            = nth_error rest j.
Proof.
  intros Hlen Hi cols. subst cols. split; [| split].
  - rewrite nth_error_app1 by (rewrite length_map; lia).
    apply nth_error_map.
  - replace (List.length devs + i)%nat
      with (List.length (map (fun d => repeat d k) devs) + i)%nat
      by (now rewrite length_map).
    rewrite nth_error_app_plus.
    rewrite nth_error_app1 by (rewrite length_map; lia).
    apply nth_error_map.
  - intros j.
    replace (List.length devs + (List.length devs + j))%nat
      with (List.length (map (fun d => repeat d k) devs)
            + (List.length (map (fun c => repeat c k) calibs) + j))%nat
      by (rewrite !length_map; lia).
    now rewrite !nth_error_app_plus.
Qed.

Lemma set_entry_positioned (devs calibs : list string)
  (rest : list (list string)) (off i' : nat) (dev' c f : string) (ts : Z)
  (col : list string) (d d' : ts_dict) :
  NoDup devs ->
  nth_error devs i' = Some dev' ->
  nth_error rest (off + i') = Some col -> In f col ->
  nth_error calibs i' = Some c ->
  set_entry dev' ts [c; f] d = Ok d' ->
  positioned devs calibs rest off d -> positioned devs calibs rest off d'.
Proof.
  intros Hnd Hdev Hcol Hf Hc H Hpos.
  apply set_entry_inv in H as (D0 & HD0 & ->).
  intros i dev D t entry Hi HD Ht.
  destruct (String.eqb_spec dev dev') as [-> | N].
  - assert (i = i') as ->.
    { apply (proj1 (NoDup_nth_error devs) Hnd).
      - apply nth_error_Some. congruence.
      - congruence. }
    rewrite (dict_get_set_eq _ String.eqb_spec) in HD. injection HD as <-.
    destruct (Z.eqb_spec t ts) as [-> | Nz].
    + rewrite (dict_get_set_eq _ Z_eqb_spec) in Ht. injection Ht as <-.
      exists col, c, f. auto.
    + rewrite (dict_get_set_neq _ Z_eqb_spec) in Ht by assumption.
      exact (Hpos _ _ _ _ _ Hi HD0 Ht).
  - rewrite (dict_get_set_neq _ String.eqb_spec) in HD by assumption.
    exact (Hpos _ _ _ _ _ Hi HD Ht).
Qed.

Lemma index_row_positioned (devs calibs : list string)
  (rest : list (list string)) (k : nat) (row : list string)
  (cd dd cd' dd' : ts_dict) (i : nat) :
  List.length calibs = List.length devs ->
  NoDup devs ->
  (i < List.length devs)%nat ->
  (forall j x,
      nth_error row j = Some x ->
      exists col,
        nth_error (map (fun d => repeat d k) devs
                     ++ map (fun c => repeat c k) calibs ++ rest) j
        = Some col /\ In x col) ->
  index_row (List.length devs) row (cd, dd) i = Ok (cd', dd') ->
  positioned devs calibs rest 0 cd /\
  positioned devs calibs rest (List.length devs) dd ->
  positioned devs calibs rest 0 cd' /\
  positioned devs calibs rest (List.length devs) dd'.
Proof.
  intros Hlen Hnd Hi Hrow H [Pc Pd]. unfold index_row in H.
  inv_bind H. inv_bind H. inv_bind H. inv_bind H.
  inv_bind H. rename Hm3 into Hcts. inv_bind H. rename Hm3 into Hdts.
  inv_bind H. rename Hm3 into Hcd. inv_bind H. rename Hm3 into Hdd.
  injection H as <- <-.
  apply py_index_inv in Hm, Hm0, Hm1, Hm2.
  destruct (zip_columns_nth devs calibs k rest i Hlen Hi) as (C0 & C1 & C2).
  cbv zeta in C0, C1, C2.
  destruct (nth_error devs i) as [dv |] eqn:Edv;
    [| apply nth_error_None in Edv; lia].
  destruct (nth_error calibs i) as [cv |] eqn:Ecv;
    [| apply nth_error_None in Ecv; lia].
  simpl in C0, C1.
  replace (0 * List.length devs + i)%nat with i in Hm by lia.
  replace (1 * List.length devs + i)%nat
    with (List.length devs + i)%nat in Hm0 by lia.
  replace (2 * List.length devs + i)%nat
    with (List.length devs + (List.length devs + i))%nat in Hm1 by lia.
  replace (3 * List.length devs + i)%nat
    with (List.length devs + (List.length devs + (List.length devs + i)))%nat
    in Hm2 by lia.
  destruct (Hrow _ _ Hm) as (col0 & E0 & I0).
  rewrite C0 in E0. injection E0 as <-. apply repeat_spec in I0. subst.
  destruct (Hrow _ _ Hm0) as (col1 & E1 & I1).
  rewrite C1 in E1. injection E1 as <-. apply repeat_spec in I1. subst.
  destruct (Hrow _ _ Hm1) as (col2 & E2 & I2). rewrite C2 in E2.
  destruct (Hrow _ _ Hm2) as (col3 & E3 & I3). rewrite C2 in E3.
  split.
  - exact (set_entry_positioned devs calibs rest 0 i _ _ _ _ _ _ _
             Hnd Edv E2 I2 Ecv Hcd Pc).
  - exact (set_entry_positioned devs calibs rest (List.length devs) i
             _ _ _ _ _ _ _ Hnd Edv E3 I3 Ecv Hdd Pd).
Qed.

Lemma build_index_positioned (cfs dfs : dict string (list string))
  (calib : dict string string) (cd dd : ts_dict) (nd nv : nat) :
  NoDup (keys calib) ->
  build_index cfs dfs calib = Ok (cd, dd, nd, nv) ->
  positioned (keys calib) (values calib) (values cfs ++ values dfs) 0 cd /\
  positioned (keys calib) (values calib) (values cfs ++ values dfs)
             (List.length (keys calib)) dd.
Proof.
  intros Hnd H. unfold build_index in H.
  destruct (hd_error (values cfs)) as [first |] eqn:Eh; simpl in H;
    [| discriminate].
  inv_bind H. destruct a as [cd1 dd1]. injection H as <- <- <- <-.
  pose (P := fun acc : ts_dict * ts_dict =>
               positioned (keys calib) (values calib)
                          (values cfs ++ values dfs) 0 (fst acc) /\
               positioned (keys calib) (values calib)
                          (values cfs ++ values dfs)
                          (List.length (keys calib)) (snd acc)).
  change (P (cd1, dd1)).
  refine (foldM_invariant_In P _ _ _ _ _ _ Hm).
  - intros acc row acc' Hrow Hacc Hf.
    refine (foldM_invariant_In P _ _ _ _ _ Hacc Hf).
    intros [c0 d0] i [c1 d1] Hi HP Hstep. apply in_seq in Hi.
    refine (index_row_positioned (keys calib) (values calib)
              (values cfs ++ values dfs) (List.length first) row
              c0 d0 c1 d1 i (values_length calib) Hnd ltac:(lia) _ Hstep HP).
    intros j x Hj. exact (zip_star_nth _ _ _ _ Hrow Hj).
  - unfold P. cbn [fst snd].
    split; intros i dev D t entry Hi HD Ht;
      pose proof (eq_trans (eq_sym HD)
                    (empty_dicts_get (keys calib) dev (nth_error_In _ _ Hi)))
        as HE;
      injection HE as ->; discriminate Ht.
Qed.

(** X13.  The build takes the files of a device by position, not by
    name.  Every colour entry of the device at position [i] of the
    calibration scan pairs its calibration file with a file of the list
    at position [i] among the colour lists followed by the depth lists,
    and every depth entry with a file of the list at position
    [num_dev + i].  With a device that has no calibration file these are
    lists of another device or of the other stream. *)
Theorem index_files_by_position
  (os_listdir : string -> option (list string))
  (cfs dfs : dict string (list string)) (calib : dict string string)
  (cd dd : ts_dict) (nd nv : nat) :
  get_filepaths os_listdir PATH "color" = Ok cfs ->
  get_filepaths os_listdir PATH "depth" = Ok dfs ->
  get_calib os_listdir PATH = Ok calib ->
  get_filepaths_with_timestamps os_listdir = Ok (cd, dd, nd, nv) ->
  positioned (keys calib) (values calib) (values cfs ++ values dfs) 0 cd /\
  positioned (keys calib) (values calib) (values cfs ++ values dfs) nv dd.
Proof.
  intros Hc Hd Hk H. rewrite (scans_build _ _ _ _ Hc Hd Hk) in H.
  pose proof (build_index_keeps _ _ _ _ _ _ _ H) as (_ & _ & _ & _ & -> & _).
  refine (build_index_positioned _ _ _ _ _ _ _ _ H).
  now apply get_calib_keys_NoDup in Hk.
Qed.

Lemma index_files_by_position_witness :
  exists (cfs dfs : dict string (list string)) (calib : dict string string)
         (cd dd : ts_dict),
    (positioned (keys calib) (values calib) (values cfs ++ values dfs) 0 cd /\
     positioned (keys calib) (values calib) (values cfs ++ values dfs) 1 dd) /\
    keys calib = ["B"] /\
    nth_error (values cfs ++ values dfs) (1 + 0)
    = Some ["/tmp/testing/B/s/color/150.bin"] /\
    dict_get String.eqb "B" dd
    = Some [(150%Z, ["/tmp/testing/B/s/calib/calib.json";
                     "/tmp/testing/B/s/color/150.bin"])].
Proof.
  eexists _, _, _, _, _. split.
  - eapply (index_files_by_position uncalibrated); vm_compute; reflexivity.
  - repeat split; reflexivity.
Defined.

(** ** How the script can end *)

Section OpenedEnds.
Variables (cd dd : ts_dict) (nv : nat).
Hypothesis wf : index_wf cd dd nv.
Variable display : nat -> list (string * string * string) -> result unit.
Hypothesis display_ok : forall n files, display n files = Ok tt.

Lemma loop_raises_stop (fuel : nat) :
  forall (n : nat) (w : Z) (e : exn),
    snd (loop display (session_over cd dd nv) fuel n w) = Some e ->
    e = StopIteration.
Proof.
  induction fuel as [| fuel IH]; intros n w e H; [discriminate H |].
  cbn [loop] in H.
  destruct (align_cases cd dd nv wf w) as [(b & Hb) | [He _]].
  - rewrite (iteration_ok cd dd nv wf display display_ok n w b Hb) in H.
    specialize (IH (S n) (new_watermark b) e).
    destruct (loop display (session_over cd dd nv) fuel (S n)
                   (new_watermark b)) as [bs r].
    exact (IH H).
  - rewrite (iteration_raise cd dd nv display n w _ He) in H.
    now injection H as <-.
Qed.
End OpenedEnds.

(** X14.  With a display that does not fail, a run of the script that
    ends has ended in one of two ways: before the loop, with exit status
    1 and nothing printed, because the index or the initial watermark
    could not be built; or out of the loop by [StopIteration], with its
    message printed and exit status 0. *)
Theorem script_outcomes
  (os_listdir : string -> option (list string))
  (display : nat -> list (string * string * string) -> result unit)
  (str : exn -> string) (fuel : nat) (out : list string) (code : Z) :
  (forall n files, display n files = Ok tt) ->
  main os_listdir display str fuel = Some (out, code) ->
  (code = 1%Z /\ out = [] /\ exists e, opened os_listdir = Raise e) \/
  (code = 0%Z /\ out = [str StopIteration] /\
   exists s w0, opened os_listdir = Ok (s, w0) /\
                snd (loop display s fuel 0 w0) = Some StopIteration).
Proof.
  intros Hdisp H. unfold main in H. fold (opened os_listdir) in H.
  destruct (opened os_listdir) as [[s w0] | e] eqn:Hopen.
  - right.
    destruct (snd (loop display s fuel 0 w0)) as [e |] eqn:Hloop;
      [| discriminate H].
    destruct (opened_session _ _ _ Hopen) as (cd & dd & nv & -> & wf).
    pose proof (loop_raises_stop cd dd nv wf display Hdisp _ _ _ _ Hloop)
      as ->.
    rewrite guarded_exits_zero in H. injection H as <- <-.
    repeat split. eauto.
  - left. injection H as <- <-. repeat split. eauto.
Qed.

Lemma script_outcomes_witness :
  (0 = 1 /\ ["stop"%string] = [] /\
   exists e, opened two_devices = Raise e)%Z \/
  (0 = 0 /\ ["stop"%string] = [(fun _ : exn => "stop"%string) StopIteration] /\
   exists s w0, opened two_devices = Ok (s, w0) /\
                snd (loop quiet s 10 0 w0) = Some StopIteration)%Z.
Proof.
  apply (script_outcomes two_devices quiet (fun _ => "stop"%string) 10).
  - reflexivity.
  - vm_compute. reflexivity.
Defined.

(** ** Files with the same timestamp *)

Lemma insert_loop_last (c : string) (files : list string)
  (D0 D : dict Z (list string)) (t : Z) (entry : list string) :
  foldM (insert_file c) files D0 = Ok D ->
  dict_get Z.eqb t D = Some entry ->
  (exists f, entry = [c; f] /\ last_with_timestamp files t f) \/
  (dict_get Z.eqb t D0 = Some entry /\
   forall g, In g files -> timestamp_of g <> Ok t).
Proof.
  revert D0; induction files as [| x files IH]; simpl; intros D0 H Ht.
  - injection H as <-. right. split; [exact Ht | tauto].
  - inv_bind H. unfold insert_file in Hm. inv_bind Hm. injection Hm as <-.
    destruct (IH _ H Ht) as [(f & -> & pre & post & -> & Hf & Hpost)
                            | [Hget Hnone]].
    + left. exists f. split; [reflexivity |].
      exists (x :: pre), post. auto.
    + destruct (Z.eqb_spec t a0) as [-> | N].
      * rewrite (dict_get_set_eq _ Z_eqb_spec) in Hget. injection Hget as <-.
        left. exists x. split; [reflexivity |]. exists [], files. auto.
      * rewrite (dict_get_set_neq _ Z_eqb_spec) in Hget by assumption.
        right. split; [exact Hget |].
        intros g [<- | Hg]; [congruence | auto].
Qed.

Lemma entries_of_last (c : string) (files : list string)
  (D : dict Z (list string)) (t : Z) (entry : list string) :
  entries_of c files = Ok D ->
  dict_get Z.eqb t D = Some entry ->
  exists f, entry = [c; f] /\ last_with_timestamp files t f.
Proof.
  intros H Ht.
  destruct (insert_loop_last c files [] D t entry H Ht) as [Hl | [Hn _]];
    [exact Hl | discriminate Hn].
Qed.

(** X15.  When every device has a calibration file, of the files of a
    device and stream that have the same timestamp only one is kept in
    the index: the last of them in the order of the list, among the rows
    the build runs over.  The earlier ones cannot be reached any more. *)
Theorem later_file_replaces_earlier
  (os_listdir : string -> option (list string))
  (cfs dfs : dict string (list string)) (calib : dict string string)
  (cd dd : ts_dict) (nd nv : nat) (dev : string) :
  get_filepaths os_listdir PATH "color" = Ok cfs ->
  get_filepaths os_listdir PATH "depth" = Ok dfs ->
  get_calib os_listdir PATH = Ok calib ->
  aligned cfs dfs calib = true ->
  get_filepaths_with_timestamps os_listdir = Ok (cd, dd, nd, nv) ->
  (forall files D t entry,
      dict_get String.eqb dev cfs = Some files ->
      dict_get String.eqb dev cd = Some D ->
      dict_get Z.eqb t D = Some entry ->
      exists c f,
        dict_get String.eqb dev calib = Some c /\ entry = [c; f] /\
        last_with_timestamp (firstn (num_rows cfs dfs) files) t f) /\
  (forall files D t entry,
      dict_get String.eqb dev dfs = Some files ->
      dict_get String.eqb dev dd = Some D ->
      dict_get Z.eqb t D = Some entry ->
      exists c f,
        dict_get String.eqb dev calib = Some c /\ entry = [c; f] /\
        last_with_timestamp (firstn (num_rows cfs dfs) files) t f).
Proof.
  intros Hc Hd Hk Hal H. rewrite (scans_build _ _ _ _ Hc Hd Hk) in H.
  destruct (build_index_inv _ _ _ _ _ _ _ Hal H) as (_ & _ & Kc & Kd & Hdev).
  split; intros files D t entry Hfiles HD Ht.
  - assert (Hin : In dev (keys calib)).
    { rewrite <- Kc.
      exact (dict_get_Some_keys String.eqb String.eqb_spec _ _ _ HD). }
    destruct (dict_get_present _ _ Hin) as (c & Hcal).
    destruct (Hdev dev c Hcal) as [Hcol _].
    destruct (Hcol files Hfiles) as (D' & He & HD').
    rewrite HD in HD'. injection HD' as <-.
    destruct (entries_of_last _ _ _ _ _ He Ht) as (f & -> & Hlast).
    exists c, f. auto.
  - assert (Hin : In dev (keys calib)).
    { rewrite <- Kd.
      exact (dict_get_Some_keys String.eqb String.eqb_spec _ _ _ HD). }
    destruct (dict_get_present _ _ Hin) as (c & Hcal).
    destruct (Hdev dev c Hcal) as [_ Hdep].
    destruct (Hdep files Hfiles) as (D' & He & HD').
    rewrite HD in HD'. injection HD' as <-.
    destruct (entries_of_last _ _ _ _ _ He Ht) as (f & -> & Hlast).
    exists c, f. auto.
Qed.

Lemma later_file_replaces_earlier_witness :
  exists c f,
    dict_get String.eqb "A" [("A", "/tmp/testing/A/s2/calib/calib.json")]
    = Some c /\
    ["/tmp/testing/A/s2/calib/calib.json"; "/tmp/testing/A/s2/color/100.bin"]
    = [c; f] /\
    last_with_timestamp
      (firstn (num_rows
                 [("A", ["/tmp/testing/A/s1/color/100.bin";
                         "/tmp/testing/A/s2/color/100.bin"])]
                 [("A", ["/tmp/testing/A/s1/depth/100.bin";
                         "/tmp/testing/A/s2/depth/100.bin"])])
              ["/tmp/testing/A/s1/color/100.bin";
               "/tmp/testing/A/s2/color/100.bin"]) 100 f.
Proof.
  refine (proj1 (later_file_replaces_earlier repeated_names
                   [("A", ["/tmp/testing/A/s1/color/100.bin";
                           "/tmp/testing/A/s2/color/100.bin"])]
                   [("A", ["/tmp/testing/A/s1/depth/100.bin";
                           "/tmp/testing/A/s2/depth/100.bin"])]
                   [("A", "/tmp/testing/A/s2/calib/calib.json")]
                   [("A", [(100%Z, ["/tmp/testing/A/s2/calib/calib.json";
                                    "/tmp/testing/A/s2/color/100.bin"])])]
                   [("A", [(100%Z, ["/tmp/testing/A/s2/calib/calib.json";
                                    "/tmp/testing/A/s2/depth/100.bin"])])]
                   2 1 "A" _ _ _ _ _) _ _ 100%Z _ _ _ _);
    vm_compute; reflexivity.
Defined.

(** * The capture loop of [net_viewer.py] *)

Lemma running_app (tr tr' : list event) :
  running (tr ++ tr') = (running tr + running tr')%nat.
Proof. unfold running. now rewrite filter_app, length_app. Qed.

Lemma stops_app (tr tr' : list event) :
  stops (tr ++ tr') = (stops tr + stops tr')%nat.
Proof. unfold stops. now rewrite filter_app, length_app. Qed.

(** Without an exception the loop ends at the capture with frames that
    takes the counter beyond [rs_fps * 10], and not before. *)
Lemma viewer_loop_counts (rs_fps : Z) (steps : list capture) :
  forallb succeeds steps = true ->
  forall (c : Z) (tr : list event),
    match viewer_loop rs_fps steps c tr with
    | Some (tr', raised) =>
        raised = false /\
        (S (Z.to_nat (rs_fps * 10 - c)) <= captures steps)%nat /\
        running tr' = (running tr + S (Z.to_nat (rs_fps * 10 - c)))%nat /\
        stops tr' = stops tr
    | None => (captures steps <= Z.to_nat (rs_fps * 10 - c))%nat
    end.
Proof.
  induction steps as [| [n |] steps IH]; intros Hok c tr.
  - simpl. unfold captures. simpl. lia.
  - simpl in Hok. specialize (IH Hok). cbn [viewer_loop].
    destruct n as [| n].
    + cbn [Nat.ltb Nat.leb negb].
      specialize (IH c (tr ++ [Print "Empty..."])).
      rewrite running_app, stops_app in IH. unfold captures in *.
      cbn [filter has_frames] in *. cbn in IH.
      destruct (viewer_loop rs_fps steps c (tr ++ [Print "Empty..."]))
        as [[tr' raised] |]; [| exact IH].
      destruct IH as (-> & Hc & Hr & Hs). repeat split; lia.
    + cbn [Nat.ltb Nat.leb negb]. unfold captures in *.
      cbn [filter has_frames List.length].
      destruct (Z.gtb_spec (c + 1) (rs_fps * 10)) as [Hgt | Hle].
      * rewrite running_app, stops_app. cbn.
        replace (Z.to_nat (rs_fps * 10 - c)) with 0%nat by lia.
        repeat split; lia.
      * specialize (IH (c + 1)%Z (tr ++ [Print "Running..."])).
        rewrite running_app, stops_app in IH. cbn in IH.
        replace (Z.to_nat (rs_fps * 10 - c))
          with (S (Z.to_nat (rs_fps * 10 - (c + 1)))) by lia.
        destruct (viewer_loop rs_fps steps (c + 1)
                    (tr ++ [Print "Running..."])) as [[tr' raised] |].
        -- destruct IH as (-> & Hc & Hr & Hs). repeat split; lia.
        -- lia.
  - discriminate Hok.
Qed.

(** X16.  While [rsw.step] does not raise, the viewer goes on until it
    has had frames [rs_fps * 10 + 1] times (once, when [rs_fps] is
    negative), captures without frames not counting; it then calls
    [rsw.stop] once, and prints [Finished] if that call returns; if the
    call raises, the exception is left uncaught and nothing more is
    printed. *)
Theorem viewer_ends_at_count (rs_fps : Z) (steps : list capture)
  (stop_returns : nat -> bool) :
  forallb succeeds steps = true ->
  match viewer rs_fps steps stop_returns with
  | Some (tr, e) =>
      (S (Z.to_nat (rs_fps * 10)) <= captures steps)%nat /\
      running tr = S (Z.to_nat (rs_fps * 10)) /\
      stops tr = 1%nat /\
      if stop_returns 0%nat then
        e = Completed /\ exists tr0, tr = tr0 ++ [Stop; Print "Finished"]
      else
        e = Uncaught /\ exists tr0, tr = tr0 ++ [Stop]
  | None => (captures steps <= Z.to_nat (rs_fps * 10))%nat
  end.
Proof.
  intros Hok. unfold viewer.
  pose proof (viewer_loop_counts rs_fps steps Hok 0
                [Print "Starting frame capture loop..."]) as H.
  rewrite Z.sub_0_r in H.
  destruct (viewer_loop rs_fps steps 0 _) as [[tr raised] |]; [| exact H].
  destruct H as (-> & Hc & Hr & Hs). cbn in Hr, Hs.
  destruct (stop_returns 0%nat); rewrite running_app, stops_app; cbn;
    repeat split; try lia; now exists tr.
Qed.

Lemma viewer_ends_at_count_witness :
  match viewer 1 (repeat (Frames 0) 2 ++ repeat (Frames 2) 11)
               (fun k => negb (k =? 0)%nat) with
  | Some (tr, e) =>
      (S (Z.to_nat (1 * 10)) <= captures
                                  (repeat (Frames 0) 2 ++ repeat (Frames 2) 11))%nat /\
      running tr = S (Z.to_nat (1 * 10)) /\
      stops tr = 1%nat /\
      if negb (0 =? 0)%nat then
        e = Completed /\ exists tr0, tr = tr0 ++ [Stop; Print "Finished"]
      else
        e = Uncaught /\ exists tr0, tr = tr0 ++ [Stop]
  | None =>
      (captures (repeat (Frames 0) 2 ++ repeat (Frames 2) 11)
       <= Z.to_nat (1 * 10))%nat
  end.
Proof.
  apply (viewer_ends_at_count 1 (repeat (Frames 0) 2 ++ repeat (Frames 2) 11)
           (fun k => negb (k =? 0)%nat)).
  reflexivity.
Defined.

Lemma viewer_loop_raises (rs_fps : Z) (pre post : list capture) :
  forallb succeeds pre = true ->
  forall (c : Z) (tr : list event),
    (captures pre <= Z.to_nat (rs_fps * 10 - c))%nat ->
    exists tr',
      viewer_loop rs_fps (pre ++ Fails :: post) c tr = Some (tr', true) /\
      running tr' = (running tr + captures pre)%nat /\
      stops tr' = stops tr.
Proof.
  induction pre as [| [n |] pre IH]; intros Hok c tr Hc.
  - exists tr. unfold captures. simpl. repeat split; lia.
  - simpl in Hok. specialize (IH Hok).
    change ((Frames n :: pre) ++ Fails :: post)
      with (Frames n :: (pre ++ Fails :: post)).
    cbn [viewer_loop]. unfold captures in *. destruct n as [| n].
    + cbn [Nat.ltb Nat.leb negb filter has_frames] in *.
      destruct (IH c (tr ++ [Print "Empty..."]) Hc) as (tr' & -> & Hr & Hs).
      rewrite running_app, stops_app in *. cbn in Hr, Hs.
      exists tr'. repeat split; lia.
    + cbn [Nat.ltb Nat.leb negb filter has_frames List.length] in *.
      destruct (Z.gtb_spec (c + 1) (rs_fps * 10)) as [Hgt | Hle]; [lia |].
      destruct (IH (c + 1)%Z (tr ++ [Print "Running..."]) ltac:(lia))
        as (tr' & -> & Hr & Hs).
      rewrite running_app, stops_app in *. cbn in Hr, Hs.
      exists tr'. repeat split; lia.
  - discriminate Hok.
Qed.

(** X17.  When [rsw.step] raises before the viewer has had frames
    [rs_fps * 10 + 1] times, the viewer prints that it stops the devices
    and calls [rsw.stop] twice, once in the handler and once more in the
    [finally] block, whatever the first call does.  It prints [Finished]
    exactly when both calls return; when either raises, the exception is
    left uncaught and [Finished] is not printed. *)
Theorem viewer_stops_twice_on_failure (rs_fps : Z) (pre post : list capture)
  (stop_returns : nat -> bool) :
  forallb succeeds pre = true ->
  (captures pre <= Z.to_nat (rs_fps * 10))%nat ->
  exists tr0,
    running tr0 = captures pre /\ stops tr0 = 0%nat /\
    viewer rs_fps (pre ++ Fails :: post) stop_returns
    = Some (if (stop_returns 0%nat && stop_returns 1%nat)%bool then
              (tr0 ++ [Print "Stopping RealSense devices..."; Stop; Stop;
                       Print "Finished"], Completed)
            else
              (tr0 ++ [Print "Stopping RealSense devices..."; Stop; Stop],
               Uncaught)).
Proof.
  intros Hok Hc. unfold viewer.
  destruct (viewer_loop_raises rs_fps pre post Hok 0
              [Print "Starting frame capture loop..."])
    as (tr' & -> & Hr & Hs); [now rewrite Z.sub_0_r |].
  exists tr'. cbn in Hr, Hs. split; [exact Hr |]. split; [exact Hs |].
  cbv zeta. destruct (stop_returns 0%nat && stop_returns 1%nat)%bool;
    [now rewrite <- app_assoc | reflexivity].
Qed.

Lemma viewer_stops_twice_on_failure_witness :
  exists tr0,
    running tr0 = captures [Frames 1; Frames 0] /\ stops tr0 = 0%nat /\
    viewer 1 ([Frames 1; Frames 0] ++ Fails :: [Frames 1])
           (fun k => (k =? 0)%nat)
    = Some (if ((0 =? 0)%nat && (1 =? 0)%nat)%bool then
              (tr0 ++ [Print "Stopping RealSense devices..."; Stop; Stop;
                       Print "Finished"], Completed)
            else
              (tr0 ++ [Print "Stopping RealSense devices..."; Stop; Stop],
               Uncaught)).
Proof.
  apply (viewer_stops_twice_on_failure 1 [Frames 1; Frames 0] [Frames 1]
           (fun k => (k =? 0)%nat)).
  - reflexivity.
  - vm_compute. lia.
Defined.
